(** * Static analyser and auto-refactorer of [app.py]

    A shallow embedding of the analysis and rewrite engine of [app.py]:
    the detectors built on [ast.NodeVisitor], the two complexity estimators,
    [analyze_code] and [auto_refactor] with its [Transformer.visit_Module].

    The parser ([ast.parse]), the serialiser ([safe_unparse]) and the optional
    formatter ([black.format_str]) are external services; they are parameters
    of the development. Python exceptions are the left injection of the error
    monad [result].

    The functions are given twice: first on an interpreter with no limit on
    the depth of calls and with services that fail by [SyntaxError] only,
    then, in module [host], under the recursion limit of the interpreter
    and with services that raise what the library's raise. The two agree
    wherever the limit is not reached. *)

From Stdlib Require Import String Ascii List Arith PeanoNat Lia Bool.
From Stdlib Require Import DecimalString.
From ExtLib Require Import Structures.Monad Structures.MonadExc Data.Monads.EitherMonad.
Import ListNotations.
Import MonadNotation.
Local Open Scope string_scope.
Local Open Scope list_scope.
Local Open Scope monad_scope.
Local Set Warnings "-register-all".

(** ** Exceptions and the error monad *)

Inductive exn : Type :=
| SyntaxError (msg : string)
| IndexError (msg : string)
| KeyError (key : string)
| AttributeError (msg : string)
| RecursionError (msg : string)
| ValueError (msg : string)
| ModuleNotFoundError (msg : string).

(** [inl e] is a raised exception, [inr x] a returned value. *)
Definition result : Type -> Type := sum exn.

(** [xs[i]] on a Python list. *)
Definition getitem {A : Type} (xs : list A) (i : nat) : result A :=
  match nth_error xs i with
  | Some x => ret x
  | None => raise (IndexError "list index out of range")
  end.

(** Truth value of a list: [if xs:]. *)
Definition truthy {A : Type} (xs : list A) : bool :=
  match xs with
  | [] => false
  | _ :: _ => true
  end.

(** [for x in xs: acc = f(acc, x)] where [f] may raise. *)
Section ForEach.
Context {A B : Type}.
Variable f : B -> A -> result B.

Fixpoint for_each (xs : list A) (acc : B) : result B :=
  match xs with
  | [] => ret acc
  | x :: xs' => acc' <- f acc x ;; for_each xs' acc'
  end.
End ForEach.

(** ** The syntax tree

    The node kinds of Python's [ast] module that the program inspects or
    builds, and the statement and expression forms needed to nest them.
    Fields come in the order of the node's [_fields]. Of the position
    attributes only the [lineno] of the four node kinds whose [lineno] the
    program reads is kept. Operator and context nodes ([ast.Add], [ast.In],
    [ast.Load], ...) are plain enumerations: no visitor of the program has a
    handler for them and they have no children. *)

Module ast.

Inductive operator : Type := Add | Sub | Mult | Div | Mod | Pow.
Inductive boolop : Type := And | Or.
Inductive unaryop : Type := Not | USub.
Inductive cmpop : Type :=
  Eq | NotEq | Lt | LtE | Gt | GtE | Is | IsNot | In | NotIn.

Inductive constant : Type :=
| CNone
| CBool (b : bool)
| CInt (n : nat)
| CStr (s : string).

Inductive expr : Type :=
| BoolOp (op : boolop) (values : list expr)
| NamedExpr (target value : expr)
| BinOp (left : expr) (op : operator) (right : expr)
| UnaryOp (op : unaryop) (operand : expr)
| IfExp (test body orelse : expr)
| ListComp (elt : expr) (generators : list comprehension_node)
| Compare (lineno : nat) (left : expr) (ops : list cmpop)
          (comparators : list expr)
| Call (lineno : nat) (func : expr) (args : list expr)
       (keywords : list keyword_node)
| Constant (value : constant)
| Attribute (value : expr) (attr : string)
| Subscript (value slice : expr)
| Starred (value : expr)
| Name (id : string)
| List (elts : list expr)
| Tuple (elts : list expr)
with comprehension_node : Type :=
| comprehension (target iter : expr) (ifs : list expr) (is_async : nat)
with keyword_node : Type :=
| keyword (arg : option string) (value : expr).

Inductive stmt : Type :=
| FunctionDef (name : string) (args : list string) (body : list stmt)
              (decorator_list : list expr)
| Return (value : option expr)
| Assign (targets : list expr) (value : expr)
| AugAssign (lineno : nat) (target : expr) (op : operator) (value : expr)
| For (lineno : nat) (target iter : expr) (body orelse : list stmt)
| While (test : expr) (body orelse : list stmt)
| If (test : expr) (body orelse : list stmt)
| Expr (value : expr)
| Pass
| Break
| Continue.

Inductive mod_ : Type :=
| Module_ (body : list stmt).

(** Any node: what Python code holds in a variable of type [ast.AST]. *)
Inductive AST : Type :=
| of_mod (m : mod_)
| of_stmt (s : stmt)
| of_expr (e : expr)
| of_comprehension (c : comprehension_node)
| of_keyword (k : keyword_node).

Definition opt_expr (o : option expr) : list AST :=
  match o with
  | Some e => [of_expr e]
  | None => []
  end.

(** [ast.iter_child_nodes]: the direct children, field by field. *)
Definition iter_child_nodes (n : AST) : list AST :=
  match n with
  | of_mod (Module_ body) => map of_stmt body
  | of_stmt s =>
      match s with
      | FunctionDef _ _ body decorator_list =>
          map of_stmt body ++ map of_expr decorator_list
      | Return value => opt_expr value
      | Assign targets value => map of_expr targets ++ [of_expr value]
      | AugAssign _ target _ value => [of_expr target; of_expr value]
      | For _ target iter body orelse =>
          of_expr target :: of_expr iter
            :: map of_stmt body ++ map of_stmt orelse
      | While test body orelse =>
          of_expr test :: map of_stmt body ++ map of_stmt orelse
      | If test body orelse =>
          of_expr test :: map of_stmt body ++ map of_stmt orelse
      | Expr value => [of_expr value]
      | Pass | Break | Continue => []
      end
  | of_expr e =>
      match e with
      | BoolOp _ values => map of_expr values
      | NamedExpr target value => [of_expr target; of_expr value]
      | BinOp lhs _ rhs => [of_expr lhs; of_expr rhs]
      | UnaryOp _ operand => [of_expr operand]
      | IfExp test body orelse =>
          [of_expr test; of_expr body; of_expr orelse]
      | ListComp elt generators =>
          of_expr elt :: map of_comprehension generators
      | Compare _ lhs _ comparators =>
          of_expr lhs :: map of_expr comparators
      | Call _ func args keywords =>
          of_expr func :: map of_expr args ++ map of_keyword keywords
      | Constant _ => []
      | Attribute value _ => [of_expr value]
      | Subscript value slice => [of_expr value; of_expr slice]
      | Starred value => [of_expr value]
      | Name _ => []
      | List elts => map of_expr elts
      | Tuple elts => map of_expr elts
      end
  | of_comprehension (comprehension target iter ifs _) =>
      of_expr target :: of_expr iter :: map of_expr ifs
  | of_keyword (keyword _ value) => [of_expr value]
  end.

End ast.

(** ** Depth-first traversal

    Both the nested function [visit] of [max_loop_nesting] and
    [NodeVisitor.visit] followed by [generic_visit] have one shape: do
    something at the node, then visit every child in the order of
    [ast.iter_child_nodes]. [enter] is what happens at the node; it receives
    the value passed down by the parent (the [depth] argument of [visit]) and
    the state shared by the whole walk (the [nonlocal] variable or the
    [results] list), and may raise. *)

Section Traversal.

Context {I S : Type}.
Variable enter : ast.AST -> I -> S -> result (I * S).

Fixpoint traverse_expr (e : ast.expr) (i : I) (s : S) {struct e} : result S :=
  '(i', s') <- enter (ast.of_expr e) i s ;;
  let exprs := for_each (fun s e' => traverse_expr e' i' s) in
  match e with
  | ast.BoolOp _ values => exprs values s'
  | ast.NamedExpr target value =>
      s1 <- traverse_expr target i' s' ;; traverse_expr value i' s1
  | ast.BinOp lhs _ rhs =>
      s1 <- traverse_expr lhs i' s' ;; traverse_expr rhs i' s1
  | ast.UnaryOp _ operand => traverse_expr operand i' s'
  | ast.IfExp test body orelse =>
      s1 <- traverse_expr test i' s' ;;
      s2 <- traverse_expr body i' s1 ;;
      traverse_expr orelse i' s2
  | ast.ListComp elt generators =>
      s1 <- traverse_expr elt i' s' ;;
      for_each (fun s c => traverse_comprehension c i' s) generators s1
  | ast.Compare _ lhs _ comparators =>
      s1 <- traverse_expr lhs i' s' ;; exprs comparators s1
  | ast.Call _ func args keywords =>
      s1 <- traverse_expr func i' s' ;;
      s2 <- exprs args s1 ;;
      for_each (fun s k => traverse_keyword k i' s) keywords s2
  | ast.Constant _ => ret s'
  | ast.Attribute value _ => traverse_expr value i' s'
  | ast.Subscript value slice =>
      s1 <- traverse_expr value i' s' ;; traverse_expr slice i' s1
  | ast.Starred value => traverse_expr value i' s'
  | ast.Name _ => ret s'
  | ast.List elts => exprs elts s'
  | ast.Tuple elts => exprs elts s'
  end
with traverse_comprehension (c : ast.comprehension_node) (i : I) (s : S)
                            {struct c} : result S :=
  '(i', s') <- enter (ast.of_comprehension c) i s ;;
  match c with
  | ast.comprehension target iter ifs _ =>
      s1 <- traverse_expr target i' s' ;;
      s2 <- traverse_expr iter i' s1 ;;
      for_each (fun s e' => traverse_expr e' i' s) ifs s2
  end
with traverse_keyword (k : ast.keyword_node) (i : I) (s : S) {struct k}
  : result S :=
  '(i', s') <- enter (ast.of_keyword k) i s ;;
  match k with
  | ast.keyword _ value => traverse_expr value i' s'
  end.

Definition traverse_exprs (es : list ast.expr) (i : I) (s : S) : result S :=
  for_each (fun s e => traverse_expr e i s) es s.

Fixpoint traverse_stmt (st : ast.stmt) (i : I) (s : S) {struct st}
  : result S :=
  '(i', s') <- enter (ast.of_stmt st) i s ;;
  let stmts := for_each (fun s st' => traverse_stmt st' i' s) in
  match st with
  | ast.FunctionDef _ _ body decorator_list =>
      s1 <- stmts body s' ;; traverse_exprs decorator_list i' s1
  | ast.Return None => ret s'
  | ast.Return (Some value) => traverse_expr value i' s'
  | ast.Assign targets value =>
      s1 <- traverse_exprs targets i' s' ;; traverse_expr value i' s1
  | ast.AugAssign _ target _ value =>
      s1 <- traverse_expr target i' s' ;; traverse_expr value i' s1
  | ast.For _ target iter body orelse =>
      s1 <- traverse_expr target i' s' ;;
      s2 <- traverse_expr iter i' s1 ;;
      s3 <- stmts body s2 ;;
      stmts orelse s3
  | ast.While test body orelse =>
      s1 <- traverse_expr test i' s' ;;
      s2 <- stmts body s1 ;;
      stmts orelse s2
  | ast.If test body orelse =>
      s1 <- traverse_expr test i' s' ;;
      s2 <- stmts body s1 ;;
      stmts orelse s2
  | ast.Expr value => traverse_expr value i' s'
  | ast.Pass | ast.Break | ast.Continue => ret s'
  end.

Definition traverse_mod (m : ast.mod_) (i : I) (s : S) : result S :=
  '(i', s') <- enter (ast.of_mod m) i s ;;
  match m with
  | ast.Module_ body => for_each (fun s st => traverse_stmt st i' s) body s'
  end.

Definition traverse (n : ast.AST) (i : I) (s : S) : result S :=
  match n with
  | ast.of_mod m => traverse_mod m i s
  | ast.of_stmt st => traverse_stmt st i s
  | ast.of_expr e => traverse_expr e i s
  | ast.of_comprehension c => traverse_comprehension c i s
  | ast.of_keyword k => traverse_keyword k i s
  end.

End Traversal.

(** ** Python values

    What [analyze_code] returns: dictionaries (in insertion order), lists,
    tuples, strings, integers and booleans. *)

Inductive value : Type :=
| VBool (b : bool)
| VInt (n : nat)
| VStr (s : string)
| VList (xs : list value)
| VTuple (xs : list value)
| VDict (items : list (string * value)).

(** [d[k]]. *)
Fixpoint dict_get (d : list (string * value)) (k : string) : result value :=
  match d with
  | [] => raise (KeyError k)
  | (k', v) :: d' => if String.eqb k' k then ret v else dict_get d' k
  end.

(** [d[k] = v]: an existing key keeps its place, a new one goes last. *)
Fixpoint dict_set (d : list (string * value)) (k : string) (v : value)
  : list (string * value) :=
  match d with
  | [] => [(k, v)]
  | (k', v') :: d' =>
      if String.eqb k' k then (k', v) :: d' else (k', v') :: dict_set d' k v
  end.

(** [xs.append(x)] on a value that should be a list. *)
Definition list_append (xs : value) (x : value) : result value :=
  match xs with
  | VList l => ret (VList (l ++ [x]))
  | _ => raise (AttributeError "object has no attribute 'append'")
  end.

(** [str(n)] for a non-negative integer. *)
Definition str_int (n : nat) : string :=
  NilEmpty.string_of_uint (Nat.to_uint n).

(** [", ".join(...)] of the items' [repr]. *)
Fixpoint join_ints (xs : list nat) : string :=
  match xs with
  | [] => ""
  | [x] => str_int x
  | x :: xs' => (str_int x ++ ", " ++ join_ints xs')%string
  end.

(** [str(xs)] for a list of integers, as an f-string renders it. *)
Definition str_int_list (xs : list nat) : string :=
  ("[" ++ join_ints xs ++ "]")%string.

(** ** AST helpers and detectors *)

(** [NodeVisitor.visit] for a visitor class with one [visit_X] method that
    ends in [self.generic_visit(node)]: [visit_node] is the method's effect
    on [results] at a node of class [X], and the identity at any other
    node. *)
Definition NodeVisitor_visit {R : Type} (visit_node : ast.AST -> R -> result R)
  (node : ast.AST) (results : R) : result R :=
  traverse (fun n (_ : unit) r => r' <- visit_node n r ;; ret (tt, r'))
           node tt results.

Definition isinstance_For_While (n : ast.AST) : bool :=
  match n with
  | ast.of_stmt (ast.For _ _ _ _ _) => true
  | ast.of_stmt (ast.While _ _ _) => true
  | _ => false
  end.

(** The body of the nested function [visit] of [max_loop_nesting] before it
    loops over the children: [depth] is the argument, [max_depth] the
    [nonlocal] variable. *)
Definition enter_loop (n : ast.AST) (depth max_depth : nat)
  : result (nat * nat) :=
  if isinstance_For_While n then
    let depth := depth + 1 in
    ret (depth, Nat.max max_depth depth)
  else ret (depth, max_depth).

Definition max_loop_nesting (node : ast.AST) : result nat :=
  let max_depth := 0 in
  let visit := traverse enter_loop in
  visit node 0 max_depth.

Module find_string_concat_in_loops.
Definition visit_AugAssign (node : ast.AST) (results : list (nat * string))
  : result (list (nat * string)) :=
  match node with
  | ast.of_stmt (ast.AugAssign lineno (ast.Name id) ast.Add _) =>
      ret (results ++ [(lineno, id)])
  | _ => ret results
  end.

Definition run (module : ast.mod_) : result (list (nat * string)) :=
  NodeVisitor_visit visit_AugAssign (ast.of_mod module) [].
End find_string_concat_in_loops.

Module find_list_append_patterns.
Definition visit_Call (node : ast.AST) (results : list (nat * string))
  : result (list (nat * string)) :=
  match node with
  | ast.of_expr (ast.Call lineno (ast.Attribute (ast.Name id) attr) _ _) =>
      if String.eqb attr "append" then ret (results ++ [(lineno, id)])
      else ret results
  | _ => ret results
  end.

Definition run (module : ast.mod_) : result (list (nat * string)) :=
  NodeVisitor_visit visit_Call (ast.of_mod module) [].
End find_list_append_patterns.

Module find_range_len_patterns.
Definition visit_For (node : ast.AST) (results : list (nat * string))
  : result (list (nat * string)) :=
  match node with
  | ast.of_stmt (ast.For lineno _ (ast.Call _ (ast.Name f) args _) _ _) =>
      if String.eqb f "range" then
        if truthy args then
          a0 <- getitem args 0 ;;
          match a0 with
          | ast.Call _ (ast.Name g) args0 _ =>
              if String.eqb g "len" then
                if truthy args0 then
                  x <- getitem args0 0 ;;
                  match x with
                  | ast.Name id => ret (results ++ [(lineno, id)])
                  | _ => ret results
                  end
                else ret results
              else ret results
          | _ => ret results
          end
        else ret results
      else ret results
  | _ => ret results
  end.

Definition run (module : ast.mod_) : result (list (nat * string)) :=
  NodeVisitor_visit visit_For (ast.of_mod module) [].
End find_range_len_patterns.

Module find_sorted_in_loops.
Definition visit_Call (node : ast.AST) (results : list nat)
  : result (list nat) :=
  match node with
  | ast.of_expr (ast.Call lineno func _ _) =>
      let results :=
        match func with
        | ast.Name id =>
            if String.eqb id "sorted" then results ++ [lineno] else results
        | _ => results
        end in
      let results :=
        match func with
        | ast.Attribute _ attr =>
            if String.eqb attr "sort" then results ++ [lineno] else results
        | _ => results
        end in
      ret results
  | _ => ret results
  end.

Definition run (module : ast.mod_) : result (list nat) :=
  NodeVisitor_visit visit_Call (ast.of_mod module) [].
End find_sorted_in_loops.

Module detect_membership_of_list_in_loops.
Definition isinstance_In (op : ast.cmpop) : bool :=
  match op with
  | ast.In => true
  | _ => false
  end.

Definition visit_Compare (node : ast.AST) (results : list (nat * string))
  : result (list (nat * string)) :=
  match node with
  | ast.of_expr (ast.Compare lineno _ ops comparators) =>
      for_each
        (fun results op =>
           if isinstance_In op then
             if truthy comparators then
               c0 <- getitem comparators 0 ;;
               match c0 with
               | ast.Name id => ret (results ++ [(lineno, id)])
               | _ => ret results
               end
             else ret results
           else ret results)
        ops results
  | _ => ret results
  end.

Definition run (module : ast.mod_) : result (list (nat * string)) :=
  NodeVisitor_visit visit_Compare (ast.of_mod module) [].
End detect_membership_of_list_in_loops.

(** ** Complexity estimators *)

(** The summary text built by [estimate_time_complexity]. *)
Definition time_est_text (max_loops : nat) (sort_lines : list nat) : string :=
  let time_est :=
    if (max_loops =? 0)%nat then "O(n) or O(1) (no loops detected)"
    else if (max_loops =? 1)%nat then "Heuristic: O(n) (one loop)."
    else ("Heuristic: O(n^" ++ str_int max_loops
          ++ ") (max loop nesting=" ++ str_int max_loops ++ ")")%string in
  if truthy sort_lines then
    (time_est ++ " Sorting detected at lines " ++ str_int_list sort_lines
              ++ " (O(n log n)).")%string
  else time_est.

Definition estimate_time_complexity (module : ast.mod_)
  : result (string * value) :=
  max_loops <- max_loop_nesting (ast.of_mod module) ;;
  sort_lines <- find_sorted_in_loops.run module ;;
  let time_est := time_est_text max_loops sort_lines in
  ret (time_est,
       VDict [("max_loop_nesting", VInt max_loops);
              ("sort_calls", VList (map VInt sort_lines))]).

Definition visit_ListComp (node : ast.AST) (comp_count : nat) : result nat :=
  match node with
  | ast.of_expr (ast.ListComp _ _) => ret (comp_count + 1)
  | _ => ret comp_count
  end.

Definition tuple_int_str (p : nat * string) : value :=
  VTuple [VInt (fst p); VStr (snd p)].

(** The summary text built by [estimate_space_complexity]. *)
Definition space_est_text (comp_count : nat) (appends : list (nat * string))
  : string :=
  if (0 <? comp_count)%nat || truthy appends then
    "Heuristic: O(n) (building new containers)."
  else "Heuristic: O(1) (no major containers built).".

Definition estimate_space_complexity (module : ast.mod_)
  : result (string * value) :=
  let comp_count := 0 in
  appends <- find_list_append_patterns.run module ;;
  comp_count <- NodeVisitor_visit visit_ListComp (ast.of_mod module) comp_count ;;
  let space_est := space_est_text comp_count appends in
  ret (space_est,
       VDict [("list_comprehensions", VInt comp_count);
              ("list_appends", VList (map tuple_int_str appends))]).

(** ** Analyzer and refactorer

    [ast_parse] is [ast.parse]: a tree, or the message of the [SyntaxError]
    it raises. [safe_unparse] is the serialiser. [format_str] is [None] when
    the formatter could not be imported; a formatter returns [None] when it
    raises. *)

Section Program.

Variable ast_parse : string -> string + ast.mod_.
Variable safe_unparse : ast.mod_ -> string.
Variable format_str : option (string -> option string).

(** [result["detections"].append(d)]. *)
Definition append_detection (result_ : list (string * value)) (d : value)
  : result (list (string * value)) :=
  dets <- dict_get result_ "detections" ;;
  dets' <- list_append dets d ;;
  ret (dict_set result_ "detections" dets').

(** The dictionaries appended to [result["detections"]]. *)
Definition string_concat_detection (p : nat * string) : value :=
  let '(lineno, var) := p in
  VDict [("type", VStr "string_concat_in_loop");
         ("lineno", VInt lineno);
         ("variable", VStr var);
         ("suggestion", VStr "Use ''.join(...) instead of += in a loop.")].

Definition list_append_detection (p : nat * string) : value :=
  let '(lineno, var) := p in
  VDict [("type", VStr "list_append");
         ("lineno", VInt lineno);
         ("list_name", VStr var);
         ("suggestion",
          VStr "Consider using a list comprehension instead of append in loop.")].

Definition range_len_detection (p : nat * string) : value :=
  let '(lineno, seq) := p in
  VDict [("type", VStr "range_len");
         ("lineno", VInt lineno);
         ("sequence", VStr seq);
         ("suggestion", VStr "Use enumerate() instead of range(len(...)).")].

Definition membership_detection (p : nat * string) : value :=
  let '(lineno, container) := p in
  VDict [("type", VStr "membership_test");
         ("lineno", VInt lineno);
         ("container", VStr container);
         ("suggestion",
          VStr "Convert list to set for faster membership tests.")].

Definition sort_detection (lineno : nat) : value :=
  VDict [("type", VStr "sort_in_loop");
         ("lineno", VInt lineno);
         ("suggestion",
          VStr "Move sorting outside loop to avoid O(n log n) each iteration.")].

(** [for x in xs: result["detections"].append(mk(x))]. *)
Definition append_detections {A : Type} (mk : A -> value) (xs : list A)
  (result_ : list (string * value)) : result (list (string * value)) :=
  for_each (fun result_ x => append_detection result_ (mk x)) xs result_.

Definition analyze_code (code_str : string) : result value :=
  match ast_parse code_str with
  | inl e => ret (VDict [("ok", VBool false); ("parse_error", VStr e)])
  | inr module =>
      let result_ := [("ok", VBool true); ("detections", VList [])] in
      '(time_est, time_details) <- estimate_time_complexity module ;;
      '(space_est, space_details) <- estimate_space_complexity module ;;
      let result_ := dict_set result_ "time_estimate" (VStr time_est) in
      let result_ := dict_set result_ "time_details" time_details in
      let result_ := dict_set result_ "space_estimate" (VStr space_est) in
      let result_ := dict_set result_ "space_details" space_details in
      concats <- find_string_concat_in_loops.run module ;;
      result_ <- append_detections string_concat_detection concats result_ ;;
      appends <- find_list_append_patterns.run module ;;
      result_ <- append_detections list_append_detection appends result_ ;;
      range_lens <- find_range_len_patterns.run module ;;
      result_ <- append_detections range_len_detection range_lens result_ ;;
      memberships <- detect_membership_of_list_in_loops.run module ;;
      result_ <- append_detections membership_detection memberships result_ ;;
      sorts <- find_sorted_in_loops.run module ;;
      result_ <- append_detections sort_detection sorts result_ ;;
      ret (VDict result_)
  end.

(** The test of [Transformer.visit_Module] at cursor [i]: [cur] is
    [node.body[i]] and [rest] is [node.body[i+1:]], so that
    [i + 1 < len(node.body)] reads [0 < length rest] and [node.body[i + 1]]
    reads [rest[0]]. Returns the comprehension assignment when the two
    statements are to be replaced. *)
Definition append_idiom (cur : ast.stmt) (rest : list ast.stmt)
  : result (option ast.stmt) :=
  match cur with
  | ast.Assign targets value =>
      if (length targets =? 1)%nat then
        t0 <- getitem targets 0 ;;
        match t0 with
        | ast.Name varname =>
            match value with
            | ast.List elts =>
                if negb (truthy elts) && (0 <? length rest)%nat then
                  fnode <- getitem rest 0 ;;
                  match fnode with
                  | ast.For _ target iter fbody _ =>
                      if (length fbody =? 1)%nat then
                        b0 <- getitem fbody 0 ;;
                        match b0 with
                        | ast.Expr (ast.Call _ (ast.Attribute (ast.Name id) attr) args _) =>
                            if String.eqb attr "append"
                               && String.eqb id varname then
                              elt <- getitem args 0 ;;
                              let comp :=
                                ast.ListComp elt
                                  [ast.comprehension target iter [] 0] in
                              let assign :=
                                ast.Assign [ast.Name varname] comp in
                              ret (Some assign)
                            else ret None
                        | _ => ret None
                        end
                      else ret None
                  | _ => ret None
                  end
                else ret None
            | _ => ret None
            end
        | _ => ret None
        end
      else ret None
  | _ => ret None
  end.

(** The [while i < len(node.body)] loop of [visit_Module], on the part
    [node.body[i:]] still to scan. *)
Fixpoint visit_Module_loop (todo : list ast.stmt) (new_body : list ast.stmt)
  {struct todo} : result (list ast.stmt) :=
  match todo with
  | [] => ret new_body
  | cur :: rest =>
      r <- append_idiom cur rest ;;
      match r with
      | Some assign =>
          match rest with
          | _ :: rest' => visit_Module_loop rest' (new_body ++ [assign])
          | [] => ret (new_body ++ [assign])
          end
      | None => visit_Module_loop rest (new_body ++ [cur])
      end
  end.

(** [Transformer().visit(module)]: dispatches to [visit_Module], which
    does not descend into the statements. *)
Definition visit_Module (node : ast.mod_) : result ast.mod_ :=
  match node with
  | ast.Module_ body =>
      new_body <- visit_Module_loop body [] ;;
      ret (ast.Module_ new_body)
  end.

(** [ast.fix_missing_locations]: the nodes [visit_Module] creates carry no
    position attribute in this model, those it keeps have theirs. *)
Definition fix_missing_locations (m : ast.mod_) : ast.mod_ := m.

(** The [if format_str: try: ... except Exception: pass] block: the
    formatted text, or the text as it is when there is no formatter or the
    formatter raises. *)
Definition formatted (code_out : string) : string :=
  match format_str with
  | Some fmt =>
      match fmt code_out with
      | Some code_out' => code_out'
      | None => code_out
      end
  | None => code_out
  end.

Definition auto_refactor (code_str : string) : result string :=
  match ast_parse code_str with
  | inl e => raise (SyntaxError e)
  | inr module =>
      new_module <- visit_Module module ;;
      let new_module := fix_missing_locations new_module in
      let code_out := safe_unparse new_module in
      ret (formatted code_out)
  end.

End Program.

(** ** The program on the host interpreter

    The definitions above run the program on an interpreter that never runs
    out of stack, with a parser that raises nothing but [SyntaxError] and a
    serialiser that raises nothing. The host is more modest. It bounds the
    depth of nested calls: each call of a function written in Python takes a
    frame, and a call made when no frame is left raises [RecursionError].
    [ast.parse] raises other exceptions than [SyntaxError] ([ValueError] on
    a null byte, [RecursionError] on a text nested too deep), and
    [ast.unparse] raises [RecursionError] on a deep tree.

    Module [host] runs the same functions under these limits. A function
    takes as [frames] the number of nested calls the interpreter still
    allows inside its body; the handlers of the detectors, the summary texts
    and the rewrite itself are those defined above. Frames are counted for
    the nodes of the tree type: an operator or context node, which the type
    leaves out, is a leaf one level below its parent. *)

Module host.

Definition recursion_error : exn :=
  RecursionError "maximum recursion depth exceeded".

(** A call of a function written in Python, made when [frames] more nested
    calls are allowed: the body runs with one frame fewer. *)
Definition call {A : Type} (frames : nat) (body : nat -> result A) : result A :=
  match frames with
  | 0 => raise recursion_error
  | S frames' => body frames'
  end.

(** [ast.iter_fields(node)] is a generator: whenever the loop over it asks
    for the next field, its body runs in a frame of its own. *)
Definition next_field (frames : nat) : result unit :=
  call frames (fun _ => ret tt).

(** [ast.iter_child_nodes(node)] is a generator that loops over
    [ast.iter_fields(node)]. *)
Definition next_child (frames : nat) : result unit :=
  call frames next_field.

(** [node.__class__.__name__]. *)
Definition class_name (n : ast.AST) : string :=
  match n with
  | ast.of_mod (ast.Module_ _) => "Module"
  | ast.of_stmt st =>
      match st with
      | ast.FunctionDef _ _ _ _ => "FunctionDef"
      | ast.Return _ => "Return"
      | ast.Assign _ _ => "Assign"
      | ast.AugAssign _ _ _ _ => "AugAssign"
      | ast.For _ _ _ _ _ => "For"
      | ast.While _ _ _ => "While"
      | ast.If _ _ _ => "If"
      | ast.Expr _ => "Expr"
      | ast.Pass => "Pass"
      | ast.Break => "Break"
      | ast.Continue => "Continue"
      end
  | ast.of_expr e =>
      match e with
      | ast.BoolOp _ _ => "BoolOp"
      | ast.NamedExpr _ _ => "NamedExpr"
      | ast.BinOp _ _ _ => "BinOp"
      | ast.UnaryOp _ _ => "UnaryOp"
      | ast.IfExp _ _ _ => "IfExp"
      | ast.ListComp _ _ => "ListComp"
      | ast.Compare _ _ _ _ => "Compare"
      | ast.Call _ _ _ _ => "Call"
      | ast.Constant _ => "Constant"
      | ast.Attribute _ _ => "Attribute"
      | ast.Subscript _ _ => "Subscript"
      | ast.Starred _ => "Starred"
      | ast.Name _ => "Name"
      | ast.List _ => "List"
      | ast.Tuple _ => "Tuple"
      end
  | ast.of_comprehension _ => "comprehension"
  | ast.of_keyword _ => "keyword"
  end.

(** The nested function [visit] of [max_loop_nesting] up to its loop over
    the children, which run with the frames left here. *)
Definition visit (n : ast.AST) (i : nat * nat) (max_depth : nat)
  : result ((nat * nat) * nat) :=
  let '(frames, depth) := i in
  call frames (fun frames =>
    '(depth, max_depth) <- enter_loop n depth max_depth ;;
    _ <- next_child frames ;;
    ret ((frames, depth), max_depth)).

Definition max_loop_nesting (frames : nat) (node : ast.AST) : result nat :=
  let max_depth := 0 in
  traverse visit node (frames, 0) max_depth.

(** [NodeVisitor.visit] for a class whose one method is called [method]:
    [visit] looks the method up under the name ["visit_"] followed by the
    node's class name and calls it, or calls [generic_visit] when the class
    has none of that name; the method ends in [self.generic_visit(node)],
    which loops over [ast.iter_fields(node)] and calls [visit] on each
    child. *)
Definition NodeVisitor_visit {R : Type} (method : string)
  (visit_node : ast.AST -> R -> result R)
  (frames : nat) (node : ast.AST) (results : R) : result R :=
  traverse
    (fun n frames r =>
       call frames (fun frames =>
         if String.eqb ("visit_" ++ class_name n) method then
           call frames (fun frames =>
             r' <- visit_node n r ;;
             call frames (fun frames =>
               _ <- next_field frames ;;
               ret (frames, r')))
         else
           call frames (fun frames =>
             _ <- next_field frames ;;
             ret (frames, r))))
    node frames results.

Definition find_string_concat_in_loops (frames : nat) (module : ast.mod_)
  : result (list (nat * string)) :=
  NodeVisitor_visit "visit_AugAssign"
    find_string_concat_in_loops.visit_AugAssign frames (ast.of_mod module) [].

Definition find_list_append_patterns (frames : nat) (module : ast.mod_)
  : result (list (nat * string)) :=
  NodeVisitor_visit "visit_Call"
    find_list_append_patterns.visit_Call frames (ast.of_mod module) [].

Definition find_range_len_patterns (frames : nat) (module : ast.mod_)
  : result (list (nat * string)) :=
  NodeVisitor_visit "visit_For"
    find_range_len_patterns.visit_For frames (ast.of_mod module) [].

Definition find_sorted_in_loops (frames : nat) (module : ast.mod_)
  : result (list nat) :=
  NodeVisitor_visit "visit_Call"
    find_sorted_in_loops.visit_Call frames (ast.of_mod module) [].

Definition detect_membership_of_list_in_loops (frames : nat)
  (module : ast.mod_) : result (list (nat * string)) :=
  NodeVisitor_visit "visit_Compare"
    detect_membership_of_list_in_loops.visit_Compare frames
    (ast.of_mod module) [].

Definition estimate_time_complexity (frames : nat) (module : ast.mod_)
  : result (string * value) :=
  max_loops <-
    call frames (fun frames => max_loop_nesting frames (ast.of_mod module)) ;;
  sort_lines <-
    call frames (fun frames => find_sorted_in_loops frames module) ;;
  let time_est := time_est_text max_loops sort_lines in
  ret (time_est,
       VDict [("max_loop_nesting", VInt max_loops);
              ("sort_calls", VList (map VInt sort_lines))]).

Definition estimate_space_complexity (frames : nat) (module : ast.mod_)
  : result (string * value) :=
  let comp_count := 0 in
  appends <-
    call frames (fun frames => find_list_append_patterns frames module) ;;
  comp_count <-
    NodeVisitor_visit "visit_ListComp" visit_ListComp frames
      (ast.of_mod module) comp_count ;;
  let space_est := space_est_text comp_count appends in
  ret (space_est,
       VDict [("list_comprehensions", VInt comp_count);
              ("list_appends", VList (map tuple_int_str appends))]).

Section Program.

(** [ast_parse] is [ast.parse]: a tree or the exception it raises.
    [ast_unparse] is [ast.unparse]. [astor_to_source] is [astor.to_source],
    or [None] when the package cannot be imported. *)
Variable ast_parse : string -> result ast.mod_.
Variable ast_unparse : ast.mod_ -> result string.
Variable astor_to_source : option (ast.mod_ -> result string).
Variable format_str : option (string -> option string).

(** [try: return ast.unparse(node)], and on any exception
    [import astor; return astor.to_source(node)]. *)
Definition safe_unparse (node : ast.mod_) : result string :=
  match ast_unparse node with
  | inr text => ret text
  | inl _ =>
      match astor_to_source with
      | Some to_source => to_source node
      | None => raise (ModuleNotFoundError "No module named 'astor'")
      end
  end.

(** [except SyntaxError as e] catches that exception and no other. *)
Definition analyze_code (frames : nat) (code_str : string) : result value :=
  match ast_parse code_str with
  | inl (SyntaxError e) =>
      ret (VDict [("ok", VBool false); ("parse_error", VStr e)])
  | inl e => raise e
  | inr module =>
      let result_ := [("ok", VBool true); ("detections", VList [])] in
      '(time_est, time_details) <-
        call frames (fun frames => estimate_time_complexity frames module) ;;
      '(space_est, space_details) <-
        call frames (fun frames => estimate_space_complexity frames module) ;;
      let result_ := dict_set result_ "time_estimate" (VStr time_est) in
      let result_ := dict_set result_ "time_details" time_details in
      let result_ := dict_set result_ "space_estimate" (VStr space_est) in
      let result_ := dict_set result_ "space_details" space_details in
      concats <-
        call frames (fun frames => find_string_concat_in_loops frames module) ;;
      result_ <- append_detections string_concat_detection concats result_ ;;
      appends <-
        call frames (fun frames => find_list_append_patterns frames module) ;;
      result_ <- append_detections list_append_detection appends result_ ;;
      range_lens <-
        call frames (fun frames => find_range_len_patterns frames module) ;;
      result_ <- append_detections range_len_detection range_lens result_ ;;
      memberships <-
        call frames
          (fun frames => detect_membership_of_list_in_loops frames module) ;;
      result_ <- append_detections membership_detection memberships result_ ;;
      sorts <- call frames (fun frames => find_sorted_in_loops frames module) ;;
      result_ <- append_detections sort_detection sorts result_ ;;
      ret (VDict result_)
  end.

(** [Transformer().visit(module)]: [visit] looks up [visit_Module] and
    calls it. *)
Definition Transformer_visit (frames : nat) (module : ast.mod_)
  : result ast.mod_ :=
  call frames (fun frames => call frames (fun _ => visit_Module module)).

(** [ast.fix_missing_locations(node)]: its nested function [_fix] calls
    itself on every child of the node, and the node comes back as it was
    (see [fix_missing_locations] above). *)
Definition fix_missing_locations (frames : nat) (node : ast.mod_)
  : result ast.mod_ :=
  let _fix :=
    traverse (fun (_ : ast.AST) frames (_ : unit) =>
                call frames (fun frames =>
                  _ <- next_child frames ;;
                  ret (frames, tt))) in
  _ <- _fix (ast.of_mod node) frames tt ;;
  ret node.

Definition auto_refactor (frames : nat) (code_str : string) : result string :=
  module <- ast_parse code_str ;;
  new_module <- Transformer_visit frames module ;;
  new_module <-
    call frames (fun frames => fix_missing_locations frames new_module) ;;
  code_out <- call frames (fun _ => safe_unparse new_module) ;;
  ret (formatted format_str code_out).

End Program.

End host.

(** ** The canonical example of the application

    The tree of [default_example] of [app.py], with its line numbers. *)

Definition default_example_tree : ast.mod_ :=
  ast.Module_
    [ast.Assign [ast.Name "result"] (ast.List []);
     ast.For 2 (ast.Name "x") (ast.Name "items")
       [ast.Expr (ast.Call 3 (ast.Attribute (ast.Name "result") "append")
                    [ast.Call 3 (ast.Name "f") [ast.Name "x"] []] [])] [];
     ast.Assign [ast.Name "s"] (ast.Constant (ast.CStr ""));
     ast.For 6 (ast.Name "x") (ast.Name "words")
       [ast.AugAssign 7 (ast.Name "s") ast.Add (ast.Name "x")] [];
     ast.For 9 (ast.Name "i")
       (ast.Call 9 (ast.Name "range")
          [ast.Call 9 (ast.Name "len") [ast.Name "arr"] []] [])
       [ast.Expr (ast.Call 10 (ast.Name "print")
                    [ast.Subscript (ast.Name "arr") (ast.Name "i")] [])] []].


(** ** The application's two buttons

    The bodies of [if st.button("Analyze Code"):] and
    [if st.button("Auto-Refactor"):], run on the host. A call of the
    display library is recorded in the list of calls made so far; the calls
    made before an exception is raised stay made. [frames] is the number of
    nested calls the host still allows inside [analyze_code] and
    [auto_refactor] when a button runs them. [format_exc] is
    [traceback.format_exc()] for the exception being handled, and
    [str_container] is [str] on lists, tuples and dictionaries. *)

(** What [except Exception] can catch here: an exception of the analysis
    and rewrite engine, or a [TypeError] of an operation on a value. *)
Inductive py_exception : Type :=
| Raised (e : exn)
| TypeError.

Inductive st_call : Type :=
| st_error (body : string)
| st_text (body : string)
| st_subheader (body : string)
| st_write (args : list value)
| st_json (body : value)
| st_markdown (body : string)
| st_info (body : string)
| st_code (body : string) (language : string)
| st_download_button (label : string) (data : string) (file_name : string).

(** A computation that makes display calls and may raise. *)
Definition ui (A : Type) : Type :=
  list st_call -> list st_call * (py_exception + A).

#[local] Instance Monad_ui : Monad ui :=
  {| ret := fun _ a calls => (calls, inr a);
     bind := fun _ _ c k calls =>
               match c calls with
               | (calls', inl e) => (calls', inl e)
               | (calls', inr a) => k a calls'
               end |}.

Definition st (call : st_call) : ui unit :=
  fun calls => (calls ++ [call], inr tt).

Definition eval {A : Type} (r : py_exception + A) : ui A :=
  fun calls => (calls, r).

Definition of_result {A : Type} (r : result A) : py_exception + A :=
  match r with
  | inl e => inl (Raised e)
  | inr a => inr a
  end.

(** [try: body except Exception: handler]. *)
Definition try_except (body : ui unit) (handler : py_exception -> ui unit)
  : ui unit :=
  fun calls =>
    match body calls with
    | (calls', inl e) => handler e calls'
    | (calls', inr tt) => (calls', inr tt)
    end.

(** [for x in xs: body(x)]. *)
Fixpoint ui_for {A : Type} (body : A -> ui unit) (xs : list A) : ui unit :=
  match xs with
  | [] => ret tt
  | x :: xs' => body x ;; ui_for body xs'
  end.

Definition type_name (v : value) : string :=
  match v with
  | VBool _ => "bool"
  | VInt _ => "int"
  | VStr _ => "str"
  | VList _ => "list"
  | VTuple _ => "tuple"
  | VDict _ => "dict"
  end.

(** Truth value: [if v:]. *)
Definition truth (v : value) : bool :=
  match v with
  | VBool b => b
  | VInt n => negb (n =? 0)%nat
  | VStr s => negb (String.eqb s "")
  | VList xs => truthy xs
  | VTuple xs => truthy xs
  | VDict items => truthy items
  end.

(** [v[key]] with a string key. *)
Definition subscript (v : value) (key : string) : py_exception + value :=
  match v with
  | VDict items => of_result (dict_get items key)
  | _ => inl TypeError
  end.

(** [v.get(key, default)]. *)
Definition get_default (v : value) (key : string) (default : value)
  : py_exception + value :=
  match v with
  | VDict items =>
      match dict_get items key with
      | inr x => inr x
      | inl _ => inr default
      end
  | _ => inl (Raised (AttributeError
                        ("'" ++ type_name v
                             ++ "' object has no attribute 'get'")%string))
  end.

(** [s + v] for a string [s]. *)
Definition str_add (s : string) (v : value) : py_exception + string :=
  match v with
  | VStr t => inr (s ++ t)%string
  | _ => inl TypeError
  end.

Fixpoint chars (s : string) : list value :=
  match s with
  | EmptyString => []
  | String c s' => VStr (String c EmptyString) :: chars s'
  end.

(** The items a [for] loop over [v] goes through. *)
Definition iter_value (v : value) : py_exception + list value :=
  match v with
  | VList xs => inr xs
  | VTuple xs => inr xs
  | VDict items => inr (map (fun item => VStr (fst item)) items)
  | VStr s => inr (chars s)
  | VBool _ | VInt _ => inl TypeError
  end.

(** The line shown for one finding. *)
Definition finding_line (type_ lineno suggestion : string) : string :=
  ("- **" ++ type_ ++ "** (line " ++ lineno ++ "): " ++ suggestion)%string.

Section App.

Variable ast_parse : string -> result ast.mod_.
Variable ast_unparse : ast.mod_ -> result string.
Variable astor_to_source : option (ast.mod_ -> result string).
Variable format_str : option (string -> option string).
Variable frames : nat.
Variable format_exc : py_exception -> string.
Variable str_container : value -> string.

(** A value inside an f-string: [format(v, "")]. *)
Definition py_str (v : value) : string :=
  match v with
  | VStr s => s
  | VInt n => str_int n
  | VBool true => "True"
  | VBool false => "False"
  | _ => str_container v
  end.

Definition show_finding (d : value) : ui unit :=
  type_ <- eval (subscript d "type") ;;
  lineno <- eval (subscript d "lineno") ;;
  suggestion <- eval (subscript d "suggestion") ;;
  st (st_markdown
        (finding_line (py_str type_) (py_str lineno) (py_str suggestion))).

Definition on_analyze (code : string) : ui unit :=
  try_except
    (analysis <- eval (of_result (host.analyze_code ast_parse frames code)) ;;
     ok <- eval (subscript analysis "ok") ;;
     if negb (truth ok) then
       parse_error <- eval (get_default analysis "parse_error" (VStr "")) ;;
       message <- eval (str_add "Parse error: " parse_error) ;;
       st (st_error message)
     else
       st (st_subheader "Complexity Estimates") ;;
       time_estimate <- eval (subscript analysis "time_estimate") ;;
       st (st_write [VStr "**Time:**"; time_estimate]) ;;
       time_details <- eval (subscript analysis "time_details") ;;
       st (st_json time_details) ;;
       space_estimate <- eval (subscript analysis "space_estimate") ;;
       st (st_write [VStr "**Space:**"; space_estimate]) ;;
       space_details <- eval (subscript analysis "space_details") ;;
       st (st_json space_details) ;;
       st (st_subheader "Detections & Suggestions") ;;
       detections <- eval (subscript analysis "detections") ;;
       if truth detections then
         detections <- eval (subscript analysis "detections") ;;
         ds <- eval (iter_value detections) ;;
         ui_for show_finding ds
       else st (st_info "No issues detected."))
    (fun e =>
       st (st_error "Analysis failed") ;;
       st (st_text (format_exc e))).

Definition on_refactor (code : string) : ui unit :=
  try_except
    (new_code <-
       eval (of_result
               (host.auto_refactor ast_parse ast_unparse astor_to_source
                                   format_str frames code)) ;;
     st (st_subheader "Refactored Code") ;;
     st (st_code new_code "python") ;;
     st (st_download_button "Download Refactored Code" new_code
                            "refactored_code.py"))
    (fun e =>
       st (st_error "Refactor failed") ;;
       st (st_text (format_exc e))).

End App.

(** The display calls of a handler run on an empty page. *)
Definition calls_of (handler : ui unit) : list st_call := fst (handler []).

(** A finding of the report and the call that shows it. *)
Definition shown_as (d : value) (call : st_call) : Prop :=
  exists fields type_ lineno suggestion,
    d = VDict fields
    /\ dict_get fields "type" = inr (VStr type_)
    /\ dict_get fields "lineno" = inr (VInt lineno)
    /\ dict_get fields "suggestion" = inr (VStr suggestion)
    /\ call = st_markdown (finding_line type_ (str_int lineno) suggestion).

(** ** Specification-level notions *)

(** The nodes of a tree in document order: a node, then the nodes of each
    child in turn. This is the order in which a visitor reaches them. *)
Fixpoint preorder_expr (e : ast.expr) : list ast.AST :=
  ast.of_expr e ::
  match e with
  | ast.BoolOp _ values => flat_map preorder_expr values
  | ast.NamedExpr target value => preorder_expr target ++ preorder_expr value
  | ast.BinOp lhs _ rhs => preorder_expr lhs ++ preorder_expr rhs
  | ast.UnaryOp _ operand => preorder_expr operand
  | ast.IfExp test body orelse =>
      preorder_expr test ++ preorder_expr body ++ preorder_expr orelse
  | ast.ListComp elt generators =>
      preorder_expr elt ++ flat_map preorder_comprehension generators
  | ast.Compare _ lhs _ comparators =>
      preorder_expr lhs ++ flat_map preorder_expr comparators
  | ast.Call _ func args keywords =>
      preorder_expr func ++ flat_map preorder_expr args
        ++ flat_map preorder_keyword keywords
  | ast.Constant _ => []
  | ast.Attribute value _ => preorder_expr value
  | ast.Subscript value slice => preorder_expr value ++ preorder_expr slice
  | ast.Starred value => preorder_expr value
  | ast.Name _ => []
  | ast.List elts => flat_map preorder_expr elts
  | ast.Tuple elts => flat_map preorder_expr elts
  end
with preorder_comprehension (c : ast.comprehension_node) : list ast.AST :=
  ast.of_comprehension c ::
  match c with
  | ast.comprehension target iter ifs _ =>
      preorder_expr target ++ preorder_expr iter ++ flat_map preorder_expr ifs
  end
with preorder_keyword (k : ast.keyword_node) : list ast.AST :=
  ast.of_keyword k ::
  match k with
  | ast.keyword _ value => preorder_expr value
  end.

Fixpoint preorder_stmt (st : ast.stmt) : list ast.AST :=
  ast.of_stmt st ::
  match st with
  | ast.FunctionDef _ _ body decorator_list =>
      flat_map preorder_stmt body ++ flat_map preorder_expr decorator_list
  | ast.Return None => []
  | ast.Return (Some value) => preorder_expr value
  | ast.Assign targets value =>
      flat_map preorder_expr targets ++ preorder_expr value
  | ast.AugAssign _ target _ value =>
      preorder_expr target ++ preorder_expr value
  | ast.For _ target iter body orelse =>
      preorder_expr target ++ preorder_expr iter
        ++ flat_map preorder_stmt body ++ flat_map preorder_stmt orelse
  | ast.While test body orelse =>
      preorder_expr test ++ flat_map preorder_stmt body
        ++ flat_map preorder_stmt orelse
  | ast.If test body orelse =>
      preorder_expr test ++ flat_map preorder_stmt body
        ++ flat_map preorder_stmt orelse
  | ast.Expr value => preorder_expr value
  | ast.Pass | ast.Break | ast.Continue => []
  end.

Definition preorder (n : ast.AST) : list ast.AST :=
  match n with
  | ast.of_mod (ast.Module_ body) => n :: flat_map preorder_stmt body
  | ast.of_stmt st => preorder_stmt st
  | ast.of_expr e => preorder_expr e
  | ast.of_comprehension c => preorder_comprehension c
  | ast.of_keyword k => preorder_keyword k
  end.

(** The depth of lexically nested [for] and [while] loops: a loop counts one
    more than the deepest loop among the statements it holds. *)
Fixpoint loop_depth_stmt (st : ast.stmt) : nat :=
  match st with
  | ast.For _ _ _ body orelse =>
      1 + Nat.max (list_max (map loop_depth_stmt body))
                  (list_max (map loop_depth_stmt orelse))
  | ast.While _ body orelse =>
      1 + Nat.max (list_max (map loop_depth_stmt body))
                  (list_max (map loop_depth_stmt orelse))
  | ast.If _ body orelse =>
      Nat.max (list_max (map loop_depth_stmt body))
              (list_max (map loop_depth_stmt orelse))
  | ast.FunctionDef _ _ body _ => list_max (map loop_depth_stmt body)
  | _ => 0
  end.

Definition loop_depth (n : ast.AST) : nat :=
  match n with
  | ast.of_mod (ast.Module_ body) => list_max (map loop_depth_stmt body)
  | ast.of_stmt st => loop_depth_stmt st
  | _ => 0
  end.

(** The frames a walk of a tree takes on the host, for a walk that holds
    [cost n] frames while it is at the node [n] or below it, and needs
    [spare n] more for a moment while it is at [n]: the most over the paths
    from the root. *)
Section Weight.

Variables cost spare : ast.AST -> nat.

Fixpoint weight_expr (e : ast.expr) : nat :=
  cost (ast.of_expr e)
  + Nat.max (spare (ast.of_expr e))
      match e with
      | ast.BoolOp _ values => list_max (map weight_expr values)
      | ast.NamedExpr target value =>
          Nat.max (weight_expr target) (weight_expr value)
      | ast.BinOp lhs _ rhs => Nat.max (weight_expr lhs) (weight_expr rhs)
      | ast.UnaryOp _ operand => weight_expr operand
      | ast.IfExp test body orelse =>
          Nat.max (weight_expr test)
                  (Nat.max (weight_expr body) (weight_expr orelse))
      | ast.ListComp elt generators =>
          Nat.max (weight_expr elt)
                  (list_max (map weight_comprehension generators))
      | ast.Compare _ lhs _ comparators =>
          Nat.max (weight_expr lhs) (list_max (map weight_expr comparators))
      | ast.Call _ func args keywords =>
          Nat.max (weight_expr func)
                  (Nat.max (list_max (map weight_expr args))
                           (list_max (map weight_keyword keywords)))
      | ast.Constant _ => 0
      | ast.Attribute value _ => weight_expr value
      | ast.Subscript value slice =>
          Nat.max (weight_expr value) (weight_expr slice)
      | ast.Starred value => weight_expr value
      | ast.Name _ => 0
      | ast.List elts => list_max (map weight_expr elts)
      | ast.Tuple elts => list_max (map weight_expr elts)
      end
with weight_comprehension (c : ast.comprehension_node) : nat :=
  cost (ast.of_comprehension c)
  + Nat.max (spare (ast.of_comprehension c))
      match c with
      | ast.comprehension target iter ifs _ =>
          Nat.max (weight_expr target)
                  (Nat.max (weight_expr iter) (list_max (map weight_expr ifs)))
      end
with weight_keyword (k : ast.keyword_node) : nat :=
  cost (ast.of_keyword k)
  + Nat.max (spare (ast.of_keyword k))
      match k with
      | ast.keyword _ value => weight_expr value
      end.

Fixpoint weight_stmt (st : ast.stmt) : nat :=
  cost (ast.of_stmt st)
  + Nat.max (spare (ast.of_stmt st))
      match st with
      | ast.FunctionDef _ _ body decorator_list =>
          Nat.max (list_max (map weight_stmt body))
                  (list_max (map weight_expr decorator_list))
      | ast.Return None => 0
      | ast.Return (Some value) => weight_expr value
      | ast.Assign targets value =>
          Nat.max (list_max (map weight_expr targets)) (weight_expr value)
      | ast.AugAssign _ target _ value =>
          Nat.max (weight_expr target) (weight_expr value)
      | ast.For _ target iter body orelse =>
          Nat.max (weight_expr target)
            (Nat.max (weight_expr iter)
               (Nat.max (list_max (map weight_stmt body))
                        (list_max (map weight_stmt orelse))))
      | ast.While test body orelse =>
          Nat.max (weight_expr test)
            (Nat.max (list_max (map weight_stmt body))
                     (list_max (map weight_stmt orelse)))
      | ast.If test body orelse =>
          Nat.max (weight_expr test)
            (Nat.max (list_max (map weight_stmt body))
                     (list_max (map weight_stmt orelse)))
      | ast.Expr value => weight_expr value
      | ast.Pass | ast.Break | ast.Continue => 0
      end.

Definition weight (n : ast.AST) : nat :=
  match n with
  | ast.of_mod (ast.Module_ body) =>
      cost n + Nat.max (spare n) (list_max (map weight_stmt body))
  | ast.of_stmt st => weight_stmt st
  | ast.of_expr e => weight_expr e
  | ast.of_comprehension c => weight_comprehension c
  | ast.of_keyword k => weight_keyword k
  end.

End Weight.

(** The height of a tree: the number of nodes on its longest path from the
    root to a leaf. *)
Definition height : ast.AST -> nat := weight (fun _ => 1) (fun _ => 0).

(** The frames the walk of [max_loop_nesting] takes: one for [visit] at each
    node on the path, and two more while [ast.iter_child_nodes] runs. *)
Definition visit_frames : ast.AST -> nat := weight (fun _ => 1) (fun _ => 2).

(** The frames the walk of a visitor takes whose class has the one method
    [method]: at each node on the path one for [visit], one for
    [generic_visit] and one for the method where the node is of its class,
    and one more while [ast.iter_fields] runs. *)
Definition method_frames (method : string) (n : ast.AST) : nat :=
  if String.eqb ("visit_" ++ host.class_name n) method then 3 else 2.

Definition visitor_frames (method : string) : ast.AST -> nat :=
  weight (method_frames method) (fun _ => 1).

(** The frames [analyze_code] takes on a tree: the most over its walks,
    each with the calls that lead to it. *)
Definition analyze_frames (m : ast.mod_) : nat :=
  let n := ast.of_mod m in
  list_max [height n + 4;
            visitor_frames "visit_Call" n + 2;
            visitor_frames "visit_ListComp" n + 1;
            visitor_frames "visit_AugAssign" n + 1;
            visitor_frames "visit_For" n + 1;
            visitor_frames "visit_Compare" n + 1].

(** A loop header: what a [for] or a [while] has besides its body. *)
Inductive loop_head : Type :=
| for_head (lineno : nat) (target iter : ast.expr)
| while_head (test : ast.expr).

(** The program made of the loops of [heads] nested in one another, the
    first outermost, and nothing else: the innermost body is [pass]. *)
Fixpoint nested_loops (heads : list loop_head) : list ast.stmt :=
  match heads with
  | [] => [ast.Pass]
  | for_head lineno target iter :: heads' =>
      [ast.For lineno target iter (nested_loops heads') []]
  | while_head test :: heads' => [ast.While test (nested_loops heads') []]
  end.

(** [sub in s] on strings. *)
Definition Contains (sub s : string) : Prop :=
  exists before after : string, s = (before ++ sub ++ after)%string.

(** What each detector reports at one node. *)
Definition string_concat_at (n : ast.AST) : list (nat * string) :=
  match n with
  | ast.of_stmt (ast.AugAssign lineno (ast.Name id) ast.Add _) => [(lineno, id)]
  | _ => []
  end.

Definition list_append_at (n : ast.AST) : list (nat * string) :=
  match n with
  | ast.of_expr (ast.Call lineno (ast.Attribute (ast.Name id) attr) _ _) =>
      if String.eqb attr "append" then [(lineno, id)] else []
  | _ => []
  end.

Definition range_len_at (n : ast.AST) : list (nat * string) :=
  match n with
  | ast.of_stmt
      (ast.For lineno _
         (ast.Call _ (ast.Name f)
            (ast.Call _ (ast.Name g) (ast.Name id :: _) _ :: _) _) _ _) =>
      if String.eqb f "range" && String.eqb g "len" then [(lineno, id)] else []
  | _ => []
  end.

Definition is_sort_call (func : ast.expr) : bool :=
  match func with
  | ast.Name id => String.eqb id "sorted"
  | ast.Attribute _ attr => String.eqb attr "sort"
  | _ => false
  end.

Definition sort_call_at (n : ast.AST) : list nat :=
  match n with
  | ast.of_expr (ast.Call lineno func _ _) =>
      if is_sort_call func then [lineno] else []
  | _ => []
  end.

(** The number of [in] operators of a comparison chain. *)
Fixpoint count_In (ops : list ast.cmpop) : nat :=
  match ops with
  | [] => 0
  | ast.In :: ops' => S (count_In ops')
  | _ :: ops' => count_In ops'
  end.

Definition membership_at (n : ast.AST) : list (nat * string) :=
  match n with
  | ast.of_expr (ast.Compare lineno _ ops (ast.Name id :: _)) =>
      repeat (lineno, id) (count_In ops)
  | _ => []
  end.

Definition list_comp_at (n : ast.AST) : nat :=
  match n with
  | ast.of_expr (ast.ListComp _ _) => 1
  | _ => 0
  end.

(** The findings of each detector over a whole module, in document
    order. *)
Definition concat_sites (m : ast.mod_) : list (nat * string) :=
  flat_map string_concat_at (preorder (ast.of_mod m)).

Definition append_sites (m : ast.mod_) : list (nat * string) :=
  flat_map list_append_at (preorder (ast.of_mod m)).

Definition range_len_sites (m : ast.mod_) : list (nat * string) :=
  flat_map range_len_at (preorder (ast.of_mod m)).

Definition membership_sites (m : ast.mod_) : list (nat * string) :=
  flat_map membership_at (preorder (ast.of_mod m)).

Definition sort_lines (m : ast.mod_) : list nat :=
  flat_map sort_call_at (preorder (ast.of_mod m)).

Definition list_comp_count (m : ast.mod_) : nat :=
  fold_left Nat.add (map list_comp_at (preorder (ast.of_mod m))) 0.

(** The six entries of a successful report, in insertion order. *)
Definition report_fields (detections : list value) (time_est : string)
  (time_details : value) (space_est : string) (space_details : value)
  : list (string * value) :=
  [("ok", VBool true);
   ("detections", VList detections);
   ("time_estimate", VStr time_est);
   ("time_details", time_details);
   ("space_estimate", VStr space_est);
   ("space_details", space_details)].

(** The report of a module that parsed. *)
Definition report_of (m : ast.mod_) : list (string * value) :=
  report_fields
    (map string_concat_detection (concat_sites m)
     ++ map list_append_detection (append_sites m)
     ++ map range_len_detection (range_len_sites m)
     ++ map membership_detection (membership_sites m)
     ++ map sort_detection (sort_lines m))
    (time_est_text (loop_depth (ast.of_mod m)) (sort_lines m))
    (VDict [("max_loop_nesting", VInt (loop_depth (ast.of_mod m)));
            ("sort_calls", VList (map VInt (sort_lines m)))])
    (space_est_text (list_comp_count m) (append_sites m))
    (VDict [("list_comprehensions", VInt (list_comp_count m));
            ("list_appends", VList (map tuple_int_str (append_sites m)))]).

(** How a visit of a subtree at [depth] moves [max_depth] when the subtree
    nests [k] loops. *)
Definition deepen (depth max_depth k : nat) : nat :=
  if (k =? 0)%nat then max_depth else Nat.max max_depth (depth + k).

(** A statement [V = [E for ... in ...]]. *)
Definition is_comp_assign (st : ast.stmt) : Prop :=
  exists varname elt generators,
    st = ast.Assign [ast.Name varname] (ast.ListComp elt generators).

(** The statement [visit_Module] builds from [V = []] and the loop
    [for target in iter: V.append(elt, ...)]. *)
Definition comp_assign (varname : string) (elt target iter : ast.expr)
  : ast.stmt :=
  ast.Assign [ast.Name varname]
    (ast.ListComp elt [ast.comprehension target iter [] 0]).

(** The same tree with every line number cleared: two texts that differ in
    layout only parse to trees with the same image. *)
Fixpoint strip_expr (e : ast.expr) : ast.expr :=
  match e with
  | ast.BoolOp op values => ast.BoolOp op (map strip_expr values)
  | ast.NamedExpr target value =>
      ast.NamedExpr (strip_expr target) (strip_expr value)
  | ast.BinOp lhs op rhs => ast.BinOp (strip_expr lhs) op (strip_expr rhs)
  | ast.UnaryOp op operand => ast.UnaryOp op (strip_expr operand)
  | ast.IfExp test body orelse =>
      ast.IfExp (strip_expr test) (strip_expr body) (strip_expr orelse)
  | ast.ListComp elt generators =>
      ast.ListComp (strip_expr elt) (map strip_comprehension generators)
  | ast.Compare _ lhs ops comparators =>
      ast.Compare 0 (strip_expr lhs) ops (map strip_expr comparators)
  | ast.Call _ func args keywords =>
      ast.Call 0 (strip_expr func) (map strip_expr args)
               (map strip_keyword keywords)
  | ast.Constant value => ast.Constant value
  | ast.Attribute value attr => ast.Attribute (strip_expr value) attr
  | ast.Subscript value slice =>
      ast.Subscript (strip_expr value) (strip_expr slice)
  | ast.Starred value => ast.Starred (strip_expr value)
  | ast.Name id => ast.Name id
  | ast.List elts => ast.List (map strip_expr elts)
  | ast.Tuple elts => ast.Tuple (map strip_expr elts)
  end
with strip_comprehension (c : ast.comprehension_node) : ast.comprehension_node :=
  match c with
  | ast.comprehension target iter ifs is_async =>
      ast.comprehension (strip_expr target) (strip_expr iter)
                        (map strip_expr ifs) is_async
  end
with strip_keyword (k : ast.keyword_node) : ast.keyword_node :=
  match k with
  | ast.keyword arg value => ast.keyword arg (strip_expr value)
  end.

Fixpoint strip_stmt (st : ast.stmt) : ast.stmt :=
  match st with
  | ast.FunctionDef name args body decorator_list =>
      ast.FunctionDef name args (map strip_stmt body)
                      (map strip_expr decorator_list)
  | ast.Return value => ast.Return (option_map strip_expr value)
  | ast.Assign targets value =>
      ast.Assign (map strip_expr targets) (strip_expr value)
  | ast.AugAssign _ target op value =>
      ast.AugAssign 0 (strip_expr target) op (strip_expr value)
  | ast.For _ target iter body orelse =>
      ast.For 0 (strip_expr target) (strip_expr iter) (map strip_stmt body)
              (map strip_stmt orelse)
  | ast.While test body orelse =>
      ast.While (strip_expr test) (map strip_stmt body) (map strip_stmt orelse)
  | ast.If test body orelse =>
      ast.If (strip_expr test) (map strip_stmt body) (map strip_stmt orelse)
  | ast.Expr value => ast.Expr (strip_expr value)
  | ast.Pass => ast.Pass
  | ast.Break => ast.Break
  | ast.Continue => ast.Continue
  end.

Definition strip_mod (m : ast.mod_) : ast.mod_ :=
  match m with
  | ast.Module_ body => ast.Module_ (map strip_stmt body)
  end.

Definition is_For (st : ast.stmt) : bool :=
  match st with
  | ast.For _ _ _ _ _ => true
  | _ => false
  end.

(** The two statement forms the rewrite may consume. *)
Definition is_empty_list_assign (st : ast.stmt) : Prop :=
  exists varname, st = ast.Assign [ast.Name varname] (ast.List []).

Definition is_append_loop (st : ast.stmt) : Prop :=
  exists lineno target iter lineno' varname args keywords orelse,
    st = ast.For lineno target iter
           [ast.Expr (ast.Call lineno'
                        (ast.Attribute (ast.Name varname) "append")
                        args keywords)] orelse.

(** A call of [sorted] or of a method named [sort]. *)
Definition is_sort_call_node (n : ast.AST) : bool :=
  match n with
  | ast.of_expr (ast.Call _ (ast.Name id) _ _) => String.eqb id "sorted"
  | ast.of_expr (ast.Call _ (ast.Attribute _ attr) _ _) =>
      String.eqb attr "sort"
  | _ => false
  end.

Definition isinstance_ListComp (n : ast.AST) : bool :=
  match n with
  | ast.of_expr (ast.ListComp _ _) => true
  | _ => false
  end.

(** The findings of a report, in the order [analyze_code] appends them. *)
Definition report_detections (m : ast.mod_) : list value :=
  map string_concat_detection (concat_sites m)
  ++ map list_append_detection (append_sites m)
  ++ map range_len_detection (range_len_sites m)
  ++ map membership_detection (membership_sites m)
  ++ map sort_detection (sort_lines m).

(** A dictionary with the three entries every finding has. *)
Definition is_finding (d : value) : Prop :=
  exists fields type_ lineno suggestion,
    d = VDict fields
    /\ dict_get fields "type" = inr (VStr type_)
    /\ dict_get fields "lineno" = inr (VInt lineno)
    /\ dict_get fields "suggestion" = inr (VStr suggestion)
    /\ In type_ ["string_concat_in_loop"; "list_append"; "range_len";
                 "membership_test"; "sort_in_loop"]%string.

(** ** Stand-ins for the external services

    A parser that knows a few source texts by heart and rejects every other
    text, and a serialiser with two outputs. They let the theorems about
    [analyze_code] and [auto_refactor] be run on concrete texts. *)

Definition idiom_src : string :=
"result = []
for x in items:
    result.append(f(x))
".

Definition idiom_tree : ast.mod_ :=
  ast.Module_
    [ast.Assign [ast.Name "result"] (ast.List []);
     ast.For 2 (ast.Name "x") (ast.Name "items")
       [ast.Expr (ast.Call 3 (ast.Attribute (ast.Name "result") "append")
                    [ast.Call 3 (ast.Name "f") [ast.Name "x"] []] [])] []].

Definition comprehension_src : string :=
"result = [f(x) for x in items]
".

Definition comprehension_tree : ast.mod_ :=
  ast.Module_
    [ast.Assign [ast.Name "result"]
       (ast.ListComp (ast.Call 1 (ast.Name "f") [ast.Name "x"] [])
          [ast.comprehension (ast.Name "x") (ast.Name "items") [] 0])].

Definition two_args_src : string :=
"r = []
for x in xs:
    r.append(x, y)
".

Definition two_args_tree : ast.mod_ :=
  ast.Module_
    [ast.Assign [ast.Name "r"] (ast.List []);
     ast.For 2 (ast.Name "x") (ast.Name "xs")
       [ast.Expr (ast.Call 3 (ast.Attribute (ast.Name "r") "append")
                    [ast.Name "x"; ast.Name "y"] [])] []].

Definition empty_append_src : string :=
"x = []
for i in y:
    x.append()
".

Definition empty_append_tree : ast.mod_ :=
  ast.Module_
    [ast.Assign [ast.Name "x"] (ast.List []);
     ast.For 2 (ast.Name "i") (ast.Name "y")
       [ast.Expr (ast.Call 3 (ast.Attribute (ast.Name "x") "append") [] [])]
       []].

Definition for_else_src : string :=
"a = []
for x in xs:
    a.append(x)
else:
    b = []
    for y in ys:
        b.append(y)
".

Definition for_else_tree : ast.mod_ :=
  ast.Module_
    [ast.Assign [ast.Name "a"] (ast.List []);
     ast.For 2 (ast.Name "x") (ast.Name "xs")
       [ast.Expr (ast.Call 3 (ast.Attribute (ast.Name "a") "append")
                    [ast.Name "x"] [])]
       [ast.Assign [ast.Name "b"] (ast.List []);
        ast.For 6 (ast.Name "y") (ast.Name "ys")
          [ast.Expr (ast.Call 7 (ast.Attribute (ast.Name "b") "append")
                       [ast.Name "y"] [])] []]].

Definition nested_src : string :=
"for i in a:
    while b:
        pass
".

Definition nested_tree : ast.mod_ :=
  ast.Module_
    (nested_loops [for_head 1 (ast.Name "i") (ast.Name "a");
                   while_head (ast.Name "b")]).

Definition sorts_src : string :=
"xs.sort()
ys = sorted(xs)
".

Definition sorts_tree : ast.mod_ :=
  ast.Module_
    [ast.Expr (ast.Call 1 (ast.Attribute (ast.Name "xs") "sort") [] []);
     ast.Assign [ast.Name "ys"]
       (ast.Call 2 (ast.Name "sorted") [ast.Name "xs"] [])].

Definition chain_src : string :=
"a in b in c
".

Definition chain_tree : ast.mod_ :=
  ast.Module_
    [ast.Expr (ast.Compare 1 (ast.Name "a") [ast.In; ast.In]
                 [ast.Name "b"; ast.Name "c"])].

Definition pass_src : string :=
"pass
".

Definition invalid_src : string := "def f(:".

Definition starred_src : string :=
"x = []
for i in y:
    x.append(*ys)
".

Definition starred_tree : ast.mod_ :=
  ast.Module_
    [ast.Assign [ast.Name "x"] (ast.List []);
     ast.For 2 (ast.Name "i") (ast.Name "y")
       [ast.Expr (ast.Call 3 (ast.Attribute (ast.Name "x") "append")
                    [ast.Starred (ast.Name "ys")] [])] []].

(** What [visit_Module] makes of [starred_tree]: [x = [*ys for i in y]]. *)
Definition starred_rewritten : ast.mod_ :=
  ast.Module_
    [ast.Assign [ast.Name "x"]
       (ast.ListComp (ast.Starred (ast.Name "ys"))
          [ast.comprehension (ast.Name "i") (ast.Name "y") [] 0])].

Definition stub_sources : list (string * ast.mod_) :=
  [(idiom_src, idiom_tree);
   (comprehension_src, comprehension_tree);
   (two_args_src, two_args_tree);
   (empty_append_src, empty_append_tree);
   (for_else_src, for_else_tree);
   (nested_src, nested_tree);
   (sorts_src, sorts_tree);
   (chain_src, chain_tree);
   (pass_src, ast.Module_ [ast.Pass]);
   (starred_src, starred_tree)].

Definition stub_parse (source : string) : string + ast.mod_ :=
  match find (fun p => String.eqb (fst p) source) stub_sources with
  | Some p => inr (snd p)
  | None => inl "invalid syntax (<unknown>, line 1)"
  end.

Definition stub_unparse (m : ast.mod_) : string :=
  match m with
  | ast.Module_ [ast.Assign [ast.Name _] (ast.ListComp _ _)] =>
      comprehension_src
  | _ => pass_src
  end.

(** A serialiser for the few forms the examples need; what it cannot print
    it prints as an ellipsis. *)
Definition newline : string :=
"
".

Fixpoint print_expr (e : ast.expr) : string :=
  match e with
  | ast.Name id => id
  | ast.Constant (ast.CInt n) => str_int n
  | ast.Starred value => ("*" ++ print_expr value)%string
  | ast.Attribute value attr => (print_expr value ++ "." ++ attr)%string
  | ast.Call _ func args _ =>
      (print_expr func ++ "("
       ++ String.concat ", " (map print_expr args) ++ ")")%string
  | ast.List elts =>
      ("[" ++ String.concat ", " (map print_expr elts) ++ "]")%string
  | ast.ListComp elt generators =>
      ("[" ++ print_expr elt
       ++ String.concat "" (map print_comprehension generators)
       ++ "]")%string
  | _ => "..."
  end
with print_comprehension (c : ast.comprehension_node) : string :=
  match c with
  | ast.comprehension target iter _ _ =>
      (" for " ++ print_expr target ++ " in " ++ print_expr iter)%string
  end.

Definition print_stmt (st : ast.stmt) : string :=
  match st with
  | ast.Assign [target] value =>
      (print_expr target ++ " = " ++ print_expr value ++ newline)%string
  | ast.Expr value => (print_expr value ++ newline)%string
  | ast.Pass => ("pass" ++ newline)%string
  | _ => ("..." ++ newline)%string
  end.

Definition print_module (m : ast.mod_) : string :=
  match m with
  | ast.Module_ body => String.concat "" (map print_stmt body)
  end.

(** Whether a top-level statement assigns a list comprehension whose
    element is starred, as in [x = [*ys for i in y]]: a form the grammar of
    Python (up to version 3.14) has no rule for, so no parsed module has
    it. *)
Definition starred_comprehension (st : ast.stmt) : bool :=
  match st with
  | ast.Assign _ (ast.ListComp (ast.Starred _) _) => true
  | _ => false
  end.

Definition assigns_starred_comprehension (m : ast.mod_) : bool :=
  match m with
  | ast.Module_ body => existsb starred_comprehension body
  end.

(** The text [x = 1+1+...+1] with [n] additions, and its tree: a sum nested
    [n] deep to the left. *)
Fixpoint sum_text (n : nat) : string :=
  match n with
  | 0 => "1"
  | S n' => (sum_text n' ++ "+1")%string
  end.

Definition sum_src (n : nat) : string := ("x = " ++ sum_text n ++ newline)%string.

Fixpoint sum_expr (n : nat) : ast.expr :=
  match n with
  | 0 => ast.Constant (ast.CInt 1)
  | S n' => ast.BinOp (sum_expr n') ast.Add (ast.Constant (ast.CInt 1))
  end.

Definition sum_tree (n : nat) : ast.mod_ :=
  ast.Module_ [ast.Assign [ast.Name "x"] (sum_expr n)].

(** The number of additions when the text is such a sum. *)
Fixpoint plus_ones (s : string) : option nat :=
  match s with
  | String "010" EmptyString => Some 0
  | String "+" (String "1" rest) => option_map S (plus_ones rest)
  | _ => None
  end.

Definition sum_terms (source : string) : option nat :=
  match source with
  | String "x" (String " " (String "=" (String " " (String "1" rest)))) =>
      plus_ones rest
  | _ => None
  end.

(** A text with a null byte. *)
Definition nul_src : string := ("x = 1" ++ String "000" EmptyString)%string.

Fixpoint has_nul (s : string) : bool :=
  match s with
  | EmptyString => false
  | String c s' => Ascii.eqb c "000" || has_nul s'
  end.

(** A stand-in for the host's parser: it knows the sums and the examples
    above, raises [ValueError] on a null byte and [SyntaxError] on any other
    text. *)
Definition stub_host_parse (source : string) : result ast.mod_ :=
  if has_nul source then
    raise (ValueError "source code string cannot contain null bytes")
  else
    match sum_terms source with
    | Some n => ret (sum_tree n)
    | None =>
        match stub_parse source with
        | inl msg => raise (SyntaxError msg)
        | inr m => ret m
        end
    end.


(** * Properties *)

(** ** The error monad and [for_each] *)

Lemma for_each_app {A B : Type} (f : B -> A -> result B) (xs ys : list A)
  (acc : B) :
  for_each f (xs ++ ys) acc = (acc' <- for_each f xs acc ;; for_each f ys acc').
Proof.
  revert acc. induction xs as [|x xs IH]; intros acc; simpl.
  - reflexivity.
  - destruct (f acc x) as [e|acc']; simpl; [reflexivity | apply IH].
Qed.

Lemma for_each_map {A A' B : Type} (g : A' -> A) (f : B -> A -> result B)
  (xs : list A') (acc : B) :
  for_each f (map g xs) acc = for_each (fun b x => f b (g x)) xs acc.
Proof.
  revert acc. induction xs as [|x xs IH]; intros acc; simpl.
  - reflexivity.
  - destruct (f acc (g x)) as [e|acc']; simpl; [reflexivity | apply IH].
Qed.

Lemma for_each_ext {A B : Type} (f g : B -> A -> result B) (xs : list A) :
  Forall (fun x => forall b, f b x = g b x) xs ->
  forall acc, for_each f xs acc = for_each g xs acc.
Proof.
  induction 1 as [|x xs Hx _ IH]; intros acc; simpl.
  - reflexivity.
  - rewrite Hx. destruct (g acc x) as [e|acc']; simpl; [reflexivity | apply IH].
Qed.

(** ** Induction on a node through its children *)

Section ChildrenInduction.

Variable P : ast.AST -> Prop.
Hypothesis step : forall n, Forall P (ast.iter_child_nodes n) -> P n.

Ltac children :=
  repeat first
    [ apply Forall_nil
    | apply Forall_cons; [solve [auto] |]
    | apply Forall_app; split
    | match goal with
      | |- Forall _ (map _ ?l) =>
          induction l; simpl; [apply Forall_nil | apply Forall_cons; auto]
      end ].

Lemma expr_children_ind (e : ast.expr) : P (ast.of_expr e)
with comprehension_children_ind (c : ast.comprehension_node) :
  P (ast.of_comprehension c)
with keyword_children_ind (k : ast.keyword_node) : P (ast.of_keyword k).
Proof.
  - apply step. destruct e; simpl; children.
  - apply step. destruct c; simpl; children.
  - apply step. destruct k; simpl; children.
Qed.

Lemma stmt_children_ind (st : ast.stmt) : P (ast.of_stmt st).
Proof.
  pose proof expr_children_ind as He.
  revert st. fix IH 1. intros st.
  apply step. destruct st as [| [v|] | | | | | | | | |]; simpl; children.
Qed.

Lemma AST_children_ind (n : ast.AST) : P n.
Proof.
  destruct n as [[body]|st|e|c|k].
  - apply step. simpl. induction body; simpl; constructor;
      [apply stmt_children_ind | assumption].
  - apply stmt_children_ind.
  - apply expr_children_ind.
  - apply comprehension_children_ind.
  - apply keyword_children_ind.
Qed.

End ChildrenInduction.

(** ** The traversal visits the children in the order of [iter_child_nodes] *)

Ltac step_bind :=
  match goal with
  | |- context [match ?X with inl _ => _ | inr _ => _ end] =>
      lazymatch X with
      | inl _ => fail
      | inr _ => fail
      | _ => destruct X as [?|?]
      end
  end.

Ltac unfold_for_each :=
  repeat (repeat (progress (simpl; rewrite ?for_each_app, ?for_each_map));
          try reflexivity; try step_bind).

(** The recursive equation of the source's [visit]:
    [for child in ast.iter_child_nodes(n): visit(child, depth)]. *)
Lemma traverse_eq {I S : Type} (enter : ast.AST -> I -> S -> result (I * S))
  (n : ast.AST) (i : I) (s : S) :
  traverse enter n i s =
  (p <- enter n i s ;;
   for_each (fun s c => traverse enter c (fst p) s)
            (ast.iter_child_nodes n) (snd p)).
Proof.
  destruct n as [[body]|st|e|c|k];
    [ | destruct st as [| [v|] | | | | | | | | |] | destruct e | destruct c
      | destruct k ];
    simpl; unfold traverse_mod, traverse_exprs;
    destruct (enter _ i s) as [x|[i' s']]; unfold_for_each.
Qed.

Lemma preorder_eq (n : ast.AST) :
  preorder n = n :: flat_map preorder (ast.iter_child_nodes n).
Proof.
  destruct n as [[body]|st|e|c|k];
    [ | destruct st as [| [v|] | | | | | | | | |] | destruct e | destruct c
      | destruct k ];
    simpl; rewrite ?flat_map_app, ?flat_map_concat_map, ?map_map, ?app_nil_r;
    simpl; rewrite ?app_nil_r, <- ?app_assoc; reflexivity.
Qed.

(** ** What a visitor computes *)

Lemma for_each_fold {A B X : Type} (F : B -> A -> result B) (add : B -> X -> B)
  (g : A -> list X) (cs : list A) :
  Forall (fun c => forall r, F r c = inr (fold_left add (g c) r)) cs ->
  forall r, for_each F cs r = inr (fold_left add (flat_map g cs) r).
Proof.
  induction 1 as [|c cs Hc _ IH]; intros r; simpl.
  - reflexivity.
  - rewrite Hc. simpl. rewrite IH, fold_left_app. reflexivity.
Qed.

(** A visitor whose method folds [emit n] into the state at each node folds
    the whole tree in document order. *)
Lemma NodeVisitor_visit_fold {R X : Type}
  (visit_node : ast.AST -> R -> result R) (emit : ast.AST -> X)
  (add : R -> X -> R) :
  (forall n r, visit_node n r = inr (add r (emit n))) ->
  forall n r,
    NodeVisitor_visit visit_node n r
    = inr (fold_left add (map emit (preorder n)) r).
Proof.
  intros Hvisit n. induction n as [n IH] using AST_children_ind. intros r.
  unfold NodeVisitor_visit in *. rewrite traverse_eq, preorder_eq, Hvisit.
  simpl. rewrite flat_map_concat_map, concat_map, map_map,
    <- flat_map_concat_map.
  apply for_each_fold with (g := fun c => map emit (preorder c)).
  exact IH.
Qed.

Lemma fold_left_app_flat {X : Type} (xss : list (list X)) (r : list X) :
  fold_left (@app X) xss r = r ++ concat xss.
Proof.
  revert r. induction xss as [|xs xss IH]; intros r; simpl.
  - now rewrite app_nil_r.
  - now rewrite IH, app_assoc.
Qed.

Lemma NodeVisitor_visit_emits {X : Type}
  (visit_node : ast.AST -> list X -> result (list X))
  (emit : ast.AST -> list X) :
  (forall n r, visit_node n r = inr (r ++ emit n)) ->
  forall n r,
    NodeVisitor_visit visit_node n r = inr (r ++ flat_map emit (preorder n)).
Proof.
  intros Hvisit n r.
  rewrite (NodeVisitor_visit_fold visit_node emit (@app X) Hvisit).
  now rewrite fold_left_app_flat, flat_map_concat_map.
Qed.

(** ** Loop nesting *)

Lemma deepen_max (d m k1 k2 : nat) :
  deepen d (deepen d m k1) k2 = deepen d m (Nat.max k1 k2).
Proof.
  unfold deepen.
  destruct (Nat.eqb_spec k1 0), (Nat.eqb_spec k2 0),
    (Nat.eqb_spec (Nat.max k1 k2) 0); lia.
Qed.

Lemma list_max_zeros {A : Type} (f : A -> nat) (l : list A) :
  (forall x, f x = 0) -> list_max (map f l) = 0.
Proof.
  intros Hf. induction l as [|x l IH]; simpl; [reflexivity|].
  now rewrite Hf, IH.
Qed.

Lemma loop_depth_eq (n : ast.AST) :
  loop_depth n
  = (if isinstance_For_While n then 1 else 0)
    + list_max (map loop_depth (ast.iter_child_nodes n)).
Proof.
  assert (Hz : forall {A} (inj : A -> ast.AST) (l : list A),
             (forall x, loop_depth (inj x) = 0) ->
             list_max (map loop_depth (map inj l)) = 0).
  { intros A inj l H. rewrite map_map. now apply list_max_zeros. }
  destruct n as [[body]|st|e|c|k];
    [ | destruct st as [| [v|] | | | | | | | | |] | destruct e | destruct c
      | destruct k ];
    cbn [loop_depth loop_depth_stmt isinstance_For_While ast.iter_child_nodes
         ast.opt_expr map list_max fold_right Nat.add];
    rewrite ?map_app, ?list_max_app, ?(map_map ast.of_stmt), ?Hz by reflexivity;
    cbn [loop_depth list_max fold_right];
    rewrite ?Nat.max_0_r; try reflexivity; try lia.
Qed.

Lemma for_each_deepen {A : Type} (F : nat -> A -> result nat) (ld : A -> nat)
  (d : nat) (cs : list A) :
  Forall (fun c => forall m, F m c = inr (deepen d m (ld c))) cs ->
  forall m, for_each F cs m = inr (deepen d m (list_max (map ld cs))).
Proof.
  induction 1 as [|c cs Hc _ IH]; intros m; simpl.
  - reflexivity.
  - rewrite Hc. simpl. rewrite IH. now rewrite deepen_max.
Qed.

Lemma visit_depth (n : ast.AST) :
  forall depth max_depth,
    traverse enter_loop n depth max_depth
    = inr (deepen depth max_depth (loop_depth n)).
Proof.
  induction n as [n IH] using AST_children_ind. intros d m.
  assert (Hch : forall d' m',
             for_each (fun s c => traverse enter_loop c d' s)
                      (ast.iter_child_nodes n) m'
             = inr (deepen d' m'
                      (list_max (map loop_depth (ast.iter_child_nodes n))))).
  { intros d' m'. apply for_each_deepen.
    eapply Forall_impl; [|exact IH]. intros c H m0. apply H. }
  rewrite traverse_eq, (loop_depth_eq n). unfold enter_loop at 1.
  destruct (isinstance_For_While n); simpl; rewrite Hch; unfold deepen;
    destruct (list_max (map loop_depth (ast.iter_child_nodes n)));
    simpl; f_equal; lia.
Qed.

Lemma max_loop_nesting_spec (n : ast.AST) :
  max_loop_nesting n = inr (loop_depth n).
Proof.
  unfold max_loop_nesting. rewrite visit_depth. unfold deepen.
  destruct (loop_depth n); reflexivity.
Qed.

Lemma loop_depth_nested_loops (heads : list loop_head) :
  list_max (map loop_depth_stmt (nested_loops heads)) = length heads.
Proof.
  induction heads as [|[lineno target iter|test] heads IH]; simpl;
    try reflexivity; rewrite IH; lia.
Qed.

(** ** The detectors *)

#[local] Arguments String.eqb : simpl never.

Ltac break_match :=
  match goal with
  | |- context [match ?x with _ => _ end] => destruct x
  end.

Ltac skip_node := simpl; rewrite ?app_nil_r; reflexivity.

Ltac by_cases :=
  repeat (simpl; rewrite ?app_nil_r; try reflexivity; break_match).

Lemma visit_AugAssign_emits (n : ast.AST) (r : list (nat * string)) :
  find_string_concat_in_loops.visit_AugAssign n r
  = inr (r ++ string_concat_at n).
Proof. unfold find_string_concat_in_loops.visit_AugAssign. by_cases. Qed.

Lemma visit_Call_append_emits (n : ast.AST) (r : list (nat * string)) :
  find_list_append_patterns.visit_Call n r = inr (r ++ list_append_at n).
Proof. unfold find_list_append_patterns.visit_Call. by_cases. Qed.

Lemma visit_For_emits (n : ast.AST) (r : list (nat * string)) :
  find_range_len_patterns.visit_For n r = inr (r ++ range_len_at n).
Proof.
  unfold find_range_len_patterns.visit_For, range_len_at.
  destruct n as [m|st|e|c|k]; try skip_node.
  destruct st as [| | | |lineno target iter body orelse| | | | | |];
    try skip_node.
  destruct iter as [| | | | | | |l0 func args kws| | | | | | |]; try skip_node.
  destruct func as [| | | | | | | | | | | |f| |]; try skip_node.
  destruct args as [|a0 args]; [by_cases|].
  destruct a0 as [| | | | | | |l1 func0 args0 kws0| | | | | | |];
    try solve [by_cases].
  destruct func0 as [| | | | | | | | | | | |g| |]; try solve [by_cases].
  destruct args0 as [|[] args0]; simpl;
    destruct (String.eqb f "range"), (String.eqb g "len"); skip_node.
Qed.

Lemma visit_Call_sort_emits (n : ast.AST) (r : list nat) :
  find_sorted_in_loops.visit_Call n r = inr (r ++ sort_call_at n).
Proof. unfold find_sorted_in_loops.visit_Call. by_cases. Qed.

Lemma visit_Compare_emits (n : ast.AST) (r : list (nat * string)) :
  detect_membership_of_list_in_loops.visit_Compare n r
  = inr (r ++ membership_at n).
Proof.
  unfold detect_membership_of_list_in_loops.visit_Compare.
  destruct n as [m|st|e|c|k]; try (simpl; now rewrite app_nil_r).
  destruct e; try (simpl; now rewrite app_nil_r).
  unfold membership_at.
  revert r. induction ops as [|op ops IH]; intros r.
  - simpl. destruct comparators as [|[] ?]; simpl; now rewrite app_nil_r.
  - cbn [for_each].
    destruct comparators as [|c0 cs];
      [destruct op; simpl; apply IH|].
    destruct c0; try (destruct op; simpl; apply IH).
    destruct op; simpl; try apply IH.
    rewrite IH. now rewrite <- app_assoc.
Qed.

Lemma visit_ListComp_counts (n : ast.AST) (count : nat) :
  visit_ListComp n count = inr (count + list_comp_at n).
Proof.
  unfold visit_ListComp.
  destruct n as [m|st|e|c|k]; simpl; rewrite ?Nat.add_0_r; try reflexivity.
  destruct e; simpl; rewrite ?Nat.add_0_r; reflexivity.
Qed.

Lemma find_string_concat_in_loops_run (m : ast.mod_) :
  find_string_concat_in_loops.run m
  = inr (flat_map string_concat_at (preorder (ast.of_mod m))).
Proof.
  unfold find_string_concat_in_loops.run.
  now rewrite (NodeVisitor_visit_emits _ _ visit_AugAssign_emits).
Qed.

Lemma find_list_append_patterns_run (m : ast.mod_) :
  find_list_append_patterns.run m
  = inr (flat_map list_append_at (preorder (ast.of_mod m))).
Proof.
  unfold find_list_append_patterns.run.
  now rewrite (NodeVisitor_visit_emits _ _ visit_Call_append_emits).
Qed.

Lemma find_range_len_patterns_run (m : ast.mod_) :
  find_range_len_patterns.run m
  = inr (flat_map range_len_at (preorder (ast.of_mod m))).
Proof.
  unfold find_range_len_patterns.run.
  now rewrite (NodeVisitor_visit_emits _ _ visit_For_emits).
Qed.

Lemma find_sorted_in_loops_run (m : ast.mod_) :
  find_sorted_in_loops.run m
  = inr (flat_map sort_call_at (preorder (ast.of_mod m))).
Proof.
  unfold find_sorted_in_loops.run.
  now rewrite (NodeVisitor_visit_emits _ _ visit_Call_sort_emits).
Qed.

Lemma detect_membership_run (m : ast.mod_) :
  detect_membership_of_list_in_loops.run m
  = inr (flat_map membership_at (preorder (ast.of_mod m))).
Proof.
  unfold detect_membership_of_list_in_loops.run.
  now rewrite (NodeVisitor_visit_emits _ _ visit_Compare_emits).
Qed.

Lemma count_list_comps (m : ast.mod_) (count : nat) :
  NodeVisitor_visit visit_ListComp (ast.of_mod m) count
  = inr (fold_left Nat.add (map list_comp_at (preorder (ast.of_mod m))) count).
Proof.
  now rewrite (NodeVisitor_visit_fold _ list_comp_at Nat.add
                 visit_ListComp_counts).
Qed.

(** ** The estimators and the analyzer *)

Lemma estimate_time_complexity_eq (m : ast.mod_) :
  estimate_time_complexity m
  = inr (time_est_text (loop_depth (ast.of_mod m)) (sort_lines m),
         VDict [("max_loop_nesting", VInt (loop_depth (ast.of_mod m)));
                ("sort_calls", VList (map VInt (sort_lines m)))]).
Proof.
  unfold estimate_time_complexity.
  rewrite max_loop_nesting_spec, find_sorted_in_loops_run. reflexivity.
Qed.

Lemma estimate_space_complexity_eq (m : ast.mod_) :
  estimate_space_complexity m
  = inr (space_est_text (list_comp_count m) (append_sites m),
         VDict [("list_comprehensions", VInt (list_comp_count m));
                ("list_appends", VList (map tuple_int_str (append_sites m)))]).
Proof.
  unfold estimate_space_complexity.
  rewrite find_list_append_patterns_run. cbn [bind Monad_either].
  rewrite count_list_comps. reflexivity.
Qed.

Lemma append_detection_eq (d : value) (ds : list value) (te : string)
  (td : value) (se : string) (sd : value) :
  append_detection (report_fields ds te td se sd) d
  = inr (report_fields (ds ++ [d]) te td se sd).
Proof. reflexivity. Qed.

Lemma append_detections_eq {A : Type} (mk : A -> value) (xs : list A)
  (ds : list value) (te : string) (td : value) (se : string) (sd : value) :
  append_detections mk xs (report_fields ds te td se sd)
  = inr (report_fields (ds ++ map mk xs) te td se sd).
Proof.
  unfold append_detections. revert ds.
  induction xs as [|x xs IH]; intros ds; cbn [for_each map].
  - now rewrite app_nil_r.
  - rewrite append_detection_eq. cbn [bind Monad_either].
    rewrite IH, <- app_assoc. reflexivity.
Qed.

Lemma analyze_code_parsed (ast_parse : string -> string + ast.mod_)
  (code_str : string) (m : ast.mod_) :
  ast_parse code_str = inr m ->
  analyze_code ast_parse code_str = inr (VDict (report_of m)).
Proof.
  intros Hparse. unfold analyze_code. rewrite Hparse.
  rewrite estimate_time_complexity_eq, estimate_space_complexity_eq.
  cbn [bind Monad_either ret].
  rewrite find_string_concat_in_loops_run. cbn [bind Monad_either].
  change (dict_set _ "space_details" ?sd)
    with (report_fields [] (time_est_text (loop_depth (ast.of_mod m)) (sort_lines m))
            (VDict [("max_loop_nesting", VInt (loop_depth (ast.of_mod m)));
                    ("sort_calls", VList (map VInt (sort_lines m)))])
            (space_est_text (list_comp_count m) (append_sites m)) sd).
  rewrite append_detections_eq. cbn [bind Monad_either].
  rewrite find_list_append_patterns_run. cbn [bind Monad_either].
  rewrite append_detections_eq. cbn [bind Monad_either].
  rewrite find_range_len_patterns_run. cbn [bind Monad_either].
  rewrite append_detections_eq. cbn [bind Monad_either].
  rewrite detect_membership_run. cbn [bind Monad_either].
  rewrite append_detections_eq. cbn [bind Monad_either].
  rewrite find_sorted_in_loops_run. cbn [bind Monad_either].
  rewrite append_detections_eq. cbn [ret Monad_either].
  unfold report_of, concat_sites, append_sites, range_len_sites,
    membership_sites. simpl app. rewrite <- !app_assoc. reflexivity.
Qed.

(** ** Walking a tree with the frames the host allows *)

Lemma weight_eq (cost spare : ast.AST -> nat) (n : ast.AST) :
  weight cost spare n
  = cost n + Nat.max (spare n)
               (list_max (map (weight cost spare) (ast.iter_child_nodes n))).
Proof.
  destruct n as [[body]|st|e|c|k];
    [ | destruct st as [| [v|] | | | | | | | | |] | destruct e | destruct c
      | destruct k ];
    cbn [weight weight_stmt weight_expr weight_comprehension weight_keyword
         ast.iter_child_nodes ast.opt_expr map list_max fold_right];
    rewrite ?map_app, ?list_max_app, ?map_map;
    cbn [weight map list_max fold_right];
    rewrite ?Nat.max_0_r; reflexivity.
Qed.

Lemma call_within {A : Type} (needed frames : nat) (body : nat -> result A)
  (r : result A) :
  (forall frames',
      body frames'
      = if (needed <=? frames')%nat then r else inl host.recursion_error) ->
  host.call frames body
  = if (S needed <=? frames)%nat then r else inl host.recursion_error.
Proof.
  intros Hbody. destruct frames as [|frames']; [reflexivity|].
  simpl. apply Hbody.
Qed.

Section Within.

Context {I I' S : Type}.
Variable mk : nat -> I -> I'.
Variable enter : ast.AST -> I -> S -> result (I * S).
Variable enter_within : ast.AST -> I' -> S -> result (I' * S).
Variables cost spare : ast.AST -> nat.

Hypothesis enter_total : forall n i s, exists p, enter n i s = inr p.
Hypothesis enter_fits :
  forall n frames i s,
    cost n + spare n <= frames ->
    enter_within n (mk frames i) s
    = (p <- enter n i s ;; ret (mk (frames - cost n) (fst p), snd p)).
Hypothesis enter_short :
  forall n frames i s,
    frames < cost n + spare n ->
    enter_within n (mk frames i) s = inl host.recursion_error.

Lemma for_each_total {A : Type} (F : S -> A -> result S) (cs : list A) :
  Forall (fun c => forall s, exists s', F s c = inr s') cs ->
  forall s, exists s', for_each F cs s = inr s'.
Proof.
  induction 1 as [|c cs Hc _ IH]; intros s; simpl.
  - now exists s.
  - destruct (Hc s) as [s1 ->]. apply IH.
Qed.

Lemma traverse_total (n : ast.AST) :
  forall i s, exists s', traverse enter n i s = inr s'.
Proof.
  induction n as [n IH] using AST_children_ind. intros i s.
  rewrite traverse_eq. destruct (enter_total n i s) as [[i' s1] ->].
  apply for_each_total. eapply Forall_impl; [|exact IH].
  intros c Hc s0. apply Hc.
Qed.

Lemma for_each_within (cs : list ast.AST) :
  Forall (fun c =>
            forall frames i s,
              traverse enter_within c (mk frames i) s
              = if (weight cost spare c <=? frames)%nat
                then traverse enter c i s
                else inl host.recursion_error) cs ->
  forall frames i s,
    for_each (fun s c => traverse enter_within c (mk frames i) s) cs s
    = if (list_max (map (weight cost spare) cs) <=? frames)%nat
      then for_each (fun s c => traverse enter c i s) cs s
      else inl host.recursion_error.
Proof.
  induction 1 as [|c cs Hc _ IH]; intros frames i s.
  - reflexivity.
  - cbn [for_each map list_max fold_right]. rewrite Hc.
    change (fold_right Nat.max 0 (map (weight cost spare) cs))
      with (list_max (map (weight cost spare) cs)).
    destruct (Nat.leb_spec (weight cost spare c) frames) as [Hle|Hgt].
    + destruct (traverse_total c i s) as [s1 ->]. simpl. rewrite IH.
      destruct (Nat.leb_spec (list_max (map (weight cost spare) cs)) frames),
        (Nat.leb_spec
           (Nat.max (weight cost spare c)
                    (list_max (map (weight cost spare) cs))) frames);
        try reflexivity; lia.
    + destruct (Nat.leb_spec
                  (Nat.max (weight cost spare c)
                           (list_max (map (weight cost spare) cs))) frames);
        [lia | reflexivity].
Qed.

(** The walk under the host's limit is the walk itself when the frames
    suffice, and raises [RecursionError] when they do not. *)
Lemma traverse_within (n : ast.AST) :
  forall frames i s,
    traverse enter_within n (mk frames i) s
    = if (weight cost spare n <=? frames)%nat
      then traverse enter n i s
      else inl host.recursion_error.
Proof.
  induction n as [n IH] using AST_children_ind. intros frames i s.
  rewrite (traverse_eq enter_within), (traverse_eq enter), (weight_eq cost spare n).
  destruct (Nat.le_gt_cases (cost n + spare n) frames) as [Hle|Hgt].
  - rewrite (enter_fits _ _ _ _ Hle).
    destruct (enter_total n i s) as [[i' s1] ->].
    cbn [bind ret Monad_either fst snd].
    rewrite (for_each_within _ IH).
    destruct (Nat.leb_spec
                (list_max (map (weight cost spare) (ast.iter_child_nodes n)))
                (frames - cost n)),
      (Nat.leb_spec
         (cost n
          + Nat.max (spare n)
              (list_max (map (weight cost spare) (ast.iter_child_nodes n))))
         frames); try reflexivity; lia.
  - rewrite (enter_short _ _ _ _ Hgt).
    destruct (Nat.leb_spec
                (cost n
                 + Nat.max (spare n)
                     (list_max (map (weight cost spare)
                                    (ast.iter_child_nodes n))))
                frames); [lia | reflexivity].
Qed.

End Within.

Lemma list_max_le_affine {A : Type} (f g : A -> nat) (k c : nat) (l : list A) :
  Forall (fun x => f x <= k * g x + c) l ->
  list_max (map f l) <= k * list_max (map g l) + c.
Proof.
  induction 1 as [|x l Hx _ IH]; simpl; [lia|].
  change (fold_right Nat.max 0 (map f l)) with (list_max (map f l)).
  change (fold_right Nat.max 0 (map g l)) with (list_max (map g l)).
  nia.
Qed.

Lemma list_max_ge_affine {A : Type} (f g : A -> nat) (k c : nat) (l : list A) :
  l <> [] ->
  Forall (fun x => k * g x + c <= f x) l ->
  k * list_max (map g l) + c <= list_max (map f l).
Proof.
  intros Hl H. induction H as [|x l Hx Hrest IH]; [congruence|].
  simpl.
  change (fold_right Nat.max 0 (map f l)) with (list_max (map f l)).
  change (fold_right Nat.max 0 (map g l)) with (list_max (map g l)).
  destruct l as [|y l'].
  - simpl. nia.
  - assert (k * list_max (map g (y :: l')) + c <= list_max (map f (y :: l')))
      by (apply IH; discriminate).
    nia.
Qed.

(** A walk that holds at most [k] frames a node and needs at most [c] more
    takes at most [k] frames for each level of the tree, and [c]. *)
Lemma weight_le_height (cost spare : ast.AST -> nat) (k c : nat) :
  (forall n, cost n <= k) -> (forall n, spare n <= c) ->
  forall n, weight cost spare n <= k * height n + c.
Proof.
  intros Hcost Hspare n. induction n as [n IH] using AST_children_ind.
  unfold height in *. rewrite (weight_eq cost spare n), (weight_eq _ _ n).
  pose proof (list_max_le_affine _ _ k c _ IH) as Hmax.
  specialize (Hcost n). specialize (Hspare n). nia.
Qed.

Lemma height_le_weight (cost spare : ast.AST -> nat) (k c : nat) :
  (forall n, k <= cost n) -> (forall n, c <= spare n) ->
  forall n, k * height n + c <= weight cost spare n.
Proof.
  intros Hcost Hspare n. induction n as [n IH] using AST_children_ind.
  unfold height in *. rewrite (weight_eq cost spare n), (weight_eq _ _ n).
  specialize (Hcost n). specialize (Hspare n).
  destruct (ast.iter_child_nodes n) as [|c0 cs] eqn:Hcs.
  - simpl. nia.
  - assert (Hmax :
      k * list_max (map (weight (fun _ => 1) (fun _ => 0)) (c0 :: cs)) + c
      <= list_max (map (weight cost spare) (c0 :: cs)))
      by (apply list_max_ge_affine; [discriminate | exact IH]).
    nia.
Qed.

Lemma height_pos (n : ast.AST) : 1 <= height n.
Proof. unfold height. rewrite weight_eq. lia. Qed.

Lemma visit_frames_height (n : ast.AST) : visit_frames n = height n + 2.
Proof.
  pose proof (weight_le_height (fun _ => 1) (fun _ => 2) 1 2
                (fun _ => le_n _) (fun _ => le_n _) n).
  pose proof (height_le_weight (fun _ => 1) (fun _ => 2) 1 2
                (fun _ => le_n _) (fun _ => le_n _) n).
  unfold visit_frames. lia.
Qed.

Lemma method_frames_bounds (method : string) (n : ast.AST) :
  2 <= method_frames method n <= 3.
Proof. unfold method_frames. destruct (String.eqb _ _); lia. Qed.

Lemma visitor_frames_le (method : string) (n : ast.AST) :
  visitor_frames method n <= 3 * height n + 1.
Proof.
  apply weight_le_height; intros n'; [apply method_frames_bounds | lia].
Qed.

Lemma visitor_frames_ge (method : string) (n : ast.AST) :
  2 * height n + 1 <= visitor_frames method n.
Proof.
  apply height_le_weight; intros n'; [apply method_frames_bounds | lia].
Qed.

(** ** The functions of the program on the host *)

Lemma host_visit_within (n : ast.AST) :
  forall frames depth max_depth,
    traverse host.visit n (frames, depth) max_depth
    = if (visit_frames n <=? frames)%nat
      then traverse enter_loop n depth max_depth
      else inl host.recursion_error.
Proof.
  apply (traverse_within pair enter_loop host.visit (fun _ => 1) (fun _ => 2)).
  - intros n' i s. unfold enter_loop.
    destruct (isinstance_For_While n'); now eexists.
  - intros n' frames i s Hle.
    destruct frames as [|[|[|frames]]]; try lia.
    unfold host.visit, enter_loop.
    destruct (isinstance_For_While n'); simpl; rewrite ?Nat.sub_0_r;
      reflexivity.
  - intros n' frames i s Hlt.
    destruct frames as [|[|[|frames]]]; try lia;
      unfold host.visit, enter_loop;
      destruct (isinstance_For_While n'); reflexivity.
Qed.

Lemma host_max_loop_nesting_eq (frames : nat) (n : ast.AST) :
  host.max_loop_nesting frames n
  = if (height n + 2 <=? frames)%nat then inr (loop_depth n)
    else inl host.recursion_error.
Proof.
  unfold host.max_loop_nesting. rewrite host_visit_within, visit_frames_height.
  change (traverse enter_loop n 0 0) with (max_loop_nesting n).
  now rewrite max_loop_nesting_spec.
Qed.

Lemma host_NodeVisitor_visit_eq {R : Type} (method : string)
  (visit_node : ast.AST -> R -> result R) :
  (forall n r, exists r', visit_node n r = inr r') ->
  (forall n r,
      String.eqb ("visit_" ++ host.class_name n) method = false ->
      visit_node n r = inr r) ->
  forall frames n r,
    host.NodeVisitor_visit method visit_node frames n r
    = if (visitor_frames method n <=? frames)%nat
      then NodeVisitor_visit visit_node n r
      else inl host.recursion_error.
Proof.
  intros Htotal Hother frames n r.
  unfold host.NodeVisitor_visit, NodeVisitor_visit, visitor_frames.
  apply (traverse_within (fun frames (_ : unit) => frames)
           (fun n (_ : unit) r => r' <- visit_node n r ;; ret (tt, r'))
           _ (method_frames method) (fun _ => 1)).
  - intros n' i s. destruct (Htotal n' s) as [r' ->]. now eexists.
  - intros n' frames' i s. unfold method_frames.
    destruct (String.eqb ("visit_" ++ host.class_name n') method) eqn:Hm;
      intros Hle.
    + destruct frames' as [|[|[|[|frames']]]]; try lia.
      destruct (Htotal n' s) as [r' Hr']. simpl. rewrite Hr'. reflexivity.
    + destruct frames' as [|[|[|frames']]]; try lia.
      rewrite (Hother _ _ Hm). simpl. rewrite ?Nat.sub_0_r. reflexivity.
  - intros n' frames' i s. unfold method_frames.
    destruct (String.eqb ("visit_" ++ host.class_name n') method) eqn:Hm;
      intros Hlt.
    + destruct (Htotal n' s) as [r' Hr'].
      destruct frames' as [|[|[|[|frames']]]]; try lia; simpl;
        rewrite ?Hr'; reflexivity.
    + destruct frames' as [|[|[|frames']]]; try lia; reflexivity.
Qed.

Ltac other_class :=
  let n := fresh "n" in
  let Hm := fresh "Hm" in
  intros n Hm;
  destruct n as [[?]|[]|[]|[]|[]];
  first [ reflexivity | vm_compute in Hm; discriminate Hm ].

Lemma bind_within {A B : Type} (c : bool) (v : A) (k : A -> result B) :
  @bind result _ A B (if c then inr v else inl host.recursion_error) k
  = if c then k v else inl host.recursion_error.
Proof. now destruct c. Qed.

Lemma bind_inr {A B : Type} (x : A) (k : A -> result B) :
  @bind result _ A B (inr x) k = k x.
Proof. reflexivity. Qed.

Lemma host_visitor_emits {X : Type} (method : string)
  (visit_node : ast.AST -> list X -> result (list X))
  (emit : ast.AST -> list X) :
  (forall n r, visit_node n r = inr (r ++ emit n)) ->
  (forall n,
      String.eqb ("visit_" ++ host.class_name n) method = false ->
      emit n = []) ->
  forall frames n,
    host.NodeVisitor_visit method visit_node frames n []
    = if (visitor_frames method n <=? frames)%nat
      then inr (flat_map emit (preorder n))
      else inl host.recursion_error.
Proof.
  intros Hvisit Hother frames n.
  rewrite host_NodeVisitor_visit_eq.
  - now rewrite (NodeVisitor_visit_emits _ _ Hvisit).
  - intros n' r. rewrite Hvisit. now eexists.
  - intros n' r Hm. now rewrite Hvisit, (Hother _ Hm), app_nil_r.
Qed.

Lemma host_find_string_concat_eq (frames : nat) (m : ast.mod_) :
  host.find_string_concat_in_loops frames m
  = if (visitor_frames "visit_AugAssign" (ast.of_mod m) <=? frames)%nat
    then inr (concat_sites m) else inl host.recursion_error.
Proof.
  apply (host_visitor_emits _ _ _ visit_AugAssign_emits). other_class.
Qed.

Lemma host_find_list_append_eq (frames : nat) (m : ast.mod_) :
  host.find_list_append_patterns frames m
  = if (visitor_frames "visit_Call" (ast.of_mod m) <=? frames)%nat
    then inr (append_sites m) else inl host.recursion_error.
Proof.
  apply (host_visitor_emits _ _ _ visit_Call_append_emits). other_class.
Qed.

Lemma host_find_range_len_eq (frames : nat) (m : ast.mod_) :
  host.find_range_len_patterns frames m
  = if (visitor_frames "visit_For" (ast.of_mod m) <=? frames)%nat
    then inr (range_len_sites m) else inl host.recursion_error.
Proof.
  apply (host_visitor_emits _ _ _ visit_For_emits). other_class.
Qed.

Lemma host_find_sorted_eq (frames : nat) (m : ast.mod_) :
  host.find_sorted_in_loops frames m
  = if (visitor_frames "visit_Call" (ast.of_mod m) <=? frames)%nat
    then inr (sort_lines m) else inl host.recursion_error.
Proof.
  apply (host_visitor_emits _ _ _ visit_Call_sort_emits). other_class.
Qed.

Lemma host_detect_membership_eq (frames : nat) (m : ast.mod_) :
  host.detect_membership_of_list_in_loops frames m
  = if (visitor_frames "visit_Compare" (ast.of_mod m) <=? frames)%nat
    then inr (membership_sites m) else inl host.recursion_error.
Proof.
  apply (host_visitor_emits _ _ _ visit_Compare_emits). other_class.
Qed.

Lemma host_count_list_comps (frames : nat) (m : ast.mod_) :
  host.NodeVisitor_visit "visit_ListComp" visit_ListComp frames
    (ast.of_mod m) 0
  = if (visitor_frames "visit_ListComp" (ast.of_mod m) <=? frames)%nat
    then inr (list_comp_count m) else inl host.recursion_error.
Proof.
  rewrite host_NodeVisitor_visit_eq.
  - now rewrite count_list_comps.
  - intros n r. rewrite visit_ListComp_counts. now eexists.
  - intros n r Hm. rewrite visit_ListComp_counts.
    replace (list_comp_at n) with 0; [now rewrite Nat.add_0_r|].
    revert n Hm. other_class.
Qed.

Ltac leb_cases frames :=
  repeat match goal with
         | |- context [(?a <=? frames)%nat] =>
             destruct (Nat.leb_spec a frames)
         end.

Lemma host_estimate_time_complexity_eq (frames : nat) (m : ast.mod_) :
  host.estimate_time_complexity frames m
  = if (Nat.max (height (ast.of_mod m) + 3)
                (visitor_frames "visit_Call" (ast.of_mod m) + 1)
        <=? frames)%nat
    then estimate_time_complexity m else inl host.recursion_error.
Proof.
  unfold host.estimate_time_complexity.
  rewrite (call_within _ frames _ _
             (fun f => host_max_loop_nesting_eq f (ast.of_mod m))).
  rewrite (call_within _ frames _ _ (fun f => host_find_sorted_eq f m)).
  rewrite estimate_time_complexity_eq, !bind_within.
  leb_cases frames; try reflexivity; lia.
Qed.

Lemma host_estimate_space_complexity_eq (frames : nat) (m : ast.mod_) :
  host.estimate_space_complexity frames m
  = if (Nat.max (visitor_frames "visit_Call" (ast.of_mod m) + 1)
                (visitor_frames "visit_ListComp" (ast.of_mod m))
        <=? frames)%nat
    then estimate_space_complexity m else inl host.recursion_error.
Proof.
  unfold host.estimate_space_complexity.
  rewrite (call_within _ frames _ _ (fun f => host_find_list_append_eq f m)).
  rewrite host_count_list_comps.
  rewrite estimate_space_complexity_eq, !bind_within.
  leb_cases frames; try reflexivity; lia.
Qed.

(** On the host [analyze_code] returns the report of the tree when the
    frames suffice for every walk, and raises [RecursionError] when they do
    not. *)
Lemma host_analyze_code_parsed (ast_parse : string -> result ast.mod_)
  (frames : nat) (code_str : string) (m : ast.mod_) :
  ast_parse code_str = inr m ->
  host.analyze_code ast_parse frames code_str
  = if (analyze_frames m <=? frames)%nat
    then inr (VDict (report_of m)) else inl host.recursion_error.
Proof.
  intros Hparse. unfold host.analyze_code. rewrite Hparse.
  rewrite (call_within _ frames _ _
             (fun f => host_estimate_time_complexity_eq f m)).
  rewrite (call_within _ frames _ _
             (fun f => host_estimate_space_complexity_eq f m)).
  rewrite (call_within _ frames _ _ (fun f => host_find_string_concat_eq f m)).
  rewrite (call_within _ frames _ _ (fun f => host_find_list_append_eq f m)).
  rewrite (call_within _ frames _ _ (fun f => host_find_range_len_eq f m)).
  rewrite (call_within _ frames _ _ (fun f => host_detect_membership_eq f m)).
  rewrite (call_within _ frames _ _ (fun f => host_find_sorted_eq f m)).
  rewrite estimate_time_complexity_eq, estimate_space_complexity_eq.
  rewrite !bind_within.
  change (dict_set _ "space_details" ?sd)
    with (report_fields [] (time_est_text (loop_depth (ast.of_mod m)) (sort_lines m))
            (VDict [("max_loop_nesting", VInt (loop_depth (ast.of_mod m)));
                    ("sort_calls", VList (map VInt (sort_lines m)))])
            (space_est_text (list_comp_count m) (append_sites m)) sd).
  do 4 (rewrite append_detections_eq, bind_inr; cbv beta;
        rewrite bind_within).
  rewrite append_detections_eq. cbn [bind ret Monad_either].
  unfold analyze_frames. cbn [list_max fold_right]. rewrite Nat.max_0_r.
  replace (report_fields _ _ _ _ _) with (report_of m)
    by (unfold report_of; simpl app; now rewrite <- !app_assoc).
  leb_cases frames; try reflexivity; lia.
Qed.

Lemma analyze_frames_le (m : ast.mod_) :
  analyze_frames m <= 3 * height (ast.of_mod m) + 3.
Proof.
  unfold analyze_frames. cbn [list_max fold_right].
  pose proof (height_pos (ast.of_mod m)).
  pose proof (visitor_frames_le "visit_Call" (ast.of_mod m)).
  pose proof (visitor_frames_le "visit_ListComp" (ast.of_mod m)).
  pose proof (visitor_frames_le "visit_AugAssign" (ast.of_mod m)).
  pose proof (visitor_frames_le "visit_For" (ast.of_mod m)).
  pose proof (visitor_frames_le "visit_Compare" (ast.of_mod m)).
  lia.
Qed.

Lemma analyze_frames_ge (m : ast.mod_) :
  height (ast.of_mod m) + 4 <= analyze_frames m.
Proof. unfold analyze_frames. cbn [list_max fold_right]. lia. Qed.

(** ** The rewrite *)

Lemma list_ind2 {A : Type} (P : list A -> Prop) :
  P [] ->
  (forall x, P [x]) ->
  (forall x y l, P l -> P (y :: l) -> P (x :: y :: l)) ->
  forall l, P l.
Proof.
  intros Hnil Hone Hstep l.
  enough (H : P l /\ forall x, P (x :: l)) by apply H.
  induction l as [|y l [IH1 IH2]]; split; auto.
Qed.

(** The test looks at the next statement only. *)
Lemma append_idiom_head (cur next : ast.stmt) (rest : list ast.stmt) :
  append_idiom cur (next :: rest) = append_idiom cur [next].
Proof.
  unfold append_idiom.
  destruct cur as [| |targets value| | | | | | | |]; reflexivity.
Qed.

(** With no next statement, or one that is not a [for], nothing matches and
    nothing is raised. *)
Lemma append_idiom_not_For (cur : ast.stmt) (rest : list ast.stmt) :
  match rest with
  | next :: _ => is_For next = false
  | [] => True
  end ->
  append_idiom cur rest = inr None.
Proof.
  intros Hnext. unfold append_idiom.
  destruct cur as [| |targets value| | | | | | | |]; try reflexivity.
  destruct targets as [|t0 [|t1 ts]]; try reflexivity.
  destruct t0; try reflexivity.
  destruct value; try reflexivity.
  destruct elts; try reflexivity.
  destruct rest as [|next rest]; try reflexivity.
  destruct next; try reflexivity; discriminate.
Qed.

(** An assignment of anything but a list display never matches. *)
Lemma append_idiom_comp_assign (cur : ast.stmt) (rest : list ast.stmt) :
  is_comp_assign cur -> append_idiom cur rest = inr None.
Proof. intros (v & elt & gens & ->). reflexivity. Qed.

(** When the test succeeds, the two statements are the idiom. *)
Lemma append_idiom_Some (cur : ast.stmt) (rest : list ast.stmt)
  (assign : ast.stmt) :
  append_idiom cur rest = inr (Some assign) ->
  exists varname lineno target iter lineno' elt args keywords orelse rest',
    cur = ast.Assign [ast.Name varname] (ast.List [])
    /\ rest = ast.For lineno target iter
                [ast.Expr (ast.Call lineno'
                             (ast.Attribute (ast.Name varname) "append")
                             (elt :: args) keywords)] orelse :: rest'
    /\ assign = comp_assign varname elt target iter.
Proof.
  unfold append_idiom.
  destruct cur as [| |targets value| | | | | | | |]; try discriminate.
  destruct targets as [|t0 [|t1 ts]]; try discriminate.
  destruct t0 as [| | | | | | | | | | | |varname| |]; try discriminate.
  destruct value as [| | | | | | | | | | | | |elts|]; try discriminate.
  destruct elts; try discriminate.
  destruct rest as [|fnode rest']; try discriminate.
  destruct fnode as [| | | |lineno target iter fbody orelse| | | | | |];
    try discriminate.
  destruct fbody as [|b0 [|b1 bs]]; try discriminate.
  destruct b0 as [| | | | | | |v| | |]; try discriminate.
  destruct v as [| | | | | | |lineno' func args keywords| | | | | | |];
    try discriminate.
  destruct func as [| | | | | | | | |recv attr| | | | |]; try discriminate.
  destruct recv as [| | | | | | | | | | | |id| |]; try discriminate.
  simpl.
  destruct (String.eqb_spec attr "append") as [->|]; try discriminate.
  destruct (String.eqb_spec id varname) as [->|]; try discriminate.
  destruct args as [|elt args]; try discriminate.
  simpl. intros [= <-].
  now exists varname, lineno, target, iter, lineno', elt, args, keywords,
    orelse, rest'.
Qed.


Lemma visit_Module_loop_unfold (cur : ast.stmt) (rest new_body : list ast.stmt) :
  visit_Module_loop (cur :: rest) new_body
  = (r <- append_idiom cur rest ;;
     match r with
     | Some assign =>
         match rest with
         | _ :: rest' => visit_Module_loop rest' (new_body ++ [assign])
         | [] => ret (new_body ++ [assign])
         end
     | None => visit_Module_loop rest (new_body ++ [cur])
     end).
Proof. reflexivity. Qed.

(** [new_body] only ever grows at its end. *)
Lemma visit_Module_loop_acc (todo : list ast.stmt) :
  forall new_body,
    visit_Module_loop todo new_body
    = (r <- visit_Module_loop todo [] ;; ret (new_body ++ r)).
Proof.
  induction todo as [| x | x y l IHl IHyl] using list_ind2; intros acc.
  - simpl. now rewrite app_nil_r.
  - simpl. destruct (append_idiom x []) as [e|[a|]]; simpl; reflexivity.
  - rewrite !(visit_Module_loop_unfold x).
    destruct (append_idiom x (y :: l)) as [e|[a|]]; cbn [bind Monad_either].
    + reflexivity.
    + rewrite (IHl (acc ++ [a])), (IHl ([] ++ [a])).
      destruct (visit_Module_loop l []); simpl; [reflexivity|].
      now rewrite <- app_assoc.
    + rewrite (IHyl (acc ++ [x])), (IHyl ([] ++ [x])).
      destruct (visit_Module_loop (y :: l) []); simpl; [reflexivity|].
      now rewrite <- app_assoc.
Qed.

(** One step of the scan. *)
Lemma visit_Module_loop_cons (cur : ast.stmt) (rest : list ast.stmt) :
  visit_Module_loop (cur :: rest) []
  = (r <- append_idiom cur rest ;;
     match r with
     | Some assign =>
         out <- visit_Module_loop (tl rest) [] ;; ret (assign :: out)
     | None => out <- visit_Module_loop rest [] ;; ret (cur :: out)
     end).
Proof.
  rewrite visit_Module_loop_unfold.
  destruct (append_idiom cur rest) as [e|[a|]] eqn:E; cbn [bind Monad_either].
  - reflexivity.
  - destruct rest as [|next rest'].
    + now rewrite append_idiom_not_For in E.
    + now rewrite visit_Module_loop_acc.
  - now rewrite visit_Module_loop_acc.
Qed.



(** The first statement of the output is the first of the input or a
    comprehension assignment. *)
Lemma visit_Module_loop_head (st : ast.stmt) (rest out : list ast.stmt) :
  visit_Module_loop (st :: rest) [] = inr out ->
  exists h out', out = h :: out' /\ (h = st \/ is_comp_assign h).
Proof.
  rewrite visit_Module_loop_cons.
  destruct (append_idiom st rest) as [e|[a|]] eqn:E;
    cbn [bind Monad_either ret]; try discriminate.
  - destruct (visit_Module_loop (tl rest) []) as [e|out'];
      try discriminate.
    intros [= <-]. exists a, out'. split; [reflexivity|right].
    apply append_idiom_Some in E.
    destruct E as (v & _ & t & it & _ & elt & _ & _ & _ & _ & _ & _ & ->).
    now exists v, elt, [ast.comprehension t it [] 0].
  - destruct (visit_Module_loop rest []) as [e|out']; try discriminate.
    intros [= <-]. exists st, out'. auto.
Qed.

Lemma is_comp_assign_not_For (st : ast.stmt) :
  is_comp_assign st -> is_For st = false.
Proof. intros (v & elt & gens & ->). reflexivity. Qed.

(** The output of the scan holds no occurrence of the idiom: scanning it
    again returns it. *)
Lemma visit_Module_loop_idem (body : list ast.stmt) :
  forall out,
    visit_Module_loop body [] = inr out -> visit_Module_loop out [] = inr out.
Proof.
  induction body as [| x | x y l IHl IHyl] using list_ind2; intros out.
  - intros [= <-]. reflexivity.
  - rewrite visit_Module_loop_cons.
    rewrite append_idiom_not_For by exact I.
    intros [= <-]. rewrite visit_Module_loop_cons.
    rewrite append_idiom_not_For by exact I. reflexivity.
  - rewrite visit_Module_loop_cons.
    destruct (append_idiom x (y :: l)) as [e|[a|]] eqn:E;
      cbn [bind Monad_either ret tl]; try discriminate.
    + destruct (visit_Module_loop l []) as [e|out'] eqn:El; try discriminate.
      intros [= <-]. rewrite visit_Module_loop_cons.
      apply append_idiom_Some in E.
      destruct E as (v & _ & t & it & _ & elt & _ & _ & _ & _ & _ & _ & ->).
      rewrite append_idiom_comp_assign
        by (now exists v, elt, [ast.comprehension t it [] 0]).
      cbn [bind Monad_either ret]. now rewrite (IHl out').
    + destruct (visit_Module_loop (y :: l) []) as [e|out'] eqn:El;
        try discriminate.
      intros [= <-]. rewrite visit_Module_loop_cons.
      destruct (visit_Module_loop_head _ _ _ El) as (h & out'' & -> & Hh).
      assert (Hx : append_idiom x (h :: out'') = inr None).
      { destruct Hh as [->|Hh].
        - now rewrite append_idiom_head, <- (append_idiom_head x y l).
        - apply append_idiom_not_For. now apply is_comp_assign_not_For. }
      rewrite Hx. cbn [bind Monad_either ret]. now rewrite (IHyl _ eq_refl).
Qed.

(** The scan never lengthens the body, and keeps its length only by keeping
    every statement. *)
Lemma visit_Module_loop_length (body : list ast.stmt) :
  forall out,
    visit_Module_loop body [] = inr out ->
    length out <= length body /\ (length out = length body -> out = body).
Proof.
  induction body as [| x | x y l IHl IHyl] using list_ind2; intros out.
  - intros [= <-]. auto.
  - rewrite visit_Module_loop_cons.
    rewrite append_idiom_not_For by exact I. intros [= <-]. auto.
  - rewrite visit_Module_loop_cons.
    destruct (append_idiom x (y :: l)) as [e|[a|]];
      cbn [bind Monad_either ret tl]; try discriminate.
    + destruct (visit_Module_loop l []) as [e|out'] eqn:El; try discriminate.
      intros [= <-]. destruct (IHl _ eq_refl) as [Hle _]. simpl. split; lia.
    + destruct (visit_Module_loop (y :: l) []) as [e|out'] eqn:El;
        try discriminate.
      intros [= <-]. destruct (IHyl _ eq_refl) as [Hle Heq]. simpl in *.
      split; [lia|]. intros H. f_equal. apply Heq. lia.
Qed.

(** Line numbers play no part in the rewrite. *)
Lemma append_idiom_strip (cur : ast.stmt) (rest : list ast.stmt) :
  append_idiom (strip_stmt cur) (map strip_stmt rest)
  = (r <- append_idiom cur rest ;; ret (option_map strip_stmt r)).
Proof.
  unfold append_idiom.
  destruct cur as [| |targets value| | | | | | | |]; try reflexivity.
  destruct targets as [|t0 [|t1 ts]]; try reflexivity.
  destruct t0; try reflexivity.
  destruct value; try reflexivity.
  destruct elts; try reflexivity.
  destruct rest as [|fnode rest']; try reflexivity.
  destruct fnode as [| | | |lineno target iter fbody orelse| | | | | |];
    try reflexivity.
  destruct fbody as [|b0 [|b1 bs]]; try reflexivity.
  destruct b0 as [| | | | | | |v| | |]; try reflexivity.
  destruct v as [| | | | | | |lineno' func args keywords| | | | | | |];
    try reflexivity.
  destruct func as [| | | | | | | | |recv attr| | | | |]; try reflexivity.
  destruct recv; try reflexivity.
  simpl.
  destruct (String.eqb attr "append"), (String.eqb id0 id); try reflexivity.
  destruct args; reflexivity.
Qed.

Lemma visit_Module_loop_strip (body : list ast.stmt) :
  visit_Module_loop (map strip_stmt body) []
  = (out <- visit_Module_loop body [] ;; ret (map strip_stmt out)).
Proof.
  induction body as [| x | x y l IHl IHyl] using list_ind2.
  - reflexivity.
  - cbn [map]. rewrite !visit_Module_loop_cons.
    rewrite !append_idiom_not_For by exact I. reflexivity.
  - change (map strip_stmt (x :: y :: l))
      with (strip_stmt x :: map strip_stmt (y :: l)).
    rewrite (visit_Module_loop_cons (strip_stmt x)).
    rewrite (visit_Module_loop_cons x).
    rewrite append_idiom_strip.
    destruct (append_idiom x (y :: l)) as [e|[a|]];
      cbn [bind Monad_either ret option_map].
    + reflexivity.
    + change (tl (map strip_stmt (y :: l))) with (map strip_stmt l).
      change (tl (y :: l)) with l.
      rewrite IHl. destruct (visit_Module_loop l []); reflexivity.
    + rewrite IHyl. destruct (visit_Module_loop (y :: l) []); reflexivity.
Qed.

(** A body that the scan returns as it is stays so under any change of line
    numbers. *)
Lemma visit_Module_loop_settled_strip (body body1 : list ast.stmt) :
  visit_Module_loop body [] = inr body ->
  map strip_stmt body1 = map strip_stmt body ->
  visit_Module_loop body1 [] = inr body1.
Proof.
  intros Hsettled Hstrip.
  pose proof (visit_Module_loop_strip body) as Hb.
  pose proof (visit_Module_loop_strip body1) as Hb1.
  rewrite Hsettled in Hb. rewrite Hstrip, Hb in Hb1.
  destruct (visit_Module_loop body1 []) as [e|out] eqn:E; try discriminate.
  cbn [bind Monad_either ret] in Hb1. injection Hb1 as Hout.
  f_equal. apply (visit_Module_loop_length _ _ E).
  apply (f_equal (@length _)) in Hout, Hstrip.
  rewrite !length_map in Hout, Hstrip. lia.
Qed.



(** Every top-level statement is returned as it is, with all that it holds,
    unless it is an assignment of the empty list to a name or a loop whose
    body is one call of [append] on a name. *)
Lemma visit_Module_loop_keeps (body : list ast.stmt) :
  forall out st,
    visit_Module_loop body [] = inr out ->
    In st body ->
    ~ is_empty_list_assign st ->
    ~ is_append_loop st ->
    In st out.
Proof.
  induction body as [| x | x y l IHl IHyl] using list_ind2;
    intros out st Hout Hin Hassign Hloop.
  - destruct Hin.
  - rewrite visit_Module_loop_cons in Hout.
    rewrite append_idiom_not_For in Hout by exact I.
    now injection Hout as <-.
  - rewrite visit_Module_loop_cons in Hout.
    destruct (append_idiom x (y :: l)) as [e|[a|]] eqn:E;
      cbn [bind Monad_either ret tl] in Hout; try discriminate.
    + destruct (visit_Module_loop l []) as [e|out'] eqn:El;
        try discriminate.
      injection Hout as <-.
      apply append_idiom_Some in E.
      destruct E as (v & ln & t & it & ln' & elt & args & kws & orelse
                     & rest' & -> & [= -> ->] & _).
      destruct Hin as [<-|[<-|Hin]].
      * exfalso. apply Hassign. now exists v.
      * exfalso. apply Hloop.
        now exists ln, t, it, ln', v, (elt :: args), kws, orelse.
      * right. now apply (IHl out').
    + destruct (visit_Module_loop (y :: l) []) as [e|out'] eqn:El;
        try discriminate.
      injection Hout as <-.
      destruct Hin as [<-|Hin]; [now left|].
      right. now apply (IHyl out').
Qed.

(** ** Strings *)

Lemma string_app_assoc (a b c : string) :
  ((a ++ b) ++ c = a ++ (b ++ c))%string.
Proof. induction a as [|ch a IH]; simpl; [reflexivity | now rewrite IH]. Qed.

Lemma Contains_app_l (sub s t : string) :
  Contains sub s -> Contains sub (s ++ t)%string.
Proof.
  intros (before & after & ->). exists before, (after ++ t)%string.
  now rewrite !string_app_assoc.
Qed.

Lemma Contains_app_r (sub s t : string) :
  Contains sub t -> Contains sub (s ++ t)%string.
Proof.
  intros (before & after & ->). exists (s ++ before)%string, after.
  now rewrite !string_app_assoc.
Qed.

Lemma Contains_refl (s : string) : Contains s s.
Proof.
  exists ""%string, ""%string. simpl.
  induction s as [|ch s IH]; simpl; [reflexivity | now rewrite <- IH].
Qed.

Lemma Contains_join_ints (x : nat) (xs : list nat) :
  In x xs -> Contains (str_int x) (join_ints xs).
Proof.
  induction xs as [|y [|z xs] IH]; intros Hin.
  - destruct Hin.
  - destruct Hin as [->|[]]. apply Contains_refl.
  - change (join_ints (y :: z :: xs))
      with (str_int y ++ ", " ++ join_ints (z :: xs))%string.
    destruct Hin as [->|Hin].
    + apply Contains_app_l, Contains_refl.
    + apply Contains_app_r, Contains_app_r, IH, Hin.
Qed.

Lemma Contains_time_est_base (sub : string) (max_loops : nat)
  (lines : list nat) :
  Contains sub (time_est_text max_loops []) ->
  Contains sub (time_est_text max_loops lines).
Proof.
  unfold time_est_text. destruct lines; simpl truthy; cbv iota; [auto|].
  apply Contains_app_l.
Qed.

Lemma Contains_time_est_line (max_loops line : nat) (lines : list nat) :
  In line lines -> Contains (str_int line) (time_est_text max_loops lines).
Proof.
  intros Hin. unfold time_est_text.
  destruct lines as [|l0 lines]; [destruct Hin|]. simpl truthy. cbv iota.
  apply Contains_app_r, Contains_app_r, Contains_app_l.
  unfold str_int_list. apply Contains_app_r, Contains_app_l.
  now apply Contains_join_ints.
Qed.

Lemma time_est_text_classes (max_loops : nat) (lines : list nat) :
  (max_loops = 0 -> Contains "O(n) or O(1)" (time_est_text max_loops lines))
  /\ (max_loops = 1 -> Contains "O(n)" (time_est_text max_loops lines))
  /\ (2 <= max_loops ->
      Contains ("O(n^" ++ str_int max_loops ++ ")")
               (time_est_text max_loops lines)).
Proof.
  repeat split; intros H; apply Contains_time_est_base; unfold time_est_text;
    simpl truthy; cbv iota.
  - subst. now exists ""%string, " (no loops detected)"%string.
  - subst. now exists "Heuristic: "%string, " (one loop)."%string.
  - destruct max_loops as [|[|k]]; try lia. cbn [Nat.eqb].
    exists "Heuristic: "%string,
      (" (max loop nesting=" ++ str_int (S (S k)) ++ ")")%string.
    simpl. now rewrite !string_app_assoc.
Qed.

(** ** Facts about the stand-in services *)

Lemma stub_parse_message (source e : string) :
  stub_parse source = inl e -> e <> ""%string.
Proof.
  unfold stub_parse.
  destruct (find (fun p => String.eqb (fst p) source) stub_sources);
    intros [= <-]; discriminate.
Qed.

(** ** The analyzer *)

(** C3. When the text does not parse, [analyze_code] returns the dictionary
    with [ok] false and the parser's message under [parse_error], and no
    other key; the message is not empty, the parser's messages being so. *)
Theorem analyze_code_parse_failure
  (ast_parse : string -> string + ast.mod_)
  (Hmessage : forall source e, ast_parse source = inl e -> e <> ""%string)
  (code_str e : string) :
  ast_parse code_str = inl e ->
  analyze_code ast_parse code_str
  = inr (VDict [("ok", VBool false); ("parse_error", VStr e)])
  /\ e <> ""%string
  /\ forall key, key <> "ok"%string -> key <> "parse_error"%string ->
       dict_get [("ok", VBool false); ("parse_error", VStr e)] key
       = inl (KeyError key).
Proof.
  intros Hparse. split; [|split].
  - unfold analyze_code. now rewrite Hparse.
  - exact (Hmessage _ _ Hparse).
  - intros key Hok Herr. simpl.
    destruct (String.eqb_spec "ok" key) as [<-|_]; [congruence|].
    destruct (String.eqb_spec "parse_error" key) as [<-|_]; [congruence|].
    reflexivity.
Qed.

Lemma invalid_text_is_reported :
  analyze_code stub_parse invalid_src
  = inr (VDict [("ok", VBool false);
                ("parse_error", VStr "invalid syntax (<unknown>, line 1)")])
  /\ "invalid syntax (<unknown>, line 1)"%string <> ""%string
  /\ forall key, key <> "ok"%string -> key <> "parse_error"%string ->
       dict_get [("ok", VBool false);
                 ("parse_error", VStr "invalid syntax (<unknown>, line 1)")]
                key
       = inl (KeyError key).
Proof.
  apply (analyze_code_parse_failure stub_parse stub_parse_message invalid_src).
  reflexivity.
Defined.

(** The text [x = 1+1+...+1] with 600 terms parses, and on a host that
    allows a thousand nested calls [analyze_code] raises [RecursionError]
    on it; on a text with a null byte it raises the parser's
    [ValueError]. *)
Lemma deep_sum_escapes :
  stub_host_parse (sum_src 599) = inr (sum_tree 599)
  /\ host.analyze_code stub_host_parse 1000 (sum_src 599)
     = inl (RecursionError "maximum recursion depth exceeded")
  /\ host.analyze_code stub_host_parse 1000 nul_src
     = inl (ValueError "source code string cannot contain null bytes").
Proof. repeat split; vm_compute; reflexivity. Qed.

(** C4. [analyze_code] returns a report, and no exception escapes, for
    every text that the parser rejects with [SyntaxError] or accepts with a
    tree the host has frames to walk; three frames for each level of the
    tree and three more are enough, and with as many every detector and
    estimator returns. Any other exception of the parser escapes, and so
    does the [RecursionError] of a walk the host has no frames for, which
    is all that can escape on a text that parses. *)
Theorem analyze_code_on_host (ast_parse : string -> result ast.mod_)
  (frames : nat) (code_str : string) :
  (forall msg,
      ast_parse code_str = inl (SyntaxError msg) ->
      host.analyze_code ast_parse frames code_str
      = inr (VDict [("ok", VBool false); ("parse_error", VStr msg)]))
  /\ (forall e,
         ast_parse code_str = inl e ->
         (forall msg, e <> SyntaxError msg) ->
         host.analyze_code ast_parse frames code_str = inl e)
  /\ (forall m,
         ast_parse code_str = inr m ->
         (3 * height (ast.of_mod m) + 3 <= frames ->
          host.analyze_code ast_parse frames code_str
          = inr (VDict (report_of m)))
         /\ (frames < height (ast.of_mod m) + 4 ->
             host.analyze_code ast_parse frames code_str
             = inl host.recursion_error)
         /\ (host.analyze_code ast_parse frames code_str
             = inr (VDict (report_of m))
             \/ host.analyze_code ast_parse frames code_str
                = inl host.recursion_error))
  /\ (forall m : ast.mod_,
         3 * height (ast.of_mod m) + 3 <= frames ->
         host.find_string_concat_in_loops frames m = inr (concat_sites m)
         /\ host.find_list_append_patterns frames m = inr (append_sites m)
         /\ host.find_range_len_patterns frames m = inr (range_len_sites m)
         /\ host.detect_membership_of_list_in_loops frames m
            = inr (membership_sites m)
         /\ host.find_sorted_in_loops frames m = inr (sort_lines m)
         /\ host.max_loop_nesting frames (ast.of_mod m)
            = inr (loop_depth (ast.of_mod m))
         /\ host.estimate_time_complexity frames m = estimate_time_complexity m
         /\ host.estimate_space_complexity frames m
            = estimate_space_complexity m
         /\ (exists r, estimate_time_complexity m = inr r)
         /\ (exists r, estimate_space_complexity m = inr r)).
Proof.
  split; [|split; [|split]].
  - intros msg Hparse. unfold host.analyze_code. now rewrite Hparse.
  - intros e Hparse Hother. unfold host.analyze_code. rewrite Hparse.
    destruct e; try reflexivity. now destruct (Hother msg).
  - intros m Hparse. rewrite (host_analyze_code_parsed _ _ _ _ Hparse).
    pose proof (analyze_frames_le m). pose proof (analyze_frames_ge m).
    destruct (Nat.leb_spec (analyze_frames m) frames);
      (split; [|split]); try reflexivity; try lia; auto.
  - intros m Hframes.
    pose proof (visitor_frames_le "visit_AugAssign" (ast.of_mod m)).
    pose proof (visitor_frames_le "visit_Call" (ast.of_mod m)).
    pose proof (visitor_frames_le "visit_For" (ast.of_mod m)).
    pose proof (visitor_frames_le "visit_Compare" (ast.of_mod m)).
    pose proof (visitor_frames_le "visit_ListComp" (ast.of_mod m)).
    pose proof (height_pos (ast.of_mod m)).
    rewrite host_find_string_concat_eq, host_find_list_append_eq,
      host_find_range_len_eq, host_detect_membership_eq, host_find_sorted_eq,
      host_max_loop_nesting_eq, host_estimate_time_complexity_eq,
      host_estimate_space_complexity_eq.
    rewrite estimate_time_complexity_eq, estimate_space_complexity_eq.
    leb_cases frames; try lia.
    repeat split; try reflexivity; eexists; reflexivity.
Qed.

Lemma texts_analyzed_on_host :
  host.analyze_code stub_host_parse 100 invalid_src
  = inr (VDict [("ok", VBool false);
                ("parse_error", VStr "invalid syntax (<unknown>, line 1)")])
  /\ host.analyze_code stub_host_parse 100 nul_src
     = inl (ValueError "source code string cannot contain null bytes")
  /\ host.analyze_code stub_host_parse 100 sorts_src
     = inr (VDict (report_of sorts_tree))
  /\ host.analyze_code stub_host_parse 100 (sum_src 599)
     = inl host.recursion_error.
Proof.
  split; [|split; [|split]].
  - apply (proj1 (analyze_code_on_host stub_host_parse 100 invalid_src)).
    reflexivity.
  - apply (proj1 (proj2 (analyze_code_on_host stub_host_parse 100 nul_src)));
      [reflexivity | discriminate].
  - apply (proj1 (proj2 (proj2 (analyze_code_on_host stub_host_parse 100
                                  sorts_src))) sorts_tree);
      [reflexivity | vm_compute; lia].
  - apply (proj1 (proj2 (proj2 (analyze_code_on_host stub_host_parse 100
                                  (sum_src 599)))) (sum_tree 599));
      [vm_compute; reflexivity | vm_compute; lia].
Defined.

(** C7. On a text that parses, [max_loop_nesting] is the depth of nested
    [for] and [while] loops of the tree, which is [k] for [k] loops nested
    in one another around [pass]; the report carries it under
    [time_details], and the summary contains "O(n) or O(1)" at depth 0,
    "O(n)" at depth 1 and "O(n^k)" at depth [k >= 2]. *)
Theorem loop_nesting_estimate (ast_parse : string -> string + ast.mod_)
  (code_str : string) (m : ast.mod_) :
  ast_parse code_str = inr m ->
  max_loop_nesting (ast.of_mod m) = inr (loop_depth (ast.of_mod m))
  /\ (forall heads,
         m = ast.Module_ (nested_loops heads) ->
         max_loop_nesting (ast.of_mod m) = inr (length heads))
  /\ exists report details time_est,
      analyze_code ast_parse code_str = inr (VDict report)
      /\ dict_get report "time_details" = inr (VDict details)
      /\ dict_get details "max_loop_nesting"
         = inr (VInt (loop_depth (ast.of_mod m)))
      /\ dict_get report "time_estimate" = inr (VStr time_est)
      /\ (loop_depth (ast.of_mod m) = 0 -> Contains "O(n) or O(1)" time_est)
      /\ (loop_depth (ast.of_mod m) = 1 -> Contains "O(n)" time_est)
      /\ (2 <= loop_depth (ast.of_mod m) ->
          Contains ("O(n^" ++ str_int (loop_depth (ast.of_mod m)) ++ ")")
                   time_est).
Proof.
  intros Hparse. split; [apply max_loop_nesting_spec|]. split.
  - intros heads ->. rewrite max_loop_nesting_spec. simpl.
    now rewrite loop_depth_nested_loops.
  - eexists (report_of m), _, _.
    split; [exact (analyze_code_parsed _ _ _ Hparse)|].
    split; [reflexivity|]. split; [reflexivity|]. split; [reflexivity|].
    apply time_est_text_classes.
Qed.

Lemma two_nested_loops_are_counted :
  max_loop_nesting (ast.of_mod nested_tree)
  = inr (loop_depth (ast.of_mod nested_tree))
  /\ (forall heads,
         nested_tree = ast.Module_ (nested_loops heads) ->
         max_loop_nesting (ast.of_mod nested_tree) = inr (length heads))
  /\ exists report details time_est,
      analyze_code stub_parse nested_src = inr (VDict report)
      /\ dict_get report "time_details" = inr (VDict details)
      /\ dict_get details "max_loop_nesting"
         = inr (VInt (loop_depth (ast.of_mod nested_tree)))
      /\ dict_get report "time_estimate" = inr (VStr time_est)
      /\ (loop_depth (ast.of_mod nested_tree) = 0 ->
          Contains "O(n) or O(1)" time_est)
      /\ (loop_depth (ast.of_mod nested_tree) = 1 -> Contains "O(n)" time_est)
      /\ (2 <= loop_depth (ast.of_mod nested_tree) ->
          Contains
            ("O(n^" ++ str_int (loop_depth (ast.of_mod nested_tree)) ++ ")")
            time_est).
Proof.
  apply (loop_nesting_estimate stub_parse nested_src nested_tree).
  reflexivity.
Defined.

Lemma in_flat_map_intro {A B : Type} (f : A -> list B) (l : list A) (x : A)
  (y : B) :
  In x l -> In y (f x) -> In y (flat_map f l).
Proof. intros Hx Hy. apply in_flat_map. now exists x. Qed.

Lemma flat_map_split {A B : Type} (f : A -> list B) (l : list A) (x : A) :
  In x l ->
  exists before after, flat_map f l = before ++ f x ++ after.
Proof.
  intros Hin. destruct (in_split _ _ Hin) as (l1 & l2 & ->).
  exists (flat_map f l1), (flat_map f l2).
  now rewrite flat_map_app.
Qed.

Lemma length_sort_lines (nodes : list ast.AST) :
  length (flat_map sort_call_at nodes)
  = length (filter (fun n => negb (Nat.eqb (length (sort_call_at n)) 0)) nodes).
Proof.
  induction nodes as [|n nodes IH]; simpl; [reflexivity|].
  rewrite length_app, IH.
  assert (H : length (sort_call_at n) = 0 \/ length (sort_call_at n) = 1).
  { destruct n as [| |[]| |]; simpl; auto. destruct (is_sort_call func); auto. }
  destruct H as [->| ->]; reflexivity.
Qed.

(** C8. A call of [sorted] and a call of a method named [sort] each add one
    line number to the sort findings, and nothing else does: the findings
    are the lines of those calls of the tree, one per call. The report
    holds, after the findings of the other kinds, one dictionary of type
    [sort_in_loop] with the call's line for each of them, and the time
    summary contains the line number of every sort finding. *)
Theorem sort_calls_reported (ast_parse : string -> string + ast.mod_)
  (code_str : string) (m : ast.mod_) :
  ast_parse code_str = inr m ->
  (forall results lineno args keywords,
      find_sorted_in_loops.visit_Call
        (ast.of_expr (ast.Call lineno (ast.Name "sorted") args keywords))
        results
      = inr (results ++ [lineno]))
  /\ (forall results lineno receiver args keywords,
         find_sorted_in_loops.visit_Call
           (ast.of_expr
              (ast.Call lineno (ast.Attribute receiver "sort") args keywords))
           results
         = inr (results ++ [lineno]))
  /\ exists lines report others time_est,
      find_sorted_in_loops.run m = inr lines
      /\ (forall lineno,
             In lineno lines
             <-> exists func args keywords,
                 In (ast.of_expr (ast.Call lineno func args keywords))
                    (preorder (ast.of_mod m))
                 /\ (func = ast.Name "sorted"
                     \/ exists receiver, func = ast.Attribute receiver "sort"))
      /\ length lines
         = length (filter is_sort_call_node (preorder (ast.of_mod m)))
      /\ analyze_code ast_parse code_str = inr (VDict report)
      /\ dict_get report "detections"
         = inr (VList
                  (others
                   ++ map (fun lineno =>
                             VDict
                               [("type", VStr "sort_in_loop");
                                ("lineno", VInt lineno);
                                ("suggestion",
                                 VStr "Move sorting outside loop to avoid O(n log n) each iteration.")])
                          lines))
      /\ Forall (fun d =>
                   forall fields,
                     d = VDict fields ->
                     dict_get fields "type" <> inr (VStr "sort_in_loop"))
                others
      /\ dict_get report "time_estimate" = inr (VStr time_est)
      /\ forall lineno,
          In lineno lines -> Contains (str_int lineno) time_est.
Proof.
  intros Hparse. split; [intros; reflexivity|]. split; [intros; reflexivity|].
  exists (sort_lines m), (report_of m),
    (map string_concat_detection (concat_sites m)
     ++ map list_append_detection (append_sites m)
     ++ map range_len_detection (range_len_sites m)
     ++ map membership_detection (membership_sites m)),
    (time_est_text (loop_depth (ast.of_mod m)) (sort_lines m)).
  split; [apply find_sorted_in_loops_run|]. split; [|split].
  - intros lineno. unfold sort_lines. rewrite in_flat_map. split.
    + intros (n & Hn & Hin).
      destruct n as [| |e| |]; try contradiction.
      destruct e as [| | | | | | |l0 func args keywords| | | | | | |];
        try contradiction.
      simpl in Hin.
      destruct (is_sort_call func) eqn:Hsort; [|contradiction].
      destruct Hin as [<-|[]]. exists func, args, keywords.
      split; [exact Hn|].
      destruct func; try discriminate Hsort; simpl in Hsort;
        apply String.eqb_eq in Hsort; subst; [right; now eexists | now left].
    + intros (func & args & keywords & Hin & Hfunc).
      eexists. split; [exact Hin|]. simpl.
      destruct Hfunc as [->|[receiver ->]]; now left.
  - unfold sort_lines. induction (preorder (ast.of_mod m)) as [|n nodes IH];
      [reflexivity|].
    cbn [flat_map filter]. rewrite length_app, IH.
    destruct n as [| |e| |]; try reflexivity.
    destruct e as [| | | | | | |l0 func args keywords| | | | | | |];
      try reflexivity.
    destruct func; try reflexivity; simpl;
      match goal with |- context [String.eqb ?a ?b] =>
        destruct (String.eqb a b) end; reflexivity.
  - split; [exact (analyze_code_parsed _ _ _ Hparse)|].
    split; [simpl; now rewrite <- !app_assoc|].
    split; [|split; [reflexivity|]].
    + rewrite !Forall_app. repeat split; apply Forall_forall;
        intros d Hd; apply in_map_iff in Hd; destruct Hd as ([l v] & <- & _);
        intros fields [= <-]; discriminate.
    + intros lineno Hin. now apply Contains_time_est_line.
Qed.

Lemma both_sort_calls_are_reported :
  (forall results lineno args keywords,
      find_sorted_in_loops.visit_Call
        (ast.of_expr (ast.Call lineno (ast.Name "sorted") args keywords))
        results
      = inr (results ++ [lineno]))
  /\ (forall results lineno receiver args keywords,
         find_sorted_in_loops.visit_Call
           (ast.of_expr
              (ast.Call lineno (ast.Attribute receiver "sort") args keywords))
           results
         = inr (results ++ [lineno]))
  /\ exists lines report others time_est,
      find_sorted_in_loops.run sorts_tree = inr lines
      /\ (forall lineno,
             In lineno lines
             <-> exists func args keywords,
                 In (ast.of_expr (ast.Call lineno func args keywords))
                    (preorder (ast.of_mod sorts_tree))
                 /\ (func = ast.Name "sorted"
                     \/ exists receiver, func = ast.Attribute receiver "sort"))
      /\ length lines
         = length (filter is_sort_call_node (preorder (ast.of_mod sorts_tree)))
      /\ analyze_code stub_parse sorts_src = inr (VDict report)
      /\ dict_get report "detections"
         = inr (VList
                  (others
                   ++ map (fun lineno =>
                             VDict
                               [("type", VStr "sort_in_loop");
                                ("lineno", VInt lineno);
                                ("suggestion",
                                 VStr "Move sorting outside loop to avoid O(n log n) each iteration.")])
                          lines))
      /\ Forall (fun d =>
                   forall fields,
                     d = VDict fields ->
                     dict_get fields "type" <> inr (VStr "sort_in_loop"))
                others
      /\ dict_get report "time_estimate" = inr (VStr time_est)
      /\ forall lineno,
          In lineno lines -> Contains (str_int lineno) time_est.
Proof.
  apply (sort_calls_reported stub_parse sorts_src sorts_tree).
  reflexivity.
Defined.

(** The report on a text with the method call on line 1 and the call of
    [sorted] on line 2. *)
Example sorts_report :
  find_sorted_in_loops.run sorts_tree = inr [1; 2]
  /\ exists report,
      analyze_code stub_parse sorts_src = inr (VDict report)
      /\ dict_get report "detections"
         = inr (VList
                  [VDict
                     [("type", VStr "sort_in_loop");
                      ("lineno", VInt 1);
                      ("suggestion",
                       VStr "Move sorting outside loop to avoid O(n log n) each iteration.")];
                   VDict
                     [("type", VStr "sort_in_loop");
                      ("lineno", VInt 2);
                      ("suggestion",
                       VStr "Move sorting outside loop to avoid O(n log n) each iteration.")]])
      /\ dict_get report "time_estimate"
         = inr (VStr "O(n) or O(1) (no loops detected) Sorting detected at lines [1, 2] (O(n log n)).").
Proof. split; [reflexivity|]. eexists. repeat split. Qed.

(** C10. At a comparison whose first comparator is a bare name,
    [visit_Compare] adds one finding per [in] operator of the chain, each
    with the line of the comparison and the name of that first comparator,
    whatever stands to the right of the later operators; the findings of
    the detector over a module hold that block for each such comparison of
    the tree. *)
Theorem chained_membership_findings (m : ast.mod_) (lineno : nat)
  (lhs : ast.expr) (ops : list ast.cmpop) (id : string)
  (comparators : list ast.expr) :
  In (ast.of_expr (ast.Compare lineno lhs ops (ast.Name id :: comparators)))
     (preorder (ast.of_mod m)) ->
  (forall results,
      detect_membership_of_list_in_loops.visit_Compare
        (ast.of_expr (ast.Compare lineno lhs ops (ast.Name id :: comparators)))
        results
      = inr (results ++ repeat (lineno, id) (count_In ops)))
  /\ (forall lhs' first second,
         detect_membership_of_list_in_loops.visit_Compare
           (ast.of_expr
              (ast.Compare lineno lhs' [ast.In; ast.In]
                 [ast.Name id; first; second]))
           []
         = inr [(lineno, id); (lineno, id)])
  /\ exists before after,
      detect_membership_of_list_in_loops.run m
      = inr (before ++ repeat (lineno, id) (count_In ops) ++ after).
Proof.
  intros Hin. split; [|split].
  - intros results. now rewrite visit_Compare_emits.
  - intros. reflexivity.
  - rewrite detect_membership_run.
    destruct (flat_map_split membership_at _ _ Hin) as (before & after & ->).
    now exists before, after.
Qed.

Lemma chain_names_first_comparator :
  (forall results,
      detect_membership_of_list_in_loops.visit_Compare
        (ast.of_expr
           (ast.Compare 1 (ast.Name "a") [ast.In; ast.In]
              (ast.Name "b" :: [ast.Name "c"])))
        results
      = inr (results ++ [(1, "b"%string); (1, "b"%string)]))
  /\ (forall lhs' first second,
         detect_membership_of_list_in_loops.visit_Compare
           (ast.of_expr
              (ast.Compare 1 lhs' [ast.In; ast.In]
                 [ast.Name "b"; first; second]))
           []
         = inr [(1, "b"%string); (1, "b"%string)])
  /\ exists before after,
      detect_membership_of_list_in_loops.run chain_tree
      = inr (before ++ [(1, "b"%string); (1, "b"%string)] ++ after).
Proof.
  apply (chained_membership_findings chain_tree 1 (ast.Name "a")
           [ast.In; ast.In] "b" [ast.Name "c"]).
  simpl. right. right. now left.
Defined.

(** The detector on [a in b in c]: two findings, both naming [b]. *)
Example chain_findings :
  detect_membership_of_list_in_loops.run chain_tree
  = inr [(1, "b"%string); (1, "b"%string)].
Proof. reflexivity. Qed.

(** ** The refactorer *)

Lemma auto_refactor_parsed (ast_parse : string -> string + ast.mod_)
  (safe_unparse : ast.mod_ -> string)
  (format_str : option (string -> option string))
  (code_str : string) (body new_body : list ast.stmt) :
  ast_parse code_str = inr (ast.Module_ body) ->
  visit_Module_loop body [] = inr new_body ->
  auto_refactor ast_parse safe_unparse format_str code_str
  = inr (formatted format_str (safe_unparse (ast.Module_ new_body))).
Proof.
  intros Hparse Hloop. unfold auto_refactor, visit_Module.
  rewrite Hparse, Hloop. reflexivity.
Qed.

Lemma stub_parse_grammar (source : string) (m : ast.mod_) :
  stub_parse source = inr m -> assigns_starred_comprehension m = false.
Proof.
  unfold stub_parse.
  destruct (find (fun p => String.eqb (fst p) source) stub_sources)
    as [p|] eqn:Hfind; [|discriminate].
  intros [= <-]. apply find_some in Hfind. destruct Hfind as [Hin _].
  simpl in Hin.
  repeat (destruct Hin as [<-|Hin]; [reflexivity|]). destruct Hin.
Qed.

Lemma assigns_starred_comprehension_strip (m : ast.mod_) :
  assigns_starred_comprehension (strip_mod m)
  = assigns_starred_comprehension m.
Proof.
  destruct m as [body]. simpl.
  induction body as [|st body IH]; [reflexivity|].
  cbn [map existsb]. rewrite IH. f_equal.
  destruct st as [| |targets value| | | | | | | |]; try reflexivity.
  destruct value as [| | | | |elt generators| | | | | | | | |];
    try reflexivity.
  destruct elt; reflexivity.
Qed.

(** The text [auto_refactor] returns for [starred_tree] does not parse,
    when the parser follows the grammar and the serialiser is faithful at
    the rewritten tree. *)
Lemma starred_output_rejected (ast_parse : string -> string + ast.mod_)
  (code_out : string) :
  (forall source m,
      ast_parse source = inr m -> assigns_starred_comprehension m = false) ->
  (forall m',
      ast_parse code_out = inr m' ->
      strip_mod m' = strip_mod starred_rewritten) ->
  exists msg, ast_parse code_out = inl msg.
Proof.
  intros Hgrammar Hfaithful.
  destruct (ast_parse code_out) as [msg|m'] eqn:Hparse; [now exists msg|].
  pose proof (Hgrammar _ _ Hparse) as Hnone.
  rewrite <- assigns_starred_comprehension_strip in Hnone.
  rewrite (Hfaithful _ eq_refl) in Hnone. discriminate Hnone.
Qed.

(** C1. The rewrite takes the first argument of [append] whatever it is:
    on [x = []] followed by [for i in y: x.append( *ys)] it builds
    [x = [ *ys for i in y]], a comprehension with a starred element, and
    [auto_refactor] returns its text. The grammar has no such form, so a
    parser that follows the grammar rejects the text, the serialiser
    having printed the tree it was given. *)
Theorem auto_refactor_starred_argument
  (ast_parse : string -> string + ast.mod_)
  (safe_unparse : ast.mod_ -> string)
  (format_str : option (string -> option string))
  (code_str : string) :
  (forall source m,
      ast_parse source = inr m -> assigns_starred_comprehension m = false) ->
  (forall m',
      ast_parse (formatted format_str (safe_unparse starred_rewritten))
      = inr m' ->
      strip_mod m' = strip_mod starred_rewritten) ->
  ast_parse code_str = inr starred_tree ->
  visit_Module starred_tree
  = inr (ast.Module_
           [ast.Assign [ast.Name "x"]
              (ast.ListComp (ast.Starred (ast.Name "ys"))
                 [ast.comprehension (ast.Name "i") (ast.Name "y") [] 0])])
  /\ exists code_out msg,
      auto_refactor ast_parse safe_unparse format_str code_str = inr code_out
      /\ code_out = formatted format_str (safe_unparse starred_rewritten)
      /\ ast_parse code_out = inl msg.
Proof.
  intros Hgrammar Hfaithful Hparse. split; [reflexivity|].
  destruct (starred_output_rejected ast_parse _ Hgrammar Hfaithful)
    as [msg Hmsg].
  exists (formatted format_str (safe_unparse starred_rewritten)), msg.
  split; [|split; [reflexivity | exact Hmsg]].
  unfold auto_refactor. rewrite Hparse. reflexivity.
Qed.

Lemma starred_text_is_rejected :
  visit_Module starred_tree
  = inr (ast.Module_
           [ast.Assign [ast.Name "x"]
              (ast.ListComp (ast.Starred (ast.Name "ys"))
                 [ast.comprehension (ast.Name "i") (ast.Name "y") [] 0])])
  /\ exists code_out msg,
      auto_refactor stub_parse print_module None starred_src = inr code_out
      /\ code_out = formatted None (print_module starred_rewritten)
      /\ stub_parse code_out = inl msg.
Proof.
  apply (auto_refactor_starred_argument stub_parse print_module None
           starred_src stub_parse_grammar).
  - intros m' H. vm_compute in H. discriminate H.
  - reflexivity.
Defined.



(** C2. A text that parses can make [auto_refactor] raise something other
    than a parse error: on [x = []] followed by [for i in y: x.append()]
    the unguarded [call.args[0]] raises [IndexError]. *)
Theorem auto_refactor_raises_IndexError
  (ast_parse : string -> string + ast.mod_)
  (safe_unparse : ast.mod_ -> string)
  (format_str : option (string -> option string)) (code_str : string) :
  ast_parse code_str = inr empty_append_tree ->
  auto_refactor ast_parse safe_unparse format_str code_str
  = inl (IndexError "list index out of range").
Proof.
  intros Hparse. unfold auto_refactor. rewrite Hparse. reflexivity.
Qed.

Lemma empty_append_raises :
  auto_refactor stub_parse stub_unparse None empty_append_src
  = inl (IndexError "list index out of range").
Proof.
  apply (auto_refactor_raises_IndexError stub_parse stub_unparse None
           empty_append_src).
  reflexivity.
Defined.

(** C5. An occurrence of the idiom below the top level is not always left
    as it is: when it stands in the [else] clause of a top-level loop that
    is itself rewritten, it disappears with the clause. *)
Theorem auto_refactor_drops_else_clause
  (ast_parse : string -> string + ast.mod_)
  (safe_unparse : ast.mod_ -> string)
  (format_str : option (string -> option string)) (code_str : string) :
  ast_parse code_str = inr for_else_tree ->
  visit_Module for_else_tree
  = inr (ast.Module_
           [ast.Assign [ast.Name "a"]
              (ast.ListComp (ast.Name "x")
                 [ast.comprehension (ast.Name "x") (ast.Name "xs") [] 0])])
  /\ auto_refactor ast_parse safe_unparse format_str code_str
     = inr (formatted format_str
              (safe_unparse
                 (ast.Module_
                    [ast.Assign [ast.Name "a"]
                       (ast.ListComp (ast.Name "x")
                          [ast.comprehension (ast.Name "x") (ast.Name "xs")
                             [] 0])]))).
Proof.
  intros Hparse. split; [reflexivity|].
  unfold auto_refactor. rewrite Hparse. reflexivity.
Qed.

Lemma else_clause_is_dropped :
  visit_Module for_else_tree
  = inr (ast.Module_
           [ast.Assign [ast.Name "a"]
              (ast.ListComp (ast.Name "x")
                 [ast.comprehension (ast.Name "x") (ast.Name "xs") [] 0])])
  /\ auto_refactor stub_parse stub_unparse None for_else_src
     = inr (formatted None
              (stub_unparse
                 (ast.Module_
                    [ast.Assign [ast.Name "a"]
                       (ast.ListComp (ast.Name "x")
                          [ast.comprehension (ast.Name "x") (ast.Name "xs")
                             [] 0])]))).
Proof.
  apply (auto_refactor_drops_else_clause stub_parse stub_unparse None
           for_else_src).
  reflexivity.
Defined.

(** C6. [auto_refactor] cannot always be applied to its own output: the
    text it returns for [x = []] followed by [for i in y: x.append( *ys)]
    is rejected by a parser that follows the grammar, so the second
    application raises [SyntaxError] instead of returning the text
    again. *)
Theorem auto_refactor_twice_raises
  (ast_parse : string -> string + ast.mod_)
  (safe_unparse : ast.mod_ -> string)
  (format_str : option (string -> option string))
  (code_str : string) :
  (forall source m,
      ast_parse source = inr m -> assigns_starred_comprehension m = false) ->
  (forall m',
      ast_parse (formatted format_str (safe_unparse starred_rewritten))
      = inr m' ->
      strip_mod m' = strip_mod starred_rewritten) ->
  ast_parse code_str = inr starred_tree ->
  exists code_out msg,
    auto_refactor ast_parse safe_unparse format_str code_str = inr code_out
    /\ auto_refactor ast_parse safe_unparse format_str code_out
       = inl (SyntaxError msg).
Proof.
  intros Hgrammar Hfaithful Hparse.
  destruct (starred_output_rejected ast_parse _ Hgrammar Hfaithful)
    as [msg Hmsg].
  exists (formatted format_str (safe_unparse starred_rewritten)), msg.
  split.
  - unfold auto_refactor. rewrite Hparse. reflexivity.
  - unfold auto_refactor. rewrite Hmsg. reflexivity.
Qed.

Lemma starred_text_is_not_refactored_twice :
  exists code_out msg,
    auto_refactor stub_parse print_module None starred_src = inr code_out
    /\ auto_refactor stub_parse print_module None code_out
       = inl (SyntaxError msg).
Proof.
  apply (auto_refactor_twice_raises stub_parse print_module None starred_src
           stub_parse_grammar).
  - intros m' H. vm_compute in H. discriminate H.
  - reflexivity.
Defined.

(** ** The default example of the application *)

(** On the text the application shows by default, the first two statements
    are rewritten and the other three kept. *)
Example default_example_refactored :
  visit_Module default_example_tree
  = inr (ast.Module_
           (comp_assign "result"
              (ast.Call 3 (ast.Name "f") [ast.Name "x"] [])
              (ast.Name "x") (ast.Name "items")
            :: tl (tl (match default_example_tree with
                       | ast.Module_ body => body
                       end)))).
Proof. reflexivity. Qed.

(** Its findings: one string concatenation, one append, one [range(len())]
    loop. *)
Example default_example_findings :
  concat_sites default_example_tree = [(7, "s"%string)]
  /\ append_sites default_example_tree = [(3, "result"%string)]
  /\ range_len_sites default_example_tree = [(9, "arr"%string)]
  /\ membership_sites default_example_tree = []
  /\ sort_lines default_example_tree = [].
Proof. repeat split. Qed.

(** * Further properties *)

(** ** More on the rewrite *)

Lemma append_idiom_not_assign (cur : ast.stmt) (rest : list ast.stmt) :
  ~ is_empty_list_assign cur -> append_idiom cur rest = inr None.
Proof.
  intros Hcur. unfold append_idiom.
  destruct cur as [| |targets value| | | | | | | |]; try reflexivity.
  destruct targets as [|t0 [|t1 ts]]; try reflexivity.
  destruct t0 as [| | | | | | | | | | | |varname| |]; try reflexivity.
  destruct value as [| | | | | | | | | | | | |elts|]; try reflexivity.
  destruct elts; try reflexivity.
  exfalso. apply Hcur. now exists varname.
Qed.

Lemma visit_Module_loop_sound (body : list ast.stmt) :
  forall out,
    visit_Module_loop body [] = inr out ->
    Forall (fun st =>
              In st body
              \/ exists varname elt target iter,
                  st = comp_assign varname elt target iter
                  /\ In (ast.Assign [ast.Name varname] (ast.List [])) body)
           out.
Proof.
  induction body as [| x | x y l IHl IHyl] using list_ind2; intros out.
  - intros [= <-]. constructor.
  - rewrite visit_Module_loop_cons.
    rewrite append_idiom_not_For by exact I. intros [= <-].
    repeat constructor.
  - rewrite visit_Module_loop_cons.
    destruct (append_idiom x (y :: l)) as [e|[a|]] eqn:E;
      cbn [bind Monad_either ret tl]; try discriminate.
    + destruct (visit_Module_loop l []) as [e|out'] eqn:El; try discriminate.
      intros [= <-].
      apply append_idiom_Some in E.
      destruct E as (v & ln & t & it & ln' & elt & args & kws & orelse
                     & rest' & -> & _ & ->).
      constructor.
      * right. exists v, elt, t, it. split; [reflexivity | now left].
      * eapply Forall_impl; [|exact (IHl _ eq_refl)].
        intros st [Hin|(v' & elt' & t' & it' & Heq & Hin)].
        -- left. now right; right.
        -- right. exists v', elt', t', it'. split; [exact Heq|].
           now right; right.
    + destruct (visit_Module_loop (y :: l) []) as [e|out'] eqn:El;
        try discriminate.
      intros [= <-]. constructor; [left; now left|].
      eapply Forall_impl; [|exact (IHyl _ eq_refl)].
      intros st [Hin|(v' & elt' & t' & it' & Heq & Hin)].
      * left. now right.
      * right. exists v', elt', t', it'. split; [exact Heq | now right].
Qed.





(** X2. A module with no top-level assignment of the empty list to a name,
    or with no top-level [for] loop, is returned as it is by
    [visit_Module]. *)
Theorem visit_Module_without_idiom (body : list ast.stmt) :
  Forall (fun st => ~ is_empty_list_assign st) body
  \/ Forall (fun st => is_For st = false) body ->
  visit_Module (ast.Module_ body) = inr (ast.Module_ body).
Proof.
  intros H. unfold visit_Module.
  enough (Hloop : visit_Module_loop body [] = inr body)
    by (now rewrite Hloop).
  destruct H as [H|H].
  - induction H as [|x l Hx _ IH]; [reflexivity|].
    rewrite visit_Module_loop_cons, (append_idiom_not_assign _ _ Hx).
    cbn [bind Monad_either ret]. now rewrite IH.
  - induction H as [|x l Hx Hl IH]; [reflexivity|].
    rewrite visit_Module_loop_cons.
    rewrite append_idiom_not_For by (destruct Hl; [exact I | assumption]).
    cbn [bind Monad_either ret]. now rewrite IH.
Qed.

Lemma concat_loop_is_kept :
  visit_Module
    (ast.Module_
       [ast.Assign [ast.Name "s"] (ast.Constant (ast.CStr ""));
        ast.For 2 (ast.Name "x") (ast.Name "words")
          [ast.AugAssign 3 (ast.Name "s") ast.Add (ast.Name "x")] []])
  = inr (ast.Module_
           [ast.Assign [ast.Name "s"] (ast.Constant (ast.CStr ""));
            ast.For 2 (ast.Name "x") (ast.Name "words")
              [ast.AugAssign 3 (ast.Name "s") ast.Add (ast.Name "x")] []]).
Proof.
  apply visit_Module_without_idiom. left.
  repeat constructor; intros [v H]; discriminate.
Defined.

(** X3. [visit_Module] never returns more top-level statements than it was
    given, and returns as many only when it returns the module as it is. *)
Theorem visit_Module_length (body out : list ast.stmt) :
  visit_Module (ast.Module_ body) = inr (ast.Module_ out) ->
  length out <= length body /\ (length out = length body -> out = body).
Proof.
  unfold visit_Module.
  destruct (visit_Module_loop body []) as [e|out'] eqn:Hloop;
    cbn [bind Monad_either ret]; try discriminate.
  intros [= <-]. exact (visit_Module_loop_length _ _ Hloop).
Qed.

Lemma idiom_pair_shrinks :
  length [comp_assign "result"
            (ast.Call 3 (ast.Name "f") [ast.Name "x"] [])
            (ast.Name "x") (ast.Name "items")]
  <= length [ast.Assign [ast.Name "result"] (ast.List []);
             ast.For 2 (ast.Name "x") (ast.Name "items")
               [ast.Expr (ast.Call 3
                            (ast.Attribute (ast.Name "result") "append")
                            [ast.Call 3 (ast.Name "f") [ast.Name "x"] []] [])]
               []]
  /\ (length [comp_assign "result"
                (ast.Call 3 (ast.Name "f") [ast.Name "x"] [])
                (ast.Name "x") (ast.Name "items")]
      = length [ast.Assign [ast.Name "result"] (ast.List []);
                ast.For 2 (ast.Name "x") (ast.Name "items")
                  [ast.Expr (ast.Call 3
                               (ast.Attribute (ast.Name "result") "append")
                               [ast.Call 3 (ast.Name "f") [ast.Name "x"] []]
                               [])] []] ->
      [comp_assign "result"
         (ast.Call 3 (ast.Name "f") [ast.Name "x"] [])
         (ast.Name "x") (ast.Name "items")]
      = [ast.Assign [ast.Name "result"] (ast.List []);
         ast.For 2 (ast.Name "x") (ast.Name "items")
           [ast.Expr (ast.Call 3
                        (ast.Attribute (ast.Name "result") "append")
                        [ast.Call 3 (ast.Name "f") [ast.Name "x"] []] [])]
           []]).
Proof.
  apply visit_Module_length. reflexivity.
Defined.

(** X4. Every top-level statement [visit_Module] returns is a statement of
    the input or the comprehension assignment to a name that the input
    assigns the empty list to; and every input statement that is neither
    such an assignment nor a loop whose body is one call of [append] on a
    name is returned, with all that it holds. *)
Theorem visit_Module_frame (body out : list ast.stmt) :
  visit_Module (ast.Module_ body) = inr (ast.Module_ out) ->
  Forall (fun st =>
            In st body
            \/ exists varname elt target iter,
                st = comp_assign varname elt target iter
                /\ In (ast.Assign [ast.Name varname] (ast.List [])) body)
         out
  /\ forall st,
      In st body ->
      ~ is_empty_list_assign st -> ~ is_append_loop st -> In st out.
Proof.
  unfold visit_Module.
  destruct (visit_Module_loop body []) as [e|out'] eqn:Hloop;
    cbn [bind Monad_either ret]; try discriminate.
  intros [= <-]. split.
  - now apply visit_Module_loop_sound.
  - intros st. now apply visit_Module_loop_keeps.
Qed.

Lemma default_example_frame :
  Forall (fun st =>
            In st (match default_example_tree with
                   | ast.Module_ body => body
                   end)
            \/ exists varname elt target iter,
                st = comp_assign varname elt target iter
                /\ In (ast.Assign [ast.Name varname] (ast.List []))
                      (match default_example_tree with
                       | ast.Module_ body => body
                       end))
         (comp_assign "result"
            (ast.Call 3 (ast.Name "f") [ast.Name "x"] [])
            (ast.Name "x") (ast.Name "items")
          :: tl (tl (match default_example_tree with
                     | ast.Module_ body => body
                     end)))
  /\ forall st,
      In st (match default_example_tree with
             | ast.Module_ body => body
             end) ->
      ~ is_empty_list_assign st -> ~ is_append_loop st ->
      In st (comp_assign "result"
               (ast.Call 3 (ast.Name "f") [ast.Name "x"] [])
               (ast.Name "x") (ast.Name "items")
             :: tl (tl (match default_example_tree with
                        | ast.Module_ body => body
                        end))).
Proof.
  apply visit_Module_frame. reflexivity.
Defined.

(** X5. The rewrite never raises the loop-nesting estimate: the tree
    returned by [visit_Module] nests loops no deeper than the input. *)
Theorem visit_Module_loop_depth (m m' : ast.mod_) :
  visit_Module m = inr m' ->
  exists k k',
    max_loop_nesting (ast.of_mod m) = inr k
    /\ max_loop_nesting (ast.of_mod m') = inr k'
    /\ k' <= k.
Proof.
  destruct m as [body], m' as [out]. intros Hvisit.
  exists (loop_depth (ast.of_mod (ast.Module_ body))),
    (loop_depth (ast.of_mod (ast.Module_ out))).
  rewrite !max_loop_nesting_spec. split; [reflexivity|].
  split; [reflexivity|]. simpl.
  unfold visit_Module in Hvisit.
  destruct (visit_Module_loop body []) as [e|out'] eqn:Hloop;
    cbn [bind Monad_either ret] in Hvisit; try discriminate.
  injection Hvisit as <-.
  pose proof (visit_Module_loop_sound _ _ Hloop) as Hsound.
  apply list_max_le, Forall_map.
  eapply Forall_impl; [|exact Hsound].
  intros st [Hin|(v & elt & t & it & -> & _)].
  - assert (H : list_max (map loop_depth_stmt body)
                <= list_max (map loop_depth_stmt body)) by lia.
    apply list_max_le in H. rewrite Forall_map, Forall_forall in H.
    now apply H.
  - simpl. lia.
Qed.

Lemma idiom_rewrite_lowers_depth :
  exists k k',
    max_loop_nesting (ast.of_mod idiom_tree) = inr k
    /\ max_loop_nesting (ast.of_mod
                           (ast.Module_
                              [comp_assign "result"
                                 (ast.Call 3 (ast.Name "f") [ast.Name "x"] [])
                                 (ast.Name "x") (ast.Name "items")]))
       = inr k'
    /\ k' <= k.
Proof.
  apply visit_Module_loop_depth. reflexivity.
Defined.

(** X6. Line numbers play no part in the rewrite: rewriting a module whose
    line numbers are cleared gives the rewritten module with its line
    numbers cleared, and raises when the rewrite of the module does. *)
Theorem visit_Module_strip (m : ast.mod_) :
  visit_Module (strip_mod m)
  = (m' <- visit_Module m ;; ret (strip_mod m')).
Proof.
  destruct m as [body]. unfold visit_Module, strip_mod.
  rewrite visit_Module_loop_strip.
  destruct (visit_Module_loop body []); reflexivity.
Qed.

(** X7. The formatter has no say in whether [auto_refactor] returns: it
    raises with a formatter exactly when it raises without one, and when it
    returns, the text is the formatter's output on the unformatted result,
    or the unformatted result itself where the formatter raises. *)
Theorem auto_refactor_formatter
  (ast_parse : string -> string + ast.mod_)
  (safe_unparse : ast.mod_ -> string)
  (fmt : string -> option string) (code_str : string) :
  (forall e,
      auto_refactor ast_parse safe_unparse (Some fmt) code_str = inl e
      <-> auto_refactor ast_parse safe_unparse None code_str = inl e)
  /\ forall code_out,
      auto_refactor ast_parse safe_unparse None code_str = inr code_out ->
      auto_refactor ast_parse safe_unparse (Some fmt) code_str
      = inr (match fmt code_out with
             | Some formatted_code => formatted_code
             | None => code_out
             end).
Proof.
  unfold auto_refactor.
  destruct (ast_parse code_str) as [msg|m].
  - split; [reflexivity | discriminate].
  - destruct (visit_Module m) as [e0|m']; cbn [bind Monad_either ret].
    + split; [reflexivity | discriminate].
    + split; [split; discriminate|].
      intros code_out [= <-]. reflexivity.
Qed.



Example idiom_text_refactored :
  auto_refactor stub_parse print_module None idiom_src
  = inr comprehension_src.
Proof. vm_compute. reflexivity. Qed.

(** X21. The tree the rewrite returns has nothing left to rewrite:
    [visit_Module] returns it as it is, and so it does for any tree that
    differs from it in line numbers only. *)
Theorem visit_Module_idempotent (m m1 : ast.mod_) :
  visit_Module m = inr m1 ->
  visit_Module m1 = inr m1
  /\ forall m2, strip_mod m2 = strip_mod m1 -> visit_Module m2 = inr m2.
Proof.
  destruct m as [body], m1 as [body1]. unfold visit_Module.
  destruct (visit_Module_loop body []) as [e|out] eqn:Hloop; [discriminate|].
  intros [= <-]. pose proof (visit_Module_loop_idem _ _ Hloop) as Hidem.
  split; [now rewrite Hidem|].
  intros [body2] [= Hstrip].
  now rewrite (visit_Module_loop_settled_strip _ _ Hidem Hstrip).
Qed.

Lemma rewritten_idiom_is_settled :
  visit_Module comprehension_tree = inr comprehension_tree.
Proof.
  apply (visit_Module_idempotent idiom_tree
           (ast.Module_
              [comp_assign "result"
                 (ast.Call 3 (ast.Name "f") [ast.Name "x"] [])
                 (ast.Name "x") (ast.Name "items")])); reflexivity.
Defined.

(** ** More on the detectors *)

Ltac invert_at H :=
  repeat match type of H with
         | In _ [] => destruct H
         | In _ (_ :: _) => destruct H as [H|H]
         | _ \/ False => destruct H as [H|[]]
         | In _ (match ?x with _ => _ end) =>
             destruct x eqn:?; try contradiction; simpl in H
         | False => destruct H
         end.

(** X8. [find_string_concat_in_loops] returns the pair [(lineno, name)]
    exactly for the augmented assignments [name += ...] of the tree,
    inside a loop or not. *)
Theorem string_concat_findings (m : ast.mod_) :
  exists r,
    find_string_concat_in_loops.run m = inr r
    /\ forall lineno id,
        In (lineno, id) r
        <-> exists value,
            In (ast.of_stmt (ast.AugAssign lineno (ast.Name id) ast.Add value))
               (preorder (ast.of_mod m)).
Proof.
  exists (concat_sites m). split; [apply find_string_concat_in_loops_run|].
  intros lineno id. unfold concat_sites. rewrite in_flat_map. split.
  - intros (n & Hn & Hin). unfold string_concat_at in Hin. invert_at Hin.
    injection Hin as <- <-. subst. eexists. eassumption.
  - intros (value & Hin). eexists. split; [exact Hin|]. now left.
Qed.

(** X9. [find_list_append_patterns] returns [(lineno, name)] exactly for
    the calls [name.append(...)] of the tree, whatever their arguments. *)
Theorem list_append_findings (m : ast.mod_) :
  exists r,
    find_list_append_patterns.run m = inr r
    /\ forall lineno id,
        In (lineno, id) r
        <-> exists args keywords,
            In (ast.of_expr
                  (ast.Call lineno (ast.Attribute (ast.Name id) "append")
                     args keywords))
               (preorder (ast.of_mod m)).
Proof.
  exists (append_sites m). split; [apply find_list_append_patterns_run|].
  intros lineno id. unfold append_sites. rewrite in_flat_map. split.
  - intros (n & Hn & Hin). unfold list_append_at in Hin. invert_at Hin.
    injection Hin as <- <-. subst.
    match goal with H : String.eqb _ _ = true |- _ =>
      apply String.eqb_eq in H; subst end.
    eexists _, _. eassumption.
  - intros (args & keywords & Hin). eexists. split; [exact Hin|]. now left.
Qed.

(** X10. [find_range_len_patterns] returns [(lineno, name)] exactly for the
    [for] loops of the tree whose iterable is a call of [range] whose first
    argument is a call of [len] whose first argument is the bare name. *)
Theorem range_len_findings (m : ast.mod_) :
  exists r,
    find_range_len_patterns.run m = inr r
    /\ forall lineno id,
        In (lineno, id) r
        <-> exists target l1 l2 more1 more2 keywords1 keywords2 body orelse,
            In (ast.of_stmt
                  (ast.For lineno target
                     (ast.Call l1 (ast.Name "range")
                        (ast.Call l2 (ast.Name "len")
                           (ast.Name id :: more2) keywords2 :: more1)
                        keywords1)
                     body orelse))
               (preorder (ast.of_mod m)).
Proof.
  exists (range_len_sites m). split; [apply find_range_len_patterns_run|].
  intros lineno id. unfold range_len_sites. rewrite in_flat_map. split.
  - intros (n & Hn & Hin). unfold range_len_at in Hin. invert_at Hin.
    injection Hin as <- <-. subst.
    match goal with H : (_ && _)%bool = true |- _ =>
      apply andb_prop in H; destruct H as [H1 H2];
      apply String.eqb_eq in H1; apply String.eqb_eq in H2; subst end.
    eexists _, _, _, _, _, _, _, _, _. eassumption.
  - intros (target & l1 & l2 & more1 & more2 & k1 & k2 & body & orelse & Hin).
    eexists. split; [exact Hin|]. now left.
Qed.

Lemma count_In_pos (ops : list ast.cmpop) :
  0 < count_In ops <-> In ast.In ops.
Proof.
  induction ops as [|op ops IH]; simpl.
  - split; [lia | intros []].
  - destruct op; simpl; rewrite ?IH; split; intros H;
      try lia; try (now right); try (now left);
      destruct H as [H|H]; try discriminate; auto.
Qed.

(** X11. [detect_membership_of_list_in_loops] returns [(lineno, name)]
    exactly for the comparisons of the tree that hold an [in] operator and
    whose first comparator is the bare name; a comparison with [not in]
    only, or whose first comparator is not a name, gives nothing. *)
Theorem membership_findings (m : ast.mod_) :
  exists r,
    detect_membership_of_list_in_loops.run m = inr r
    /\ forall lineno id,
        In (lineno, id) r
        <-> exists lhs ops comparators,
            In (ast.of_expr
                  (ast.Compare lineno lhs ops (ast.Name id :: comparators)))
               (preorder (ast.of_mod m))
            /\ In ast.In ops.
Proof.
  exists (membership_sites m). split; [apply detect_membership_run|].
  intros lineno id. unfold membership_sites. rewrite in_flat_map. split.
  - intros (n & Hn & Hin). unfold membership_at in Hin.
    destruct n as [| |e| |]; try contradiction.
    destruct e; try contradiction.
    destruct comparators as [|c0 cs]; try contradiction.
    destruct c0; try contradiction.
    assert (Hpos : 0 < count_In ops)
      by (destruct (count_In ops); [destruct Hin | lia]).
    apply repeat_spec in Hin. injection Hin as -> ->.
    exists e, ops, cs. split; [exact Hn | now apply count_In_pos].
  - intros (lhs & ops & cs & Hin & Hop). eexists. split; [exact Hin|].
    simpl. apply count_In_pos in Hop.
    destruct (count_In ops); [lia | now left].
Qed.

Lemma list_max_zero (l : list nat) :
  list_max l = 0 <-> Forall (fun k => k = 0) l.
Proof.
  assert (H : list_max l <= 0 <-> Forall (fun k => k <= 0) l)
    by apply list_max_le.
  split.
  - intros E. rewrite E in H. eapply Forall_impl; [|now apply H].
    simpl. lia.
  - intros F. enough (list_max l <= 0) by lia. apply H.
    eapply Forall_impl; [|exact F]. simpl. lia.
Qed.

Lemma loop_depth_zero (n : ast.AST) :
  loop_depth n = 0
  <-> Forall (fun c => isinstance_For_While c = false) (preorder n).
Proof.
  induction n as [n IH] using AST_children_ind.
  rewrite loop_depth_eq, preorder_eq, Forall_cons_iff, Forall_flat_map.
  assert (Hch :
            list_max (map loop_depth (ast.iter_child_nodes n)) = 0
            <-> Forall
                  (fun c =>
                     Forall (fun c' => isinstance_For_While c' = false)
                            (preorder c))
                  (ast.iter_child_nodes n)).
  { rewrite list_max_zero, Forall_map. split; intros H.
    - rewrite Forall_forall in *. intros c Hc. now apply IH, H.
    - rewrite Forall_forall in *. intros c Hc. now apply IH, H. }
  rewrite <- Hch. destruct (isinstance_For_While n); split.
  - lia.
  - intros [H _]. discriminate.
  - intros H. split; [reflexivity | lia].
  - intros [_ H]. lia.
Qed.

(** X12. [max_loop_nesting] is zero exactly when no node of the tree is a
    [for] statement or a [while] statement; a list comprehension is neither
    and does not count. *)
Theorem max_loop_nesting_zero (m : ast.mod_) :
  (max_loop_nesting (ast.of_mod m) = inr 0
   <-> (forall lineno target iter body orelse,
           ~ In (ast.of_stmt (ast.For lineno target iter body orelse))
                (preorder (ast.of_mod m)))
       /\ (forall test body orelse,
              ~ In (ast.of_stmt (ast.While test body orelse))
                   (preorder (ast.of_mod m))))
  /\ (forall varname elt generators,
         max_loop_nesting
           (ast.of_mod
              (ast.Module_
                 [ast.Assign [ast.Name varname]
                    (ast.ListComp elt generators)]))
         = inr 0).
Proof.
  split.
  - rewrite max_loop_nesting_spec.
    assert (H : @inr exn nat (loop_depth (ast.of_mod m)) = inr 0
                <-> loop_depth (ast.of_mod m) = 0)
      by (split; [intros [= H]; exact H | intros H; now rewrite H]).
    rewrite H, (loop_depth_zero (ast.of_mod m)), Forall_forall.
    split.
    + intros Hnone. split.
      * intros lineno target iter body orelse Hin.
        now apply Hnone in Hin.
      * intros test body orelse Hin. now apply Hnone in Hin.
    + intros [Hfor Hwhile] n Hn.
      destruct n as [| st | | |]; try reflexivity.
      destruct st; try reflexivity; exfalso.
      * exact (Hfor _ _ _ _ _ Hn).
      * exact (Hwhile _ _ _ Hn).
  - intros varname elt generators. rewrite max_loop_nesting_spec.
    reflexivity.
Qed.

Lemma fold_left_add_acc (l : list nat) (a : nat) :
  fold_left Nat.add l a = a + fold_left Nat.add l 0.
Proof.
  revert a. induction l as [|x l IH]; intros a; simpl; [lia|].
  rewrite (IH (a + x)), (IH x). lia.
Qed.

Lemma list_comp_count_filter (nodes : list ast.AST) :
  fold_left Nat.add (map list_comp_at nodes) 0
  = length (filter isinstance_ListComp nodes).
Proof.
  induction nodes as [|n nodes IH]; [reflexivity|].
  cbn [map fold_left filter]. rewrite fold_left_add_acc, IH.
  destruct n as [| |[]| |]; reflexivity.
Qed.

(** X13. [estimate_space_complexity] counts the list comprehensions of the
    tree, and says "O(1)" exactly when the tree holds no list comprehension
    and no call [name.append(...)]; otherwise it says "O(n)". *)
Theorem space_estimate_classes (m : ast.mod_) :
  exists space_est appends,
    estimate_space_complexity m
    = inr (space_est,
           VDict [("list_comprehensions",
                   VInt (length (filter isinstance_ListComp
                                        (preorder (ast.of_mod m)))));
                  ("list_appends", VList (map tuple_int_str appends))])
    /\ find_list_append_patterns.run m = inr appends
    /\ (space_est = "Heuristic: O(1) (no major containers built)."%string
        <-> filter isinstance_ListComp (preorder (ast.of_mod m)) = []
            /\ appends = [])
    /\ (space_est = "Heuristic: O(n) (building new containers)."%string
        <-> filter isinstance_ListComp (preorder (ast.of_mod m)) <> []
            \/ appends <> []).
Proof.
  exists (space_est_text (list_comp_count m) (append_sites m)),
    (append_sites m).
  rewrite estimate_space_complexity_eq, find_list_append_patterns_run.
  unfold list_comp_count. rewrite list_comp_count_filter.
  split; [reflexivity|]. split; [reflexivity|].
  unfold space_est_text.
  destruct (filter isinstance_ListComp (preorder (ast.of_mod m)))
    as [|c cs], (append_sites m) as [|a l]; simpl; split; split;
    try discriminate; try tauto; try (intros [H|H]; congruence);
    try (intros [H1 H2]; discriminate); intros _;
    try (now left); try (now right).
Qed.

(** ** The walks on the host *)

(** X22. On the host a walk raises [RecursionError], and nothing else,
    when there are too few frames for the height of the tree: the walk of
    [max_loop_nesting] takes a frame for each level and two more, the walk
    of a detector two frames for each level and one more, at least. Short
    of that each of them returns what it returns with frames to spare. *)
Theorem walks_too_deep_for_the_host (frames : nat) (m : ast.mod_) :
  (frames < height (ast.of_mod m) + 2 ->
   host.max_loop_nesting frames (ast.of_mod m) = inl host.recursion_error)
  /\ (frames < 2 * height (ast.of_mod m) + 1 ->
      host.find_string_concat_in_loops frames m = inl host.recursion_error
      /\ host.find_list_append_patterns frames m = inl host.recursion_error
      /\ host.find_range_len_patterns frames m = inl host.recursion_error
      /\ host.detect_membership_of_list_in_loops frames m
         = inl host.recursion_error
      /\ host.find_sorted_in_loops frames m = inl host.recursion_error)
  /\ (host.max_loop_nesting frames (ast.of_mod m)
      = max_loop_nesting (ast.of_mod m)
      \/ host.max_loop_nesting frames (ast.of_mod m)
         = inl host.recursion_error)
  /\ (host.find_string_concat_in_loops frames m
      = find_string_concat_in_loops.run m
      \/ host.find_string_concat_in_loops frames m = inl host.recursion_error)
  /\ (host.find_list_append_patterns frames m
      = find_list_append_patterns.run m
      \/ host.find_list_append_patterns frames m = inl host.recursion_error)
  /\ (host.find_range_len_patterns frames m = find_range_len_patterns.run m
      \/ host.find_range_len_patterns frames m = inl host.recursion_error)
  /\ (host.detect_membership_of_list_in_loops frames m
      = detect_membership_of_list_in_loops.run m
      \/ host.detect_membership_of_list_in_loops frames m
         = inl host.recursion_error)
  /\ (host.find_sorted_in_loops frames m = find_sorted_in_loops.run m
      \/ host.find_sorted_in_loops frames m = inl host.recursion_error).
Proof.
  pose proof (visitor_frames_ge "visit_AugAssign" (ast.of_mod m)).
  pose proof (visitor_frames_ge "visit_Call" (ast.of_mod m)).
  pose proof (visitor_frames_ge "visit_For" (ast.of_mod m)).
  pose proof (visitor_frames_ge "visit_Compare" (ast.of_mod m)).
  rewrite host_find_string_concat_eq, host_find_list_append_eq,
    host_find_range_len_eq, host_detect_membership_eq, host_find_sorted_eq,
    host_max_loop_nesting_eq.
  rewrite find_string_concat_in_loops_run, find_list_append_patterns_run,
    find_range_len_patterns_run, detect_membership_run,
    find_sorted_in_loops_run, max_loop_nesting_spec.
  leb_cases frames; repeat split; intros; try reflexivity; try lia; auto.
Qed.

Lemma sum_too_deep_for_the_detectors :
  host.max_loop_nesting 1000 (ast.of_mod (sum_tree 599)) = inr 0
  /\ host.find_string_concat_in_loops 1000 (sum_tree 599)
     = inl host.recursion_error
  /\ host.find_list_append_patterns 1000 (sum_tree 599)
     = inl host.recursion_error
  /\ host.find_range_len_patterns 1000 (sum_tree 599)
     = inl host.recursion_error
  /\ host.detect_membership_of_list_in_loops 1000 (sum_tree 599)
     = inl host.recursion_error
  /\ host.find_sorted_in_loops 1000 (sum_tree 599) = inl host.recursion_error.
Proof.
  split; [vm_compute; reflexivity|].
  apply (walks_too_deep_for_the_host 1000 (sum_tree 599)).
  vm_compute. lia.
Defined.


(** ** More on the report *)

Lemma report_of_detections (m : ast.mod_) :
  report_of m
  = report_fields (report_detections m)
      (time_est_text (loop_depth (ast.of_mod m)) (sort_lines m))
      (VDict [("max_loop_nesting", VInt (loop_depth (ast.of_mod m)));
              ("sort_calls", VList (map VInt (sort_lines m)))])
      (space_est_text (list_comp_count m) (append_sites m))
      (VDict [("list_comprehensions", VInt (list_comp_count m));
              ("list_appends", VList (map tuple_int_str (append_sites m)))]).
Proof. reflexivity. Qed.

Lemma report_detections_are_findings (m : ast.mod_) :
  Forall is_finding (report_detections m).
Proof.
  unfold report_detections. rewrite !Forall_app.
  repeat split; apply Forall_map, Forall_forall; intros x _;
    try destruct x as [lineno name]; eexists _, _, _, _;
    (split; [reflexivity|]); repeat (split; [reflexivity|]);
    simpl; tauto.
Qed.

(** X14. The findings of the report are those of the five detectors, one
    detector after the other in the order string concatenation, append,
    [range(len())], membership, sort, each in the order of the detector;
    and the lists under [space_details] and [time_details] are the very
    findings of the append and the sort detector. *)
Theorem report_detections_order (ast_parse : string -> string + ast.mod_)
  (code_str : string) (m : ast.mod_) :
  ast_parse code_str = inr m ->
  exists concats appends range_lens memberships sorts report time_details
         space_details,
    find_string_concat_in_loops.run m = inr concats
    /\ find_list_append_patterns.run m = inr appends
    /\ find_range_len_patterns.run m = inr range_lens
    /\ detect_membership_of_list_in_loops.run m = inr memberships
    /\ find_sorted_in_loops.run m = inr sorts
    /\ analyze_code ast_parse code_str = inr (VDict report)
    /\ dict_get report "detections"
       = inr (VList (map string_concat_detection concats
                     ++ map list_append_detection appends
                     ++ map range_len_detection range_lens
                     ++ map membership_detection memberships
                     ++ map sort_detection sorts))
    /\ dict_get report "time_details" = inr (VDict time_details)
    /\ dict_get time_details "sort_calls" = inr (VList (map VInt sorts))
    /\ dict_get report "space_details" = inr (VDict space_details)
    /\ dict_get space_details "list_appends"
       = inr (VList (map tuple_int_str appends)).
Proof.
  intros Hparse.
  exists (concat_sites m), (append_sites m), (range_len_sites m),
    (membership_sites m), (sort_lines m), (report_of m).
  eexists _, _.
  rewrite find_string_concat_in_loops_run, find_list_append_patterns_run,
    find_range_len_patterns_run, detect_membership_run,
    find_sorted_in_loops_run, (analyze_code_parsed _ _ _ Hparse).
  repeat (split; [reflexivity|]). reflexivity.
Qed.

Lemma sorts_report_is_ordered :
  exists concats appends range_lens memberships sorts report time_details
         space_details,
    find_string_concat_in_loops.run sorts_tree = inr concats
    /\ find_list_append_patterns.run sorts_tree = inr appends
    /\ find_range_len_patterns.run sorts_tree = inr range_lens
    /\ detect_membership_of_list_in_loops.run sorts_tree = inr memberships
    /\ find_sorted_in_loops.run sorts_tree = inr sorts
    /\ analyze_code stub_parse sorts_src = inr (VDict report)
    /\ dict_get report "detections"
       = inr (VList (map string_concat_detection concats
                     ++ map list_append_detection appends
                     ++ map range_len_detection range_lens
                     ++ map membership_detection memberships
                     ++ map sort_detection sorts))
    /\ dict_get report "time_details" = inr (VDict time_details)
    /\ dict_get time_details "sort_calls" = inr (VList (map VInt sorts))
    /\ dict_get report "space_details" = inr (VDict space_details)
    /\ dict_get space_details "list_appends"
       = inr (VList (map tuple_int_str appends)).
Proof.
  apply (report_detections_order stub_parse sorts_src sorts_tree).
  reflexivity.
Defined.

(** X15. Every finding of a report is a dictionary that has a string under
    [type], one of the five kinds, an integer under [lineno] and a string
    under [suggestion]. *)
Theorem report_findings_have_fields
  (ast_parse : string -> string + ast.mod_) (code_str : string)
  (report : list (string * value)) (ds : list value) :
  analyze_code ast_parse code_str = inr (VDict report) ->
  dict_get report "detections" = inr (VList ds) ->
  Forall is_finding ds.
Proof.
  intros Hreport Hds.
  destruct (ast_parse code_str) as [msg|m] eqn:Hparse.
  - unfold analyze_code in Hreport. rewrite Hparse in Hreport.
    injection Hreport as <-. discriminate.
  - rewrite (analyze_code_parsed _ _ _ Hparse) in Hreport.
    injection Hreport as <-. rewrite report_of_detections in Hds.
    injection Hds as <-. apply report_detections_are_findings.
Qed.

Lemma sort_findings_have_fields :
  Forall is_finding [sort_detection 1; sort_detection 2].
Proof.
  apply (report_findings_have_fields stub_parse sorts_src
           (report_of sorts_tree)); reflexivity.
Defined.

(** X16. Whatever [analyze_code] returns on the host is a dictionary with
    an [ok] entry, which is true exactly when the text parsed and false
    exactly when the parser raised [SyntaxError]; the [parse_error] entry is
    there exactly in the second case, and the [detections] entry exactly in
    the first. *)
Theorem report_ok_flag (ast_parse : string -> result ast.mod_)
  (frames : nat) (code_str : string) (v : value) :
  host.analyze_code ast_parse frames code_str = inr v ->
  exists report,
    v = VDict report
    /\ (dict_get report "ok" = inr (VBool true)
        <-> exists m, ast_parse code_str = inr m)
    /\ (dict_get report "ok" = inr (VBool false)
        <-> exists msg, ast_parse code_str = inl (SyntaxError msg))
    /\ ((exists x, dict_get report "parse_error" = inr x)
        <-> exists msg, ast_parse code_str = inl (SyntaxError msg))
    /\ ((exists x, dict_get report "detections" = inr x)
        <-> exists m, ast_parse code_str = inr m).
Proof.
  destruct (ast_parse code_str) as [e|m] eqn:Hparse.
  - unfold host.analyze_code. rewrite Hparse.
    destruct e; try discriminate. intros [= <-].
    exists [("ok", VBool false); ("parse_error", VStr msg)].
    split; [reflexivity|].
    repeat split; try discriminate; try (now eexists);
      try (intros [m' H]; discriminate H);
      try (intros [x H]; discriminate H).
  - rewrite (host_analyze_code_parsed _ _ _ _ Hparse).
    destruct (analyze_frames m <=? frames)%nat; [|discriminate].
    intros [= <-]. exists (report_of m). split; [reflexivity|].
    repeat split; try discriminate; try (now eexists);
      try (intros [m' H]; discriminate H);
      try (intros [x H]; discriminate H).
Qed.

Lemma sorts_report_has_ok_flag :
  exists report,
    VDict (report_of sorts_tree) = VDict report
    /\ (dict_get report "ok" = inr (VBool true)
        <-> exists m, stub_host_parse sorts_src = inr m)
    /\ (dict_get report "ok" = inr (VBool false)
        <-> exists msg, stub_host_parse sorts_src = inl (SyntaxError msg))
    /\ ((exists x, dict_get report "parse_error" = inr x)
        <-> exists msg, stub_host_parse sorts_src = inl (SyntaxError msg))
    /\ ((exists x, dict_get report "detections" = inr x)
        <-> exists m, stub_host_parse sorts_src = inr m).
Proof.
  apply (report_ok_flag stub_host_parse 100 sorts_src).
  vm_compute. reflexivity.
Defined.

(** ** The two buttons *)

Lemma show_finding_line (str_container : value -> string) (d : value)
  (calls : list st_call) :
  is_finding d ->
  exists call,
    show_finding str_container d calls = (calls ++ [call], inr tt)
    /\ shown_as d call.
Proof.
  intros (fields & type_ & lineno & suggestion & -> & Ht & Hl & Hs & _).
  eexists. split.
  - unfold show_finding, eval, st, subscript.
    cbn [bind Monad_ui]. rewrite Ht. cbn [of_result].
    rewrite Hl. cbn [of_result]. rewrite Hs. cbn [of_result py_str].
    reflexivity.
  - now exists fields, type_, lineno, suggestion.
Qed.

Lemma ui_for_show_finding (str_container : value -> string)
  (ds : list value) :
  Forall is_finding ds ->
  forall calls,
  exists lines,
    ui_for (show_finding str_container) ds calls = (calls ++ lines, inr tt)
    /\ Forall2 shown_as ds lines.
Proof.
  induction 1 as [|d ds Hd _ IH]; intros calls.
  - exists []. split; [simpl; now rewrite app_nil_r | constructor].
  - destruct (show_finding_line str_container d calls Hd)
      as (call & Hcall & Hshown).
    destruct (IH (calls ++ [call])) as (lines & Hlines & Hall).
    exists (call :: lines). split; [|now constructor].
    cbn [ui_for bind Monad_ui]. rewrite Hcall, Hlines.
    now rewrite <- app_assoc.
Qed.

(** X17. When the parser raises [SyntaxError], the Analyze button shows one
    error, "Parse error: " followed by the parser's message, and nothing
    else. When the parser raises any other exception, such as the
    [ValueError] of a null byte, the button shows "Analysis failed" and the
    traceback of that exception. *)
Theorem on_analyze_parse_error (ast_parse : string -> result ast.mod_)
  (frames : nat) (format_exc : py_exception -> string)
  (str_container : value -> string) (code : string) :
  (forall msg,
      ast_parse code = inl (SyntaxError msg) ->
      calls_of (on_analyze ast_parse frames format_exc str_container code)
      = [st_error ("Parse error: " ++ msg)%string])
  /\ (forall e,
         ast_parse code = inl e ->
         (forall msg, e <> SyntaxError msg) ->
         calls_of (on_analyze ast_parse frames format_exc str_container code)
         = [st_error "Analysis failed"; st_text (format_exc (Raised e))]).
Proof.
  split.
  - intros msg Hparse.
    unfold calls_of, on_analyze, try_except, host.analyze_code.
    rewrite Hparse. reflexivity.
  - intros e Hparse Hother.
    unfold calls_of, on_analyze, try_except, host.analyze_code.
    rewrite Hparse. destruct e; try reflexivity. now destruct (Hother msg).
Qed.

Lemma analyze_button_on_invalid_text :
  calls_of (on_analyze stub_host_parse 100 (fun _ => ""%string)
                       (fun _ => ""%string) invalid_src)
  = [st_error ("Parse error: " ++ "invalid syntax (<unknown>, line 1)")%string]
  /\ calls_of (on_analyze stub_host_parse 100 (fun _ => "ValueError"%string)
                          (fun _ => ""%string) nul_src)
     = [st_error "Analysis failed"; st_text "ValueError"].
Proof.
  split.
  - apply (proj1 (on_analyze_parse_error stub_host_parse 100
                    (fun _ => ""%string) (fun _ => ""%string) invalid_src)).
    reflexivity.
  - apply (proj2 (on_analyze_parse_error stub_host_parse 100
                    (fun _ => "ValueError"%string) (fun _ => ""%string)
                    nul_src)
             (ValueError "source code string cannot contain null bytes"));
      [reflexivity | discriminate].
Defined.

(** X18. On a text that parses to a tree the host has frames to walk
    (three for each level and three more are enough), the Analyze button
    does not show "Analysis failed": it shows the two estimates with their
    details, then one line per finding of the report, in order, built from
    the finding's type, line number and suggestion, or "No issues
    detected." when the report has no finding. On a tree higher than the
    frames the host has left, it shows "Analysis failed" and the traceback
    of [RecursionError], and nothing else. *)
Theorem on_analyze_shows_report (ast_parse : string -> result ast.mod_)
  (frames : nat) (format_exc : py_exception -> string)
  (str_container : value -> string) (code : string) (m : ast.mod_) :
  ast_parse code = inr m ->
  (3 * height (ast.of_mod m) + 3 <= frames ->
   exists report time_estimate time_details space_estimate space_details ds
          lines,
     host.analyze_code ast_parse frames code = inr (VDict report)
     /\ dict_get report "time_estimate" = inr time_estimate
     /\ dict_get report "time_details" = inr time_details
     /\ dict_get report "space_estimate" = inr space_estimate
     /\ dict_get report "space_details" = inr space_details
     /\ dict_get report "detections" = inr (VList ds)
     /\ calls_of (on_analyze ast_parse frames format_exc str_container code)
        = [st_subheader "Complexity Estimates";
           st_write [VStr "**Time:**"; time_estimate];
           st_json time_details;
           st_write [VStr "**Space:**"; space_estimate];
           st_json space_details;
           st_subheader "Detections & Suggestions"] ++ lines
     /\ (ds = [] -> lines = [st_info "No issues detected."])
     /\ (ds <> [] -> Forall2 shown_as ds lines)
     /\ ~ In (st_error "Analysis failed") (calls_of
             (on_analyze ast_parse frames format_exc str_container code)))
  /\ (frames < height (ast.of_mod m) + 4 ->
      calls_of (on_analyze ast_parse frames format_exc str_container code)
      = [st_error "Analysis failed";
         st_text (format_exc (Raised host.recursion_error))]).
Proof.
  intros Hparse.
  pose proof (host_analyze_code_parsed _ frames _ _ Hparse) as Hhost.
  pose proof (analyze_frames_le m) as Hle.
  pose proof (analyze_frames_ge m) as Hge.
  split; [intros Hframes | intros Hframes];
    [|unfold calls_of, on_analyze, try_except; rewrite Hhost;
      destruct (Nat.leb_spec (analyze_frames m) frames); [lia | reflexivity]].
  assert (Hrun : host.analyze_code ast_parse frames code
                 = inr (VDict (report_of m))).
  { rewrite Hhost.
    destruct (Nat.leb_spec (analyze_frames m) frames); [reflexivity | lia]. }
  clear Hhost Hle Hge.
  pose proof (report_detections_are_findings m) as Hfindings.
  exists (report_of m). rewrite report_of_detections.
  destruct (report_detections m) as [|d ds] eqn:Hds.
  - eexists _, _, _, _, [], [st_info "No issues detected."].
    split; [rewrite Hrun; now rewrite report_of_detections, Hds|].
    do 5 (split; [reflexivity|]).
    assert (Hcalls :
              calls_of (on_analyze ast_parse frames format_exc str_container
                                   code)
              = [st_subheader "Complexity Estimates";
                 st_write [VStr "**Time:**";
                           VStr (time_est_text (loop_depth (ast.of_mod m))
                                               (sort_lines m))];
                 st_json
                   (VDict [("max_loop_nesting",
                            VInt (loop_depth (ast.of_mod m)));
                           ("sort_calls", VList (map VInt (sort_lines m)))]);
                 st_write [VStr "**Space:**";
                           VStr (space_est_text (list_comp_count m)
                                                (append_sites m))];
                 st_json
                   (VDict [("list_comprehensions", VInt (list_comp_count m));
                           ("list_appends",
                            VList (map tuple_int_str (append_sites m)))]);
                 st_subheader "Detections & Suggestions";
                 st_info "No issues detected."]).
    { unfold calls_of, on_analyze, try_except.
      rewrite Hrun, report_of_detections, Hds.
      reflexivity. }
    rewrite Hcalls. split; [reflexivity|]. split; [reflexivity|].
    split; [congruence|].
    simpl. intros H. repeat (destruct H as [H|H]; [discriminate H|]).
    exact H.
  - destruct (ui_for_show_finding str_container (d :: ds) Hfindings
                [st_subheader "Complexity Estimates";
                 st_write [VStr "**Time:**";
                           VStr (time_est_text (loop_depth (ast.of_mod m))
                                               (sort_lines m))];
                 st_json
                   (VDict [("max_loop_nesting",
                            VInt (loop_depth (ast.of_mod m)));
                           ("sort_calls", VList (map VInt (sort_lines m)))]);
                 st_write [VStr "**Space:**";
                           VStr (space_est_text (list_comp_count m)
                                                (append_sites m))];
                 st_json
                   (VDict [("list_comprehensions", VInt (list_comp_count m));
                           ("list_appends",
                            VList (map tuple_int_str (append_sites m)))]);
                 st_subheader "Detections & Suggestions"])
      as (lines & Hlines & Hshown).
    eexists _, _, _, _, (d :: ds), lines.
    split; [rewrite Hrun; now rewrite report_of_detections, Hds|].
    do 5 (split; [reflexivity|]).
    assert (Hcalls :
              calls_of (on_analyze ast_parse frames format_exc str_container
                                   code)
              = [st_subheader "Complexity Estimates";
                 st_write [VStr "**Time:**";
                           VStr (time_est_text (loop_depth (ast.of_mod m))
                                               (sort_lines m))];
                 st_json
                   (VDict [("max_loop_nesting",
                            VInt (loop_depth (ast.of_mod m)));
                           ("sort_calls", VList (map VInt (sort_lines m)))]);
                 st_write [VStr "**Space:**";
                           VStr (space_est_text (list_comp_count m)
                                                (append_sites m))];
                 st_json
                   (VDict [("list_comprehensions", VInt (list_comp_count m));
                           ("list_appends",
                            VList (map tuple_int_str (append_sites m)))]);
                 st_subheader "Detections & Suggestions"] ++ lines).
    { unfold calls_of, on_analyze, try_except.
      rewrite Hrun, report_of_detections, Hds.
      cbv beta iota delta
        [bind ret Monad_ui eval of_result subscript dict_get report_fields
         truth negb truthy st iter_value app fst
         String.eqb Ascii.eqb Bool.eqb Monad_either].
      rewrite Hlines. reflexivity. }
    rewrite Hcalls. split; [reflexivity|]. split; [discriminate|].
    split; [intros _; exact Hshown|].
    rewrite in_app_iff. intros [H|H].
    + simpl in H. repeat (destruct H as [H|H]; [discriminate H|]). exact H.
    + clear -H Hshown. induction Hshown as [|d' c' ds' ls' Hd _ IH];
        [destruct H|].
      destruct H as [->|H]; [|now apply IH].
      destruct Hd as (? & ? & ? & ? & _ & _ & _ & _ & Hd). discriminate Hd.
Qed.

Lemma analyze_button_on_sorts :
  (exists report time_estimate time_details space_estimate space_details ds
          lines,
     host.analyze_code stub_host_parse 100 sorts_src = inr (VDict report)
     /\ dict_get report "time_estimate" = inr time_estimate
     /\ dict_get report "time_details" = inr time_details
     /\ dict_get report "space_estimate" = inr space_estimate
     /\ dict_get report "space_details" = inr space_details
     /\ dict_get report "detections" = inr (VList ds)
     /\ calls_of (on_analyze stub_host_parse 100 (fun _ => ""%string)
                             (fun _ => ""%string) sorts_src)
        = [st_subheader "Complexity Estimates";
           st_write [VStr "**Time:**"; time_estimate];
           st_json time_details;
           st_write [VStr "**Space:**"; space_estimate];
           st_json space_details;
           st_subheader "Detections & Suggestions"] ++ lines
     /\ (ds = [] -> lines = [st_info "No issues detected."])
     /\ (ds <> [] -> Forall2 shown_as ds lines)
     /\ ~ In (st_error "Analysis failed") (calls_of
             (on_analyze stub_host_parse 100 (fun _ => ""%string)
                         (fun _ => ""%string) sorts_src)))
  /\ calls_of (on_analyze stub_host_parse 100
                          (fun _ => "RecursionError"%string)
                          (fun _ => ""%string) (sum_src 599))
     = [st_error "Analysis failed"; st_text "RecursionError"].
Proof.
  split.
  - apply (on_analyze_shows_report stub_host_parse 100 (fun _ => ""%string)
             (fun _ => ""%string) sorts_src sorts_tree);
      [reflexivity | vm_compute; lia].
  - apply (on_analyze_shows_report stub_host_parse 100
             (fun _ => "RecursionError"%string) (fun _ => ""%string)
             (sum_src 599) (sum_tree 599));
      [vm_compute; reflexivity | vm_compute; lia].
Defined.

(** X19. The Auto-Refactor button shows either the rewritten text, as code
    and as the data of the download, or "Refactor failed" with the
    traceback, never both: the text when [auto_refactor] returns it, the
    failure with the traceback of the exception that [auto_refactor]
    raised. An exception of the parser is shown in this way. *)
Theorem on_refactor_shows (ast_parse : string -> result ast.mod_)
  (ast_unparse : ast.mod_ -> result string)
  (astor_to_source : option (ast.mod_ -> result string))
  (format_str : option (string -> option string)) (frames : nat)
  (format_exc : py_exception -> string) (code : string) :
  ((exists new_code,
       host.auto_refactor ast_parse ast_unparse astor_to_source format_str
                          frames code = inr new_code
       /\ calls_of (on_refactor ast_parse ast_unparse astor_to_source
                                format_str frames format_exc code)
          = [st_subheader "Refactored Code";
             st_code new_code "python";
             st_download_button "Download Refactored Code" new_code
                                "refactored_code.py"])
   \/ (exists e,
          host.auto_refactor ast_parse ast_unparse astor_to_source format_str
                             frames code = inl e
          /\ calls_of (on_refactor ast_parse ast_unparse astor_to_source
                                   format_str frames format_exc code)
             = [st_error "Refactor failed"; st_text (format_exc (Raised e))]))
  /\ (forall e,
         ast_parse code = inl e ->
         calls_of (on_refactor ast_parse ast_unparse astor_to_source
                               format_str frames format_exc code)
         = [st_error "Refactor failed"; st_text (format_exc (Raised e))]).
Proof.
  split.
  - unfold calls_of, on_refactor, try_except.
    destruct (host.auto_refactor ast_parse ast_unparse astor_to_source
                                 format_str frames code)
      as [e|new_code] eqn:Hrefactor.
    + right. exists e. split; reflexivity.
    + left. exists new_code. split; reflexivity.
  - intros e Hparse. unfold calls_of, on_refactor, try_except.
    unfold host.auto_refactor. rewrite Hparse. reflexivity.
Qed.
